(** * Retention Guard: the risk scoring pipeline, embedded and verified

    A shallow embedding of [src/retention_guard/{data,model,pipeline}.py].

    - Python floats and numpy float64 cells are IEEE-754 binary64 values,
      modelled by the kernel's specification [spec_float] at precision 53
      and maximal exponent 1024.  A decimal literal such as [0.7] denotes
      the double nearest to 7/10, which is what the correctly rounded
      quotient of the two exact doubles 7 and 10 computes.
    - A pandas data frame is an ordered list of named, typed columns.
      Frames are objects: they live in a heap and are passed by reference,
      so that [copy] and item assignment have their Python meaning.
    - scikit-learn and numpy are an interface ([Backend]): the forest
      learner, its per-row class probabilities and per-column importances,
      the scaler's statistics, the AUC, the random draws and the cast of a
      column to int64.  The encoders' [transform] is written out.
    - Exceptions are values of [exn]; stateful code runs in the monad [M]
      over [World]: the heap, the CSV files by path, and a trace of the
      calls that make or change frames, fit or apply the estimator, or
      touch the file system.  A save replaces the file at its path.
      Failures of the file system itself are not modelled. *)

From Stdlib Require Import ZArith List String Ascii Bool Lia.
From Stdlib Require Import Floats.SpecFloat DecimalString DecimalZ Sorted Permutation.
From stdpp Require Import base list.
Import ListNotations.

Local Open Scope string_scope.
Local Open Scope Z_scope.

(** ** Part I.  The embedding *)

(** *** Binary64 floating point *)

Module F64.

Definition float := spec_float.

Definition prec : Z := 53.
Definition emax : Z := 1024.

(** An integer literal, or an int converted to float. *)
Definition of_Z (z : Z) : float := binary_normalize prec emax z 0 false.

(** The decimal literal [n / d], for [n] and a power of ten [d] below
    2^53: the double nearest to the quotient. *)
Definition dec (n d : Z) : float := SFdiv prec emax (of_Z n) (of_Z d).

Definition mul : float -> float -> float := SFmul prec emax.
Definition div : float -> float -> float := SFdiv prec emax.
Definition add : float -> float -> float := SFadd prec emax.
Definition sub : float -> float -> float := SFsub prec emax.

(** Python's [a < b], [a <= b], [a > b], [a >= b], [a == b] on floats:
    all false as soon as one side is NaN. *)
Definition lt (a b : float) : bool := SFltb a b.
Definition le (a b : float) : bool := SFleb a b.
Definition gt (a b : float) : bool := SFltb b a.
Definition ge (a b : float) : bool := SFleb b a.
Definition eqb (a b : float) : bool := SFeqb a b.

Definition is_nan (a : float) : bool :=
  match a with S754_nan => true | _ => false end.

Definition zero : float := S754_zero false.
Definition one : float := of_Z 1.

(** [numpy.rint]: the nearest integer, ties to even, as a float. *)
Definition rint (x : float) : float :=
  match x with
  | S754_finite s m (Zneg k) =>
      let mrs :=
        fst (shr (Build_shr_record (Zpos m) false false) (Zneg k) (Zpos k)) in
      binary_normalize prec emax
        (cond_Zopp s (round_nearest_even (shr_m mrs) (loc_of_shr_record mrs)))
        0 s
  | _ => x
  end.

(** [numpy.round(x, decimals)] on a float64: scale by the power of ten,
    [rint], scale back (multiply then divide for positive [decimals],
    divide then multiply for negative ones). *)
Definition round (x : float) (decimals : Z) : float :=
  match decimals with
  | Z0 => rint x
  | Zpos _ => let f := of_Z (10 ^ decimals) in div (rint (mul x f)) f
  | Zneg _ => let f := of_Z (10 ^ (- decimals)) in mul (rint (div x f)) f
  end.

(** [int(x)] on a finite float: truncation to zero. *)
Definition trunc (x : float) : option Z :=
  match x with
  | S754_zero _ => Some 0
  | S754_finite s m e =>
      let a := match e with
               | Zneg k => Z.shiftr (Zpos m) (Zpos k)
               | _ => Z.shiftl (Zpos m) e
               end in
      Some (if s then - a else a)
  | _ => None
  end.

End F64.

Abbreviation float := F64.float.

(** *** Python values: exceptions, strings, dicts, sorting *)

Inductive exn : Type :=
| ValueError (msg : string)
| KeyError (key : string)
| TypeError (msg : string)
| IndexError (msg : string)
| FileNotFoundError (path : string).

Inductive result (A : Type) : Type :=
| Ok (a : A)
| Raise (e : exn).
Arguments Ok {A} a.
Arguments Raise {A} e.

#[global] Instance result_ret : MRet result := fun A a => Ok a.
#[global] Instance result_bind : MBind result := fun A B f r =>
  match r with
  | Ok a => f a
  | Raise e => Raise e
  end.

(** [[f(x) for x in l]] where [f] may raise. *)
Fixpoint result_map {A B} (f : A -> result B) (l : list A) : result (list B) :=
  match l with
  | [] => Ok []
  | x :: l' => y ← f x; ys ← result_map f l'; Ok (y :: ys)
  end.

(** [s.replace(old, new)] for a non-empty [old]: every non-overlapping
    occurrence, left to right.  [skip] counts the characters of a match
    still to be dropped. *)
Fixpoint str_replace_go (old new : string) (skip : nat) (s : string) : string :=
  match s with
  | EmptyString => EmptyString
  | String c s' =>
      match skip with
      | S k => str_replace_go old new k s'
      | O =>
          if String.prefix old s
          then new ++ str_replace_go old new (String.length old - 1) s'
          else String c (str_replace_go old new 0 s')
      end
  end.

Definition str_replace (s old new : string) : string :=
  str_replace_go old new 0 s.

(** [sep.join(l)]. *)
Definition str_join (sep : string) (l : list string) : string :=
  String.concat sep l.

(** [str(n)] for an int. *)
Definition str_of_Z (n : Z) : string :=
  DecimalString.NilZero.string_of_int (Z.to_int n).

(** A [dict] with string keys: insertion-ordered, keys unique.
    [d[k] = v] keeps the position of an existing key. *)
Definition dict (V : Type) : Type := list (string * V).

Fixpoint dict_set {V} (k : string) (v : V) (d : dict V) : dict V :=
  match d with
  | [] => [(k, v)]
  | (k', v') :: d' =>
      if String.eqb k' k then (k', v) :: d' else (k', v') :: dict_set k v d'
  end.

Fixpoint dict_get {V} (k : string) (d : dict V) : option V :=
  match d with
  | [] => None
  | (k', v') :: d' => if String.eqb k' k then Some v' else dict_get k d'
  end.

Definition dict_keys {V} (d : dict V) : list string := map fst d.

(** [{k: v for k, v in pairs}]. *)
Definition dict_of_pairs {V} (pairs : list (string * V)) : dict V :=
  fold_left (fun d p => dict_set (fst p) (snd p) d) pairs [].

(** [sorted(l, key=key, reverse=True)] on float keys.  The sort is
    stable and compares with [<] only; descending order keeps the
    original order of equal keys.  On keys that are numbers every stable
    sort returns this list; insertion is the simplest one to write. *)
Fixpoint insert_desc {A} (key : A -> float) (x : A) (l : list A) : list A :=
  match l with
  | [] => [x]
  | y :: l' =>
      if F64.lt (key x) (key y) then y :: insert_desc key x l' else x :: l
  end.

Definition sorted_desc {A} (key : A -> float) (l : list A) : list A :=
  foldr (insert_desc key) [] l.

(** [max(l, key=key)] on a non-empty iterable, started at its first item:
    a later item replaces the best one only when its key is greater. *)
Fixpoint max_by {A} (key : A -> float) (best : A) (l : list A) : A :=
  match l with
  | [] => best
  | x :: l' => max_by key (if F64.gt (key x) (key best) then x else best) l'
  end.

(** *** pandas: series and data frames *)

(** A numeric cell of an [int64] or [float64] column. *)
Inductive num : Type :=
| NInt (z : Z)
| NFloat (x : float).

(** A column with its dtype: [int64], [float64], or [object] holding
    strings. *)
Inductive column : Type :=
| IntCol (l : list Z)
| FloatCol (l : list float)
| StrCol (l : list string).

Definition col_length (c : column) : nat :=
  match c with
  | IntCol l => length l
  | FloatCol l => length l
  | StrCol l => length l
  end.

(** The cells of a numeric column; a string column has none. *)
Definition col_nums (c : column) : option (list num) :=
  match c with
  | IntCol l => Some (map NInt l)
  | FloatCol l => Some (map NFloat l)
  | StrCol _ => None
  end.

(** [cell < k] and [cell > k] against an int literal [k]. *)
Definition num_lt (n : num) (k : Z) : bool :=
  match n with
  | NInt z => Z.ltb z k
  | NFloat x => F64.lt x (F64.of_Z k)
  end.

Definition num_gt (n : num) (k : Z) : bool :=
  match n with
  | NInt z => Z.ltb k z
  | NFloat x => F64.gt x (F64.of_Z k)
  end.

(** The cell as a float64 (what the scaler computes with). *)
Definition num_to_float (n : num) : float :=
  match n with
  | NInt z => F64.of_Z z
  | NFloat x => x
  end.

(** [series < k], [series > k]: elementwise; a string column raises. *)
Definition series_lt (c : column) (k : Z) : result (list bool) :=
  match col_nums c with
  | Some ns => Ok (map (fun n => num_lt n k) ns)
  | None => Raise (TypeError "'<' not supported between instances of 'str' and 'int'")
  end.

Definition series_gt (c : column) (k : Z) : result (list bool) :=
  match col_nums c with
  | Some ns => Ok (map (fun n => num_gt n k) ns)
  | None => Raise (TypeError "'>' not supported between instances of 'str' and 'int'")
  end.

(** [series.astype(int)] on a boolean series. *)
Definition bools_astype_int (bs : list bool) : list Z :=
  map (fun b : bool => if b then 1 else 0) bs.

(** [a + b] on two int series over the same index. *)
Fixpoint series_add (a b : list Z) : list Z :=
  match a, b with
  | x :: a', y :: b' => (x + y) :: series_add a' b'
  | _, _ => []
  end.

(** [series >= k] on an int series. *)
Definition series_ge (a : list Z) (k : Z) : list bool :=
  map (fun z => Z.leb k z) a.

(** A data frame: its columns in order.  Column names are unique. *)
Definition DataFrame : Type := list (string * column).

(** [df.columns]. *)
Definition columns (df : DataFrame) : list string := map fst df.

(** [name in df.columns]. *)
Definition has_column (name : string) (df : DataFrame) : bool :=
  existsb (String.eqb name) (columns df).

(** [len(df)]. *)
Definition nrows (df : DataFrame) : nat :=
  match df with
  | [] => O
  | (_, c) :: _ => col_length c
  end.

(** [df[name]]. *)
Fixpoint get_column (name : string) (df : DataFrame) : result column :=
  match df with
  | [] => Raise (KeyError name)
  | (n, c) :: df' => if String.eqb n name then Ok c else get_column name df'
  end.

(** [df[names]]: the named columns, in the order asked. *)
Definition select (names : list string) (df : DataFrame) : result DataFrame :=
  result_map (fun n => c ← get_column n df; Ok (n, c)) names.

(** The frame after [df[name] = col]: an existing column is replaced in
    place, a new one is appended. *)
Fixpoint set_column (name : string) (col : column) (df : DataFrame) : DataFrame :=
  match df with
  | [] => [(name, col)]
  | (n, c) :: df' =>
      if String.eqb n name then (n, col) :: df' else (n, c) :: set_column name col df'
  end.

(** All columns have [n] rows. *)
Definition rectangular (n : nat) (df : DataFrame) : Prop :=
  Forall (fun nc => col_length (snd nc) = n) df.

(** *** The world: frames by reference, files, and the calls made *)

(** A reference to a frame object. *)
Definition ref : Type := nat.

(** The calls of a run that make or change a frame object, that fit or
    apply the estimator, or that touch the file system, in the order they
    happen.  A frame object is a frame the program assigns to, saves or
    hands to its caller.  The temporaries that are only read (the feature
    selections [df[features].copy()] of [train_model] and [df[features]]
    of [score], the series of the heuristic) are values, and making them
    is not recorded. *)
Inductive event : Type :=
| EvReadCsv (path : string)
| EvGenerateSample (rows : Z)
| EvCopy (src dst : ref)
| EvSelectCopy (src dst : ref)
| EvSetItem (frame : ref) (name : string)
| EvFit
| EvPredictProba
| EvMkdirParent (path : string)
| EvToCsv (path : string).

(** The file system holds CSV files as tables, by path: the table
    [read_csv] parses from the file, or the frame saved there.  How a
    saved frame parses back is not modelled; a run reads before it
    writes.  Directories are not part of the world.  [written] remembers
    every write, newest first. *)
Record World : Type := {
  heap : list DataFrame;               (* the frame objects *)
  files : list (string * DataFrame);   (* the CSV files, as tables *)
  written : list (string * DataFrame); (* the writes made, newest first *)
  log : list event                     (* the calls made, oldest first *)
}.

(** Code that reads and updates the world and may raise.  When it raises,
    the world is the one at the point of the exception. *)
Definition M (A : Type) : Type := World -> result A * World.

#[global] Instance M_ret : MRet M := fun A a w => (Ok a, w).
#[global] Instance M_bind : MBind M := fun A B f m w =>
  match m w with
  | (Ok a, w') => f a w'
  | (Raise e, w') => (Raise e, w')
  end.

Definition raise {A} (e : exn) : M A := fun w => (Raise e, w).

(** Run pure code that may raise. *)
Definition lift {A} (r : result A) : M A := fun w => (r, w).

Definition emit (ev : event) : M unit := fun w =>
  (Ok tt, {| heap := heap w; files := files w; written := written w;
             log := log w ++ [ev] |}).

(** A new frame object. *)
Definition alloc (df : DataFrame) : M ref := fun w =>
  (Ok (length (heap w)),
   {| heap := heap w ++ [df]; files := files w; written := written w;
      log := log w |}).

(** The frame a reference denotes. *)
Definition deref (r : ref) : M DataFrame := fun w =>
  match heap w !! r with
  | Some df => (Ok df, w)
  | None => (Raise (ValueError "no such object"), w)
  end.

(** Overwrite the frame a reference denotes. *)
Definition store (r : ref) (df : DataFrame) : M unit := fun w =>
  (Ok tt, {| heap := <[r := df]> (heap w); files := files w;
             written := written w; log := log w |}).

(** [df.copy()]: a new object with the same columns. *)
Definition df_copy (r : ref) : M ref :=
  df ← deref r;
  r' ← alloc df;
  _ ← emit (EvCopy r r');
  mret r'.

(** [df[name] = col], in place.  The values must fit the index. *)
Definition df_setitem (r : ref) (name : string) (col : column) : M unit :=
  df ← deref r;
  if negb (Nat.eqb (col_length col) (nrows df)) && negb (Nat.eqb (length df) 0)
  then raise (ValueError "Length of values does not match length of index")
  else
    _ ← emit (EvSetItem r name);
    store r (set_column name col df).

Fixpoint assoc {V} (k : string) (l : list (string * V)) : option V :=
  match l with
  | [] => None
  | (k', v) :: l' => if String.eqb k' k then Some v else assoc k l'
  end.

Definition open_file (path : string) : M DataFrame := fun w =>
  match assoc path (files w) with
  | Some df => (Ok df, w)
  | None => (Raise (FileNotFoundError path), w)
  end.

(** Writing a file replaces the file at that path, or makes a new one. *)
Definition write_file (path : string) (df : DataFrame) : M unit := fun w =>
  (Ok tt, {| heap := heap w; files := dict_set path df (files w);
             written := (path, df) :: written w; log := log w |}).

(** [pd.read_csv(path)]: a new frame object holding the file's table. *)
Definition read_csv (path : string) : M ref :=
  _ ← emit (EvReadCsv path);
  df ← open_file path;
  alloc df.

(** [df.to_csv(path, index=False)]. *)
Definition to_csv (r : ref) (path : string) : M unit :=
  df ← deref r;
  _ ← emit (EvToCsv path);
  write_file path df.

(** [path.parent.mkdir(parents=True, exist_ok=True)]: the directory of
    [path] is made if it is missing.  Directories are not part of the
    world, and the errors of the file system itself (no permission, a
    file in the way) are not modelled: the call is recorded. *)
Definition mkdir_parent (path : string) : M unit :=
  emit (EvMkdirParent path).

(** *** scikit-learn: the estimator interface and the encoders *)

(** The hyperparameters given to [RandomForestClassifier]. *)
Record RFParams : Type := {
  n_estimators : Z;
  max_depth : Z;
  random_state : Z;
  class_weight : string
}.

(** What the pipeline uses of scikit-learn and numpy without looking
    inside: the forest learner on an encoded matrix (rows of floats) and
    int labels, the fitted forest's classes, its class probabilities for
    one encoded row, its per-column importances; the scaler's mean and
    scale of a column; the AUC; the sample generator's random draws; the
    cast to int64 of a column that is not one (floats, strings). *)
Record Backend : Type := {
  Forest : Type;
  rf_fit : RFParams -> list (list float) -> list Z -> result Forest;
  rf_classes : Forest -> list Z;
  rf_predict_proba : Forest -> list float -> list float;
  rf_feature_importances : Forest -> list float;
  scaler_stats : list float -> float * float;
  roc_auc_score : list Z -> list float -> result float;
  rng_sample : Z -> Z -> list column;
  cast_int64 : column -> result (list Z)
}.

(** [OneHotEncoder(handle_unknown=...)]. *)
Inductive handle_unknown : Type := HU_error | HU_ignore.

(** A fitted [StandardScaler]: one mean and one scale per column. *)
Record StandardScaler : Type := {
  mean_ : list float;
  scale_ : list float
}.

(** A fitted [OneHotEncoder]: the levels seen at fit, per column. *)
Record OneHotEncoder : Type := {
  ohe_handle_unknown : handle_unknown;
  categories_ : list (list string)
}.

(** A fitted [ColumnTransformer] with its two named transformers. *)
Record ColumnTransformer : Type := {
  num_columns : list string;
  transformer_num : StandardScaler;
  cat_columns : list string;
  transformer_cat : OneHotEncoder
}.

(** The levels of a column as the encoder stores them:
    [sorted(set(values))]. *)
Fixpoint insert_sorted (s : string) (l : list string) : list string :=
  match l with
  | [] => [s]
  | t :: l' => if String.leb s t then s :: l else t :: insert_sorted s l'
  end.

Definition sorted_unique (l : list string) : list string :=
  foldr (fun s acc => if existsb (String.eqb s) acc then acc
                      else insert_sorted s acc) [] l.

(** The column a [ColumnTransformer] selects by name. *)
Definition ct_column (name : string) (df : DataFrame) : result column :=
  match get_column name df with
  | Ok c => Ok c
  | Raise _ => Raise (ValueError "A given column is not a column of the dataframe")
  end.

(** The cells of a column given to the scaler, as floats. *)
Definition numeric_values (name : string) (df : DataFrame) : result (list float) :=
  c ← ct_column name df;
  match col_nums c with
  | Some ns => Ok (map num_to_float ns)
  | None => Raise (ValueError "could not convert string to float")
  end.

(** The cells of a categorical column.  The model covers categorical
    fields held as strings. *)
Definition string_values (name : string) (df : DataFrame) : result (list string) :=
  c ← ct_column name df;
  match c with
  | StrCol l => Ok l
  | _ => Raise (TypeError "categorical column is not of strings")
  end.

(** [StandardScaler.transform] on one column. *)
Definition scale_column (mean scale : float) (xs : list float) : list float :=
  map (fun x => F64.div (F64.sub x mean) scale) xs.

(** One indicator column of [OneHotEncoder.transform]. *)
Definition onehot_column (level : string) (vals : list string) : list float :=
  map (fun v => if String.eqb v level then F64.one else F64.zero) vals.

(** [OneHotEncoder.transform] on one field: an indicator column per
    fitted level.  A value outside the fitted levels raises under
    [handle_unknown="error"]; under ["ignore"] it matches no level. *)
Definition onehot_block (hu : handle_unknown) (levels vals : list string)
  : result (list (list float)) :=
  match hu with
  | HU_error =>
      if forallb (fun v => existsb (String.eqb v) levels) vals
      then Ok (map (fun l => onehot_column l vals) levels)
      else Raise (ValueError "Found unknown categories during transform")
  | HU_ignore => Ok (map (fun l => onehot_column l vals) levels)
  end.

Fixpoint zip3 {A B C} (a : list A) (b : list B) (c : list C) : list (A * B * C) :=
  match a, b, c with
  | x :: a', y :: b', z :: c' => (x, y, z) :: zip3 a' b' c'
  | _, _, _ => []
  end.

(** [ColumnTransformer.transform]: the encoded columns, numeric fields in
    their order and then each categorical field's indicator columns. *)
Definition ct_transform (ct : ColumnTransformer) (df : DataFrame)
  : result (list (list float)) :=
  nums ← result_map
          (fun '(name, mean, scale) =>
             xs ← numeric_values name df; Ok (scale_column mean scale xs))
          (zip3 (num_columns ct) (mean_ (transformer_num ct))
                (scale_ (transformer_num ct)));
  cats ← result_map
          (fun '(name, levels) =>
             vs ← string_values name df;
             onehot_block (ohe_handle_unknown (transformer_cat ct)) levels vs)
          (combine (cat_columns ct) (categories_ (transformer_cat ct)));
  Ok (nums ++ concat cats)%list.

(** The encoded matrix by rows. *)
Definition matrix_rows (n : nat) (cols : list (list float)) : list (list float) :=
  map (fun i => map (fun col => nth i col F64.zero) cols) (seq 0 n).

(** [OneHotEncoder.get_feature_names_out(input_features)]. *)
Definition get_feature_names_out (enc : OneHotEncoder) (input_features : list string)
  : list string :=
  concat (map (fun '(f, levels) => map (fun l => f ++ "_" ++ l) levels)
              (combine input_features (categories_ enc))).

Section Program.

(** The scikit-learn and numpy behind one run. *)
Context (B : Backend).

(** *** data.py *)

Definition REQUIRED_COLUMNS : list string :=
  [ "employee_id";
    "dept";
    "tenure_months";
    "last_promotion_months";
    "salary_band";
    "manager_span";
    "overtime_hours_month";
    "engagement_score";
    "absenteeism_days_month";
    "peer_turnover_rate";
    "performance_score";
    "internal_mobility" ].

Record SampleConfig : Type := {
  rows : Z;
  seed : Z
}.

Definition SampleConfig_default : SampleConfig := {| rows := 200; seed := 42 |}.

(** [load_csv(path)], lines 35-44. *)
Definition load_csv (path : string) : M ref :=
  df_ref ← read_csv path;
  df ← deref df_ref;
  let missing :=
    List.filter (fun col => negb (has_column col df)) REQUIRED_COLUMNS in
  match missing with
  | _ :: _ =>
      raise (ValueError ("Missing required columns: " ++ str_join ", " missing))
  | [] => mret df_ref
  end.

(** [generate_sample(config)], lines 47-86.  The eleven random columns
    come from the generator seeded with [config.seed], in the order
    they are drawn, which is the order of the frame's fields. *)
Definition generate_sample (config : option SampleConfig) : M ref :=
  let config := match config with
                | None => SampleConfig_default
                | Some c => c
                end in
  _ ← emit (EvGenerateSample (rows config));
  if (rows config <? 0)%Z
  then raise (ValueError "negative dimensions are not allowed")
  else
    let employee_id :=
      StrCol (map (fun idx => "E" ++ str_of_Z (1000 + Z.of_nat idx))
                  (seq 0 (Z.to_nat (rows config)))) in
    alloc (combine
             [ "employee_id"; "dept"; "tenure_months";
               "last_promotion_months"; "salary_band"; "manager_span";
               "overtime_hours_month"; "engagement_score";
               "absenteeism_days_month"; "peer_turnover_rate";
               "performance_score"; "internal_mobility" ]
             (employee_id :: rng_sample B (seed config) (rows config))).

(** *** model.py *)

Definition TARGET_COLUMN : string := "exit_flag".

(** A [Pipeline] as built: its steps' parameters. *)
Record PipelineSpec : Type := {
  spec_num_features : list string;
  spec_cat_features : list string;
  spec_handle_unknown : handle_unknown;
  spec_forest : RFParams
}.

(** A [Pipeline] once fitted: [named_steps["prep"]] and
    [named_steps["model"]], kept together. *)
Record Pipeline : Type := {
  named_steps_prep : ColumnTransformer;
  named_steps_model : Forest B
}.

Record ModelResult : Type := {
  model : Pipeline;
  auc : float;
  feature_importance : dict float
}.

(** [_build_pipeline(cat_features, num_features)], lines 29-42. *)
Definition _build_pipeline (cat_features num_features : list string)
  : PipelineSpec :=
  {| spec_num_features := num_features;
     spec_cat_features := cat_features;
     spec_handle_unknown := HU_ignore;
     spec_forest := {| n_estimators := 200; max_depth := 6;
                       random_state := 42; class_weight := "balanced" |} |}.

(** [ColumnTransformer.fit]: the scaler's statistics of each numeric
    column and the encoder's levels of each categorical column. *)
Definition ct_fit (spec : PipelineSpec) (x : DataFrame)
  : result ColumnTransformer :=
  stats ← result_map
           (fun name => xs ← numeric_values name x; Ok (scaler_stats B xs))
           (spec_num_features spec);
  levels ← result_map
            (fun name => vs ← string_values name x; Ok (sorted_unique vs))
            (spec_cat_features spec);
  Ok {| num_columns := spec_num_features spec;
        transformer_num := {| mean_ := map fst stats; scale_ := map snd stats |};
        cat_columns := spec_cat_features spec;
        transformer_cat := {| ohe_handle_unknown := spec_handle_unknown spec;
                              categories_ := levels |} |}.

(** [pipeline.fit(x, y)]. *)
Definition pipeline_fit (spec : PipelineSpec) (x : DataFrame) (y : list Z)
  : result Pipeline :=
  ct ← ct_fit spec x;
  cols ← ct_transform ct x;
  forest ← rf_fit B (spec_forest spec) (matrix_rows (nrows x) cols) y;
  Ok {| named_steps_prep := ct; named_steps_model := forest |}.

(** [pipeline.predict_proba(x)]: one row of class probabilities per
    record. *)
Definition pipeline_predict_proba (p : Pipeline) (x : DataFrame)
  : result (list (list float)) :=
  cols ← ct_transform (named_steps_prep p) x;
  Ok (map (rf_predict_proba B (named_steps_model p))
          (matrix_rows (nrows x) cols)).

(** [proba[:, 1]] on an array with one column per class. *)
Definition column_1 (n_classes : nat) (proba : list (list float))
  : result (list float) :=
  if (n_classes <=? 1)%nat
  then Raise (IndexError "index 1 is out of bounds for axis 1")
  else Ok (map (fun row => nth 1 row F64.zero) proba).

(** [_extract_feature_importance(pipeline, cat_features, num_features)],
    lines 79-90. *)
Definition _extract_feature_importance
  (pipeline : Pipeline) (cat_features num_features : list string)
  : dict float :=
  let model := named_steps_model pipeline in
  let prep := named_steps_prep pipeline in
  let cat_names := get_feature_names_out (transformer_cat prep) cat_features in
  let feature_names := (num_features ++ cat_names)%list in
  let importances := rf_feature_importances B model in
  let pairs := sorted_desc snd (combine feature_names importances) in
  dict_of_pairs (firstn 8 pairs).

(** [series.astype(int).values]: an int64 column is taken as it is; a
    column of another dtype goes through the library's cast. *)
Definition astype_int (c : column) : result (list Z) :=
  match c with
  | IntCol l => Ok l
  | _ => cast_int64 B c
  end.

(** [features = [col for col in REQUIRED_COLUMNS if col in df.columns]]. *)
Definition features_of (df : DataFrame) : list string :=
  List.filter (fun col => has_column col df) REQUIRED_COLUMNS.

(** [train_model(df)], lines 45-67.  [df[features].copy()] is a
    temporary that nothing else refers to; it is used as a value. *)
Definition train_model (df_ref : ref) : M ModelResult :=
  df ← deref df_ref;
  if negb (has_column TARGET_COLUMN df)
  then raise (ValueError "Training data must include exit_flag column.")
  else
    let features := features_of df in
    let cat_features := ["dept"; "salary_band"] in
    let num_features :=
      List.filter (fun col => negb (existsb (String.eqb col) cat_features)
                              && negb (String.eqb col "employee_id"))
                  features in
    x ← lift (select features df);
    y ← lift (c ← get_column TARGET_COLUMN df; astype_int c);
    let pipeline := _build_pipeline cat_features num_features in
    _ ← emit EvFit;
    pipeline ← lift (pipeline_fit pipeline x y);
    _ ← emit EvPredictProba;
    proba ← lift (p ← pipeline_predict_proba pipeline x;
                  column_1 (length (rf_classes B (named_steps_model pipeline))) p);
    auc ← lift (roc_auc_score B y proba);
    let feature_importance :=
      _extract_feature_importance pipeline cat_features num_features in
    mret {| model := pipeline; auc := auc;
            feature_importance := feature_importance |}.

(** [score(model, df)], lines 70-76. *)
Definition score (model : Pipeline) (df_ref : ref) : M (list float) :=
  df ← deref df_ref;
  let features := features_of df in
  x ← lift (select features df);
  _ ← emit EvPredictProba;
  lift (p ← pipeline_predict_proba model x;
        column_1 (length (rf_classes B (named_steps_model model))) p).

(** *** pipeline.py *)

(** [_infer_risk_band(score_value)], lines 15-20. *)
Definition _infer_risk_band (score_value : float) : string :=
  if F64.ge score_value (F64.dec 7 10) then "High"
  else if F64.ge score_value (F64.dec 4 10) then "Medium"
  else "Low".

(** [importances.get], on keys of [importances]. *)
Definition dict_weight (importances : dict float) (k : string) : float :=
  match dict_get k importances with
  | Some w => w
  | None => S754_nan
  end.

(** [_top_driver_summary(importances)], lines 23-27. *)
Definition _top_driver_summary (importances : dict float) : string :=
  match dict_keys importances with
  | [] => "insufficient data"
  | k :: keys =>
      let top := max_by (dict_weight importances) k keys in
      str_replace (str_replace top "cat__" "") "num__" ""
  end.

(** The four indicator series and their sum, lines 36-41. *)
Definition heuristic (df : DataFrame) : result (list Z) :=
  e ← (c ← get_column "engagement_score" df; series_lt c 60);
  o ← (c ← get_column "overtime_hours_month" df; series_gt c 12);
  a ← (c ← get_column "absenteeism_days_month" df; series_gt c 3);
  p ← (c ← get_column "last_promotion_months" df; series_gt c 36);
  Ok (series_add
        (series_add (series_add (bools_astype_int e) (bools_astype_int o))
                    (bools_astype_int a))
        (bools_astype_int p)).

(** [_prepare_training_data(df)], lines 30-44. *)
Definition _prepare_training_data (df_ref : ref) : M ref :=
  df ← deref df_ref;
  if has_column "exit_flag" df
  then mret df_ref
  else
    h ← lift (heuristic df);
    df_ref ← df_copy df_ref;
    _ ← df_setitem df_ref "exit_flag"
          (IntCol (bools_astype_int (series_ge h 2)));
    mret df_ref.

Definition output_columns : list string :=
  [ "employee_id";
    "dept";
    "tenure_months";
    "last_promotion_months";
    "engagement_score";
    "overtime_hours_month";
    "absenteeism_days_month";
    "performance_score";
    "peer_turnover_rate";
    "internal_mobility" ].

(** [output["risk_score"].apply(_infer_risk_band)]. *)
Definition apply_risk_band (c : column) : result (list string) :=
  match c with
  | FloatCol l => Ok (map _infer_risk_band l)
  | IntCol l => Ok (map (fun z => _infer_risk_band (F64.of_Z z)) l)
  | StrCol _ => Raise (TypeError "'>=' not supported between instances of 'str' and 'float'")
  end.

(** [run_pipeline(input_path, output_path, generate_sample_flag, rows)],
    lines 47-86.  [df[output_columns].copy()] is the new object
    [output]. *)
Definition run_pipeline
  (input_path : option string) (output_path : string)
  (generate_sample_flag : bool) (rows : Z) : M ModelResult :=
  df ← (if generate_sample_flag
        then generate_sample (Some {| rows := rows; seed := 42 |})
        else match input_path with
             | Some path => load_csv path
             | None => raise (ValueError "Provide --input or --generate-sample.")
             end);
  training_df ← _prepare_training_data df;
  result ← train_model training_df;
  risk_scores ← score (model result) df;
  frame ← deref df;
  selected ← lift (select output_columns frame);
  output ← alloc selected;
  _ ← emit (EvSelectCopy df output);
  _ ← df_setitem output "risk_score"
        (FloatCol (map (fun x => F64.round x 3) risk_scores));
  out ← deref output;
  bands ← lift (c ← get_column "risk_score" out; apply_risk_band c);
  _ ← df_setitem output "risk_band" (StrCol bands);
  out ← deref output;
  _ ← df_setitem output "top_driver"
        (StrCol (replicate (nrows out)
                           (_top_driver_summary (feature_importance result))));
  _ ← mkdir_parent output_path;
  _ ← to_csv output output_path;
  mret result.

End Program.

Arguments named_steps_prep {B} _.
Arguments named_steps_model {B} _.
Arguments model {B} _.
Arguments auc {B} _.
Arguments feature_importance {B} _.

(** *** Definitions used to state the properties *)

(** What [n] right shifts with round and sticky bits have computed of
    [m]: the quotient by [2^n], and where the remainder lies. *)
Definition shr_inv (m n : Z) (mrs : shr_record) : Prop :=
  0 <= shr_m mrs /\
  exists rem, m = shr_m mrs * 2 ^ n + rem /\ 0 <= rem < 2 ^ n /\
    match shr_r mrs, shr_s mrs with
    | false, false => rem = 0
    | false, true => 0 < rem /\ 2 * rem < 2 ^ n
    | true, false => 2 * rem = 2 ^ n
    | true, true => 2 ^ n < 2 * rem
    end.

(** The label of one record as the specification words it: a counter
    gets one for each of engagement score < 60, monthly overtime > 12,
    monthly absenteeism > 3 and months since promotion > 36; the label
    is 1 when the counter reaches 2, else 0. *)
Definition synthesize_label
  (engagement overtime absenteeism months_since_promotion : num) : Z :=
  let counter :=
    (if num_lt engagement 60 then 1 else 0)
    + (if num_gt overtime 12 then 1 else 0)
    + (if num_gt absenteeism 3 then 1 else 0)
    + (if num_gt months_since_promotion 36 then 1 else 0) in
  if 2 <=? counter then 1 else 0.

(** A numeric column of a frame, by cells. *)
Definition numeric_column (name : string) (df : DataFrame) (cells : list num) : Prop :=
  exists c, get_column name df = Ok c /\ col_nums c = Some cells.

(** An occurrence of [a] is before one of [b]. *)
Definition before {A} (a b : A) (l : list A) : Prop :=
  exists i j, (i < j)%nat /\ l !! i = Some a /\ l !! j = Some b.

(** Each item's key is at least the next one's. *)
Definition non_increasing {A} (key : A -> float) (l : list A) : Prop :=
  forall i a b,
    l !! i = Some a -> l !! S i = Some b -> F64.ge (key a) (key b) = true.

(** The locals [cat_features] and [num_features] of [train_model], as
    functions of its frame. *)
Definition train_cat_features : list string := ["dept"; "salary_band"].

Definition train_num_features (df : DataFrame) : list string :=
  List.filter (fun col => negb (existsb (String.eqb col) train_cat_features)
                          && negb (String.eqb col "employee_id"))
              (features_of df).

(** [zip(feature_names, importances)] of [_extract_feature_importance]:
    the encoded columns in their order, numeric fields and then the
    indicator columns, each with its weight. *)
Definition encoded_importances (B : Backend) (pipeline : Pipeline B)
    (cat_features num_features : list string) : list (string * float) :=
  combine
    (num_features
       ++ get_feature_names_out (transformer_cat (named_steps_prep pipeline))
            cat_features)%list
    (rf_feature_importances B (named_steps_model pipeline)).

(** [s] with every ["cat__"] and then every ["num__"] removed. *)
Definition strip_prefixes (s : string) : string :=
  str_replace (str_replace s "cat__" "") "num__" "".

(** Lines 57-62 of [run_pipeline]: where the input frame comes from. *)
Definition load_input (B : Backend) (input_path : option string)
    (generate_sample_flag : bool) (rows : Z) : M ref :=
  if generate_sample_flag
  then generate_sample B (Some (Build_SampleConfig rows 42))
  else match input_path with
       | Some path => load_csv path
       | None => raise (ValueError "Provide --input or --generate-sample.")
       end.

(** The frame written by a run, from the selected input columns, the raw
    scores and the importance table (lines 69-83 of [run_pipeline]). *)
Definition output_frame (selected : DataFrame) (raw : list float)
    (importances : dict float) : DataFrame :=
  let rounded := map (fun x => F64.round x 3) raw in
  let scored := set_column "risk_score" (FloatCol rounded) selected in
  let banded :=
    set_column "risk_band" (StrCol (map _infer_risk_band rounded)) scored in
  set_column "top_driver"
    (StrCol (replicate (nrows banded) (_top_driver_summary importances)))
    banded.

(** [old] occurs in [s]. *)
Definition occurs (old s : string) : Prop :=
  exists pre post, s = pre ++ old ++ post.

(** The local [missing] of [load_csv], as a function of the frame read. *)
Definition missing_columns (df : DataFrame) : list string :=
  List.filter (fun col => negb (has_column col df)) REQUIRED_COLUMNS.

(** Code that leaves the objects below [n] as they are, whatever its
    outcome. *)
Definition keeps_below {A} (n : nat) (m : M A) : Prop :=
  forall w x w',
    (n <= length (heap w))%nat -> m w = (x, w') ->
    (n <= length (heap w'))%nat /\
    forall r, (r < n)%nat -> heap w' !! r = heap w !! r.

(** Code that changes no object and creates none, whatever its outcome. *)
Definition keeps_heap {A} (m : M A) : Prop :=
  forall w x w', m w = (x, w') -> heap w' = heap w.

(** The bands in their order: Low, Medium, High. *)
Definition band_rank (band : string) : nat :=
  if String.eqb band "High" then 2
  else if String.eqb band "Medium" then 1
  else 0.

(** The four signal columns, in the order [_prepare_training_data] reads
    them. *)
Definition signal_columns : list string :=
  [ "engagement_score"; "overtime_hours_month"; "absenteeism_days_month";
    "last_promotion_months" ].





(** Two frames that hold the same training data: the same column for
    every required field other than the employee id and for the label,
    and employee id columns, where there are any, of the same length.
    Other columns and the employee ids themselves are free. *)
Definition same_training_data (df1 df2 : DataFrame) : Prop :=
  (forall c, In c REQUIRED_COLUMNS -> c <> "employee_id" ->
             get_column c df1 = get_column c df2) /\
  get_column "exit_flag" df1 = get_column "exit_flag" df2 /\
  match get_column "employee_id" df1, get_column "employee_id" df2 with
  | Ok c1, Ok c2 => col_length c1 = col_length c2
  | Raise _, Raise _ => True
  | _, _ => False
  end.

(** *** A small table and a table-driven estimator, for examples *)

Module Demo.

(** Three employees.  The second one's department is a level whose name
    contains the text ["num__"]. *)
Definition table : DataFrame :=
  [ ("employee_id", StrCol ["E1"; "E2"; "E3"]);
    ("dept", StrCol ["HR"; "num__ops"; "HR"]);
    ("tenure_months", IntCol [12; 40; 7]);
    ("last_promotion_months", IntCol [10; 40; 5]);
    ("salary_band", StrCol ["A"; "B"; "A"]);
    ("manager_span", IntCol [5; 8; 3]);
    ("overtime_hours_month",
       FloatCol [F64.of_Z 15; F64.of_Z 5; F64.dec 205 10]);
    ("engagement_score",
       FloatCol [F64.of_Z 50; F64.of_Z 80; F64.dec 555 10]);
    ("absenteeism_days_month",
       FloatCol [F64.of_Z 1; F64.of_Z 1; F64.of_Z 4]);
    ("peer_turnover_rate",
       FloatCol [F64.dec 1 10; F64.dec 2 10; F64.dec 3 10]);
    ("performance_score",
       FloatCol [F64.of_Z 70; F64.of_Z 80; F64.of_Z 60]);
    ("internal_mobility", IntCol [0; 1; 0]) ].

(** The same table without its engagement and performance scores. *)
Definition table_missing : DataFrame :=
  List.filter (fun nc => negb (String.eqb (fst nc) "engagement_score")
                         && negb (String.eqb (fst nc) "performance_score"))
              table.

(** The table with a recorded outcome. *)
Definition table_labelled : DataFrame :=
  (table ++ [("exit_flag", IntCol [0; 1; 0])])%list.

(** The labelled table with other employee ids and one more column. *)
Definition table_renamed : DataFrame :=
  set_column "employee_id" (StrCol ["X7"; "X8"; "X9"])
    (table_labelled ++ [("notes", StrCol ["a"; "b"; "c"])])%list.

(** Records to score whose department and salary band were not in
    [table]. *)
Definition table_unseen : DataFrame :=
  set_column "dept" (StrCol ["Legal"; "HR"; "Legal"])
    (set_column "salary_band" (StrCol ["Z"; "Z"; "A"]) table).

(** The importances of the thirteen encoded columns of [table], in
    hundredths: nine numeric fields, the two departments, the two salary
    bands. *)
Definition importances : list float :=
  map (fun k => F64.dec k 100) [5; 5; 2; 10; 20; 3; 5; 5; 0; 10; 25; 5; 5].

(** Eleven columns of [n] equal draws, in the order of the sample's
    fields after the employee id. *)
Definition sample_columns (n : Z) : list column :=
  let rows := Z.to_nat n in
  [ StrCol (replicate rows "HR"); IntCol (replicate rows 24);
    IntCol (replicate rows 12); StrCol (replicate rows "B");
    IntCol (replicate rows 6); FloatCol (replicate rows (F64.dec 85 10));
    FloatCol (replicate rows (F64.dec 721 10));
    FloatCol (replicate rows (F64.dec 15 10));
    FloatCol (replicate rows (F64.dec 125 1000));
    FloatCol (replicate rows (F64.dec 743 10)); IntCol (replicate rows 0) ].

(** A cast to int64 for the examples: finite floats are truncated, NaN
    and infinities raise, strings are not converted. *)
Definition cast (c : column) : result (list Z) :=
  match c with
  | IntCol l => Ok l
  | FloatCol l =>
      result_map (fun x => match F64.trunc x with
                           | Some z => Ok z
                           | None => Raise (ValueError "Cannot convert non-finite values (NA or inf) to integer")
                           end) l
  | StrCol _ => Raise (ValueError "invalid literal for int()")
  end.

(** A forest that is a table: the given importances, and the given
    probability of class 1 for every record. *)
Definition backend (imps : list float) (p : float) : Backend :=
  {| Forest := unit;
     rf_fit := fun _ x _ =>
       match x with
       | [] => Raise (ValueError "Found array with 0 sample(s)")
       | _ => Ok tt
       end;
     rf_classes := fun _ => [0; 1];
     rf_predict_proba := fun _ _ => [F64.sub F64.one p; p];
     rf_feature_importances := fun _ => imps;
     scaler_stats := fun _ => (F64.zero, F64.one);
     roc_auc_score := fun _ _ => Ok (F64.dec 5 10);
     rng_sample := fun _ n => sample_columns n;
     cast_int64 := cast |}.

(** One with a probability just below 0.7. *)
Definition B : Backend := backend importances (F64.dec 6996 10000).

(** The area under the ROC curve by counting.  Over the pairs of a
    record of class 1 and a record of another class, a pair counts 1 when
    the first has the higher score and 1/2 when the two scores are equal;
    the area is the mean count.  It is not defined when one of the two
    kinds is missing. *)
Definition auc_by_pairs (y : list Z) (s : list float) : result float :=
  let rows := combine y s in
  let pos := List.filter (fun r => fst r =? 1) rows in
  let neg := List.filter (fun r => negb (fst r =? 1)) rows in
  match pos, neg with
  | [], _ | _, [] =>
      Raise (ValueError "Only one class present in y_true. ROC AUC score is not defined in that case.")
  | _, _ =>
      let count p n :=
        if F64.gt (snd p) (snd n) then 2
        else if F64.eqb (snd p) (snd n) then 1 else 0 in
      let twice :=
        fold_right (fun p acc =>
                      fold_right (fun n acc' => count p n + acc') acc neg)
                   0 pos in
      Ok (F64.div (F64.of_Z twice)
                  (F64.of_Z (2 * Z.of_nat (length pos) * Z.of_nat (length neg))))
  end.

(** A forest that looks at the record: the probability of class 1 is 0.9
    when the first encoded column, the tenure, is above 20 and 0.2
    otherwise.  The AUC is counted. *)
Definition B_tenure : Backend :=
  {| Forest := unit;
     rf_fit := fun _ x _ =>
       match x with
       | [] => Raise (ValueError "Found array with 0 sample(s)")
       | _ => Ok tt
       end;
     rf_classes := fun _ => [0; 1];
     rf_predict_proba := fun _ row =>
       let p := if F64.gt (nth 0 row F64.zero) (F64.of_Z 20)
                then F64.dec 9 10 else F64.dec 2 10 in
       [F64.sub F64.one p; p];
     rf_feature_importances := fun _ => importances;
     scaler_stats := fun _ => (F64.zero, F64.one);
     roc_auc_score := auc_by_pairs;
     rng_sample := fun _ n => sample_columns n;
     cast_int64 := cast |}.

Definition cat_features : list string := ["dept"; "salary_band"].

Definition num_features : list string :=
  [ "tenure_months"; "last_promotion_months"; "manager_span";
    "overtime_hours_month"; "engagement_score"; "absenteeism_days_month";
    "peer_turnover_rate"; "performance_score"; "internal_mobility" ].

(** The column transformer fitted on [table]. *)
Definition fitted : ColumnTransformer :=
  {| num_columns := num_features;
     transformer_num := {| mean_ := replicate 9 F64.zero;
                           scale_ := replicate 9 F64.one |};
     cat_columns := cat_features;
     transformer_cat := {| ohe_handle_unknown := HU_ignore;
                           categories_ := [["HR"; "num__ops"]; ["A"; "B"]] |} |}.

(** The pipeline fitted on [table]. *)
Definition pipeline : Pipeline B :=
  {| named_steps_prep := fitted; named_steps_model := (tt : Forest B) |}.

(** A world with [table] as object 0. *)
Definition world : World :=
  {| heap := [table]; files := []; written := []; log := [] |}.

(** A world with [table_labelled] as object 0. *)
Definition world_labelled : World :=
  {| heap := [table_labelled]; files := []; written := []; log := [] |}.

(** Whether a computation returned. *)
Definition succeeds {A} (r : result A * World) : bool :=
  match fst r with
  | Ok _ => true
  | Raise _ => false
  end.

(** A world with no objects and three files. *)
Definition disk : World :=
  {| heap := [];
     files := [("in.csv", table); ("bad.csv", table_missing);
               ("labelled.csv", table_labelled)];
     written := []; log := [] |}.

End Demo.

(** ** Part II.  Properties *)

(** *** Rounding in binary64 *)


Lemma shr_inv_init (m : Z) :
  0 <= m -> shr_inv m 0 (Build_shr_record m false false).
Proof.
  intros Hm. split; [exact Hm|]. exists 0. simpl. lia.
Qed.

Lemma shr_inv_step (m n : Z) (mrs : shr_record) :
  0 <= n -> shr_inv m n mrs -> shr_inv m (n + 1) (shr_1 mrs).
Proof.
  intros Hn [Hpos (rem & Hm & Hrem & Hloc)]. unfold shr_inv.
  rewrite Z.pow_add_r, Z.pow_1_r by lia.
  assert (HP : 0 < 2 ^ n) by (apply Z.pow_pos_nonneg; lia).
  set (P := 2 ^ n) in *. clearbody P.
  destruct mrs as [m' r s]; simpl in *.
  destruct m' as [|[p|p|]|p]; simpl; try lia.
  - split; [lia|]. exists rem. destruct r, s; simpl in *; lia.
  - split; [lia|]. exists (rem + P).
    rewrite Pos2Z.inj_xI in Hm. destruct r, s; simpl in *; lia.
  - split; [lia|]. exists rem.
    rewrite Pos2Z.inj_xO in Hm. destruct r, s; simpl in *; lia.
  - split; [lia|]. exists (rem + P). destruct r, s; simpl in *; lia.
Qed.

Lemma shr_inv_iter (p : positive) :
  forall m n mrs, 0 <= n -> shr_inv m n mrs ->
    shr_inv m (n + Zpos p) (SpecFloat.iter_pos shr_1 p mrs).
Proof.
  induction p as [p IH|p IH|]; intros m n mrs Hn H; simpl.
  - replace (n + Zpos p~1) with (((n + 1) + Zpos p) + Zpos p) by lia.
    apply IH; [lia|]. apply IH; [lia|]. apply shr_inv_step; assumption.
  - replace (n + Zpos p~0) with ((n + Zpos p) + Zpos p) by lia.
    apply IH; [lia|]. apply IH; assumption.
  - apply shr_inv_step; assumption.
Qed.

(** Round to nearest even of [m / 2^n], bracketed by an even target. *)
Lemma round_nearest_even_bracket (m n R1 R2 : Z) (mrs : shr_record) :
  0 < n -> shr_inv m n mrs ->
  Z.even R1 = true -> Z.even R2 = true ->
  (2 * R1 - 1) * 2 ^ n <= 2 * m <= (2 * R2 + 1) * 2 ^ n ->
  R1 <= round_nearest_even (shr_m mrs) (loc_of_shr_record mrs) <= R2.
Proof.
  intros Hn [Hpos (rem & Hm & Hrem & Hloc)] E1 E2 Hb.
  assert (HP : 0 < 2 ^ (n - 1)) by (apply Z.pow_pos_nonneg; lia).
  replace (2 ^ n) with (2 * 2 ^ (n - 1)) in *
    by (rewrite <- Z.pow_succ_r by lia; f_equal; lia).
  set (P := 2 ^ (n - 1)) in *. clearbody P.
  destruct mrs as [m' r s]; simpl in *.
  apply Zeven_bool_iff in E1. apply Zeven_bool_iff in E2.
  apply Zeven_ex in E1. destruct E1 as [k1 ->].
  apply Zeven_ex in E2. destruct E2 as [k2 ->].
  destruct r, s; simpl in *.
  - nia.
  - destruct (Z.even m') eqn:Em.
    + apply Zeven_bool_iff, Zeven_ex in Em. destruct Em as [k ->]. nia.
    + assert (Om : Z.odd m' = true) by (rewrite <- Z.negb_even, Em; reflexivity).
      apply Zodd_bool_iff, Zodd_ex in Om. destruct Om as [k ->]. nia.
  - nia.
  - nia.
Qed.


Lemma digits2_pos_size (p : positive) : digits2_pos p = Pos.size p.
Proof. induction p; simpl; congruence. Qed.

Lemma Zdigits2_bounds (q : positive) (d : Z) :
  2 ^ (d - 1) <= Zpos q < 2 ^ d -> 0 < d -> Zdigits2 (Zpos q) = d.
Proof.
  intros [Hlo Hhi] Hd. simpl. rewrite digits2_pos_size.
  pose proof (Pos.size_gt q) as Hgt. pose proof (Pos.size_le q) as Hle.
  apply Pos2Z.pos_lt_pos in Hgt. apply Pos2Z.pos_le_pos in Hle.
  rewrite Pos2Z.inj_pow in Hgt, Hle. rewrite (Pos2Z.inj_xO q) in Hle.
  set (s := Zpos (Pos.size q)) in *.
  assert (Hs : 0 < s) by (unfold s; lia).
  destruct (Z.lt_trichotomy s d) as [L|[E|G]]; [exfalso| exact E | exfalso].
  - assert (2 ^ s <= 2 ^ (d - 1)) by (apply Z.pow_le_mono_r; lia). lia.
  - assert (2 ^ d <= 2 ^ (s - 1)) by (apply Z.pow_le_mono_r; lia).
    replace (2 ^ s) with (2 * 2 ^ (s - 1)) in Hle
      by (rewrite <- Z.pow_succ_r by lia; f_equal; lia).
    lia.
Qed.

(** Rounding a positive [q * 2^e] whose mantissa has [53 + n] bits. *)
Lemma binary_round_aux_bracket (q : positive) (e n R1 R2 : Z) :
  0 < n ->
  2 ^ (52 + n) <= Zpos q < 2 ^ (53 + n) ->
  -1074 <= e + n <= 971 ->
  2 ^ 52 <= R1 -> R2 < 2 ^ 53 ->
  Z.even R1 = true -> Z.even R2 = true ->
  (2 * R1 - 1) * 2 ^ n <= 2 * Zpos q <= (2 * R2 + 1) * 2 ^ n ->
  exists r, binary_round_aux F64.prec F64.emax false (Zpos q) e loc_Exact
            = S754_finite false r (e + n) /\ R1 <= Zpos r <= R2.
Proof.
  intros Hn Hq He H1 H2 E1 E2 Hb.
  unfold binary_round_aux.
  assert (Hd : Zdigits2 (Zpos q) = 53 + n).
  { apply Zdigits2_bounds; [|lia]. replace (53 + n - 1) with (52 + n) by lia. exact Hq. }
  assert (Hsh : fexp F64.prec F64.emax (Zdigits2 (Zpos q) + e) - e = n).
  { rewrite Hd. unfold fexp, emin, F64.prec, F64.emax. lia. }
  unfold shr_fexp at 1. rewrite Hsh. cbn [shr_record_of_loc].
  unfold shr at 1. destruct n as [|pn|pn]; try lia.
  pose proof (shr_inv_iter pn (Zpos q) 0 _ ltac:(lia)
                (shr_inv_init (Zpos q) ltac:(lia))) as Hinv.
  rewrite Z.add_0_l in Hinv.
  set (mrs := SpecFloat.iter_pos shr_1 pn _) in *.
  pose proof (round_nearest_even_bracket _ _ R1 R2 mrs Hn Hinv E1 E2 Hb) as Hr.
  destruct (round_nearest_even (shr_m mrs) (loc_of_shr_record mrs))
    as [|r|r]; try lia.
  assert (Hd' : Zdigits2 (Zpos r) = 53).
  { apply Zdigits2_bounds; lia. }
  unfold shr_fexp. rewrite Hd'.
  replace (fexp F64.prec F64.emax (53 + (e + Zpos pn)) - (e + Zpos pn)) with 0
    by (unfold fexp, emin, F64.prec, F64.emax; lia).
  cbn [shr_record_of_loc shr shr_m].
  exists r. split; [|lia].
  replace (e + Zpos pn <=? F64.emax - F64.prec) with true; [reflexivity|].
  symmetry. apply Z.leb_le. unfold F64.emax, F64.prec. lia.
Qed.


Lemma rint_bracket (r : positive) (k : positive) (N : Z) :
  Z.even N = true ->
  (2 * N - 1) * 2 ^ (Zpos k) <= 2 * Zpos r <= (2 * N + 1) * 2 ^ (Zpos k) ->
  F64.rint (S754_finite false r (Zneg k)) = F64.of_Z N.
Proof.
  intros EN Hb. unfold F64.rint, shr. cbn [fst cond_Zopp].
  pose proof (shr_inv_iter k (Zpos r) 0 _ ltac:(lia)
                (shr_inv_init (Zpos r) ltac:(lia))) as Hinv.
  rewrite Z.add_0_l in Hinv.
  pose proof (round_nearest_even_bracket (Zpos r) (Zpos k) N N _ ltac:(lia) Hinv EN EN Hb) as Hr.
  replace (round_nearest_even _ _) with N by lia.
  reflexivity.
Qed.

Lemma round3_bracket (m : positive) (e N m1 m2 : Z) (k : positive) :
  let M := 8796093022208000 in
  e + 10 = Zneg k ->
  Z.even N = true -> 0 < N ->
  m1 <= Zpos m <= m2 ->
  2 ^ 105 <= m1 * M -> m2 * M < 2 ^ 106 ->
  2 ^ 52 <= (2 * N - 1) * 2 ^ (Zpos k - 1) ->
  N * 2 ^ (Zpos k) < 2 ^ 53 ->
  -1074 <= e + 10 ->
  1 < Zpos k ->
  (2 * ((2 * N - 1) * 2 ^ (Zpos k - 1)) - 1) * 2 ^ 53 <= 2 * (m1 * M) ->
  2 * (m2 * M) <= (2 * (N * 2 ^ (Zpos k)) + 1) * 2 ^ 53 ->
  F64.round (S754_finite false m e) 3 = F64.dec N 1000.
Proof.
  intros M He EN HN Hm Hlo Hhi HR1 HR2 Hemin Hk Hb1 Hb2.
  unfold F64.round, F64.dec, F64.mul, F64.div.
  change (F64.of_Z (10 ^ 3)) with (S754_finite false 8796093022208000 (-43)).
  cbn [SFmul xorb].
  replace (2 ^ (Zpos k)) with (2 * 2 ^ (Zpos k - 1)) in *
    by (rewrite <- Z.pow_succ_r by lia; f_equal; lia).
  assert (HP : 0 < 2 ^ (Zpos k - 1)) by (apply Z.pow_pos_nonneg; lia).
  set (P := 2 ^ (Zpos k - 1)) in *.
  assert (EP : Z.even P = true).
  { unfold P. replace (Zpos k - 1) with (Z.succ (Zpos k - 2)) by lia.
    rewrite Z.pow_succ_r by lia. rewrite Z.even_mul. reflexivity. }
  destruct (binary_round_aux_bracket (m * 8796093022208000) (e + -43) 53
              ((2 * N - 1) * P) (N * (2 * P)))
    as (r & -> & Hr).
  - lia.
  - rewrite Pos2Z.inj_mul. fold M. change (52 + 53) with 105. change (53 + 53) with 106. nia.
  - lia.
  - exact HR1.
  - exact HR2.
  - rewrite Z.even_mul, EP. apply orb_true_r.
  - rewrite !Z.even_mul, EP, !orb_true_r. reflexivity.
  - rewrite Pos2Z.inj_mul. fold M. nia.
  - replace (e + -43 + 53) with (Zneg k) by lia.
    rewrite (rint_bracket r k N EN).
    + reflexivity.
    + replace (2 ^ (Zpos k)) with (2 * P)
        by (unfold P; rewrite <- Z.pow_succ_r by lia; f_equal; lia).
      lia.
Qed.

Lemma between_finite (p : float) (ml mh : positive) (e0 : Z) :
  SFleb (S754_finite false ml e0) p = true ->
  SFltb p (S754_finite false mh e0) = true ->
  exists m, p = S754_finite false m e0 /\ (ml <= m < mh)%positive.
Proof.
  unfold SFleb, SFltb.
  destruct p as [s|s| |s m e]; cbn -[Z.compare Pos.compare_cont];
    try discriminate.
  - destruct s; discriminate.
  - destruct s; [discriminate|].
    destruct (Z.compare_spec e0 e) as [E|E|E];
      destruct (Z.compare_spec e e0) as [E'|E'|E']; try lia; try discriminate.
    subst e. intros H1 H2. exists m. split; [reflexivity|].
    change (Pos.compare_cont Eq ml m) with (Pos.compare ml m) in H1.
    change (Pos.compare_cont Eq m mh) with (Pos.compare m mh) in H2.
    split.
    + destruct (Pos.compare_spec ml m); [lia|lia|discriminate].
    + destruct (Pos.compare_spec m mh); [discriminate|lia|discriminate].
Qed.

Ltac closed_Z := vm_compute; first [exact eq_refl | intro; discriminate].

Lemma round3_upper_band (p : float) :
  F64.ge p (F64.dec 6995 10000) = true -> F64.lt p (F64.dec 7 10) = true ->
  F64.round p 3 = F64.dec 7 10.
Proof.
  intros H1 H2.
  destruct (between_finite p 6300535878691324 6305039478318694 (-53) H1 H2)
    as (m & -> & Hm).
  rewrite (round3_bracket m (-53) 700 6300535878691324 6305039478318693 43);
    [closed_Z | closed_Z | closed_Z | closed_Z | | closed_Z ..].
  destruct Hm as [Hl Hh]. split.
  - apply Pos2Z.pos_le_pos. exact Hl.
  - apply Z.lt_succ_r. apply Pos2Z.pos_lt_pos in Hh. exact Hh.
Qed.

Lemma round3_middle_band (p : float) :
  F64.ge p (F64.dec 3995 10000) = true -> F64.lt p (F64.dec 4 10) = true ->
  F64.round p 3 = F64.dec 4 10.
Proof.
  intros H1 H2.
  destruct (between_finite p 7196752204538053 7205759403792794 (-54) H1 H2)
    as (m & -> & Hm).
  rewrite (round3_bracket m (-54) 400 7196752204538053 7205759403792793 44);
    [closed_Z | closed_Z | closed_Z | closed_Z | | closed_Z ..].
  destruct Hm as [Hl Hh]. split.
  - apply Pos2Z.pos_le_pos. exact Hl.
  - apply Z.lt_succ_r. apply Pos2Z.pos_lt_pos in Hh. exact Hh.
Qed.

(** *** The order on binary64 *)

Lemma SFcompare_antisym (x y : float) :
  SFcompare y x = option_map CompOpp (SFcompare x y).
Proof.
  destruct x as [sx|sx| |sx mx ex], y as [sy|sy| |sy my ey]; simpl;
    try reflexivity;
    try (destruct sx; reflexivity);
    try (destruct sy; reflexivity);
    try (destruct sx, sy; reflexivity).
  destruct sx, sy; simpl; try reflexivity;
    rewrite (Z.compare_antisym ex ey);
    destruct (ex ?= ey)%Z; simpl; try reflexivity;
    pose proof (Pos.compare_cont_antisym mx my Eq) as A; simpl in A;
    rewrite <- A; destruct (Pos.compare_cont Eq mx my); reflexivity.
Qed.

Lemma SFcompare_number (x y : float) :
  F64.is_nan x = false -> F64.is_nan y = false ->
  exists c, SFcompare x y = Some c.
Proof.
  destruct x as [sx|sx| |sx mx ex], y as [sy|sy| |sy my ey];
    simpl; intros Hx Hy; try discriminate; eauto.
Qed.

(** On numbers, [not (x >= c)] is [x < c]. *)
Lemma ge_false_lt (x c : float) :
  F64.is_nan x = false -> F64.is_nan c = false ->
  F64.ge x c = false -> F64.lt x c = true.
Proof.
  intros Hx Hc. unfold F64.ge, F64.lt, SFleb, SFltb.
  rewrite (SFcompare_antisym x c).
  destruct (SFcompare_number x c Hx Hc) as [k ->].
  destruct k; simpl; congruence.
Qed.

Lemma lt_ge_false (x c : float) :
  F64.lt x c = true -> F64.ge x c = false.
Proof.
  unfold F64.ge, F64.lt, SFleb, SFltb.
  rewrite (SFcompare_antisym x c).
  destruct (SFcompare x c) as [[ | | ]|]; simpl; congruence.
Qed.

(** On numbers, [not (x < y)] is [x >= y]. *)
Lemma lt_false_ge (x y : float) :
  F64.is_nan x = false -> F64.is_nan y = false ->
  F64.lt x y = false -> F64.ge x y = true.
Proof.
  intros Hx Hy. unfold F64.ge, F64.lt, SFleb, SFltb.
  rewrite (SFcompare_antisym x y).
  destruct (SFcompare_number x y Hx Hy) as [k ->].
  destruct k; simpl; congruence.
Qed.

Lemma lt_ge (x y : float) : F64.lt x y = true -> F64.ge y x = true.
Proof.
  unfold F64.ge, F64.lt, SFleb, SFltb.
  destruct (SFcompare x y) as [[ | | ]|]; simpl; congruence.
Qed.

(** A float that compares with a number is a number. *)
Lemma ge_number (x c : float) : F64.ge x c = true -> F64.is_nan x = false.
Proof.
  unfold F64.ge, SFleb. destruct x, c; simpl; congruence.
Qed.

(** Floats that compare equal are the same value, or both zeros. *)
Lemma SFcompare_Eq (x y : float) :
  SFcompare x y = Some Eq ->
  x = y \/ (exists s t, x = S754_zero s /\ y = S754_zero t).
Proof.
  destruct x as [sx|sx| |sx mx ex], y as [sy|sy| |sy my ey];
    cbn -[Z.compare Pos.compare_cont]; try discriminate;
    try (destruct sx; discriminate); try (destruct sy; discriminate).
  - eauto.
  - destruct sx, sy; try discriminate; auto.
  - destruct sx, sy; try discriminate;
      destruct (Z.compare_spec ex ey) as [E|E|E]; try discriminate; subst;
      change (Pos.compare_cont Eq mx my) with (Pos.compare mx my);
      destruct (Pos.compare_spec mx my) as [E|E|E]; try discriminate;
      subst; auto.
Qed.

Lemma SFcompare_refl (w : float) :
  SFcompare w w = None \/ SFcompare w w = Some Eq.
Proof.
  destruct w as [s|s| |s m e]; cbn -[Z.compare Pos.compare_cont]; auto.
  - destruct s; auto.
  - rewrite Z.compare_refl.
    change (Pos.compare_cont Eq m m) with (Pos.compare m m).
    rewrite Pos.compare_refl. destruct s; auto.
Qed.

(** Two floats equal to a third are not below one another. *)
Lemma eqb_eqb_lt (a b w : float) :
  F64.eqb a w = true -> F64.eqb b w = true -> F64.lt a b = false.
Proof.
  unfold F64.eqb, SFeqb, F64.lt, SFltb.
  destruct (SFcompare a w) as [[ | | ]|] eqn:Ea; try discriminate.
  destruct (SFcompare b w) as [[ | | ]|] eqn:Eb; try discriminate.
  intros _ _.
  apply SFcompare_Eq in Ea, Eb.
  destruct Ea as [->|(s & t & -> & ->)].
  - destruct Eb as [->|(s & t & -> & ->)].
    + destruct (SFcompare_refl w) as [-> | ->]; reflexivity.
    + reflexivity.
  - destruct Eb as [->|(s' & t' & -> & _)]; reflexivity.
Qed.
(** [<=] on floats is transitive. *)
Lemma SFleb_trans (x y z : float) :
  SFleb x y = true -> SFleb y z = true -> SFleb x z = true.
Proof.
  unfold SFleb.
  destruct x as [sx|sx| |sx mx ex], y as [sy|sy| |sy my ey],
           z as [sz|sz| |sz mz ez];
    cbn -[Z.compare Pos.compare_cont]; try discriminate; try reflexivity;
    try (destruct sx; try discriminate; try reflexivity;
         destruct sy; try discriminate; try reflexivity;
         destruct sz; try discriminate; reflexivity);
    try (destruct sx, sy; try discriminate; try reflexivity;
         destruct sz; try discriminate; reflexivity);
    try (destruct sx, sz; try discriminate; try reflexivity;
         destruct sy; try discriminate; reflexivity);
    try (destruct sy, sz; try discriminate; try reflexivity;
         destruct sx; try discriminate; reflexivity).
  all: destruct sx, sy, sz; try discriminate; try reflexivity.
  all: change (Pos.compare_cont Eq mx my) with (Pos.compare mx my);
       change (Pos.compare_cont Eq my mz) with (Pos.compare my mz);
       change (Pos.compare_cont Eq mx mz) with (Pos.compare mx mz).
  all: destruct (Z.compare_spec ex ey); destruct (Z.compare_spec ey ez);
       destruct (Z.compare_spec ex ez); try discriminate; try reflexivity;
       try (exfalso; lia); subst.
  all: destruct (Pos.compare_spec mx my); destruct (Pos.compare_spec my mz);
       destruct (Pos.compare_spec mx mz); try discriminate; try reflexivity;
       try (exfalso; lia).
Qed.

Lemma ge_trans (x y z : float) :
  F64.ge x y = true -> F64.ge y z = true -> F64.ge x z = true.
Proof. unfold F64.ge. intros H1 H2. exact (SFleb_trans z y x H2 H1). Qed.

Lemma ge_refl (x : float) : F64.is_nan x = false -> F64.ge x x = true.
Proof.
  intros Hx. unfold F64.ge, SFleb.
  destruct (SFcompare_refl x) as [E | E]; rewrite E; [|reflexivity].
  destruct (SFcompare_number x x Hx Hx) as [c Hc]. congruence.
Qed.

(** When [x >= y], [y] is not greater than [x]. *)
Lemma ge_gt_false (x y : float) : F64.ge x y = true -> F64.gt y x = false.
Proof.
  unfold F64.ge, F64.gt, SFleb, SFltb.
  rewrite (SFcompare_antisym y x).
  destruct (SFcompare y x) as [[ | | ]|]; simpl; congruence.
Qed.

Lemma eqb_lt_false (a b : float) : F64.eqb a b = true -> F64.lt b a = false.
Proof.
  unfold F64.eqb, F64.lt, SFeqb, SFltb.
  rewrite (SFcompare_antisym a b).
  destruct (SFcompare a b) as [[ | | ]|]; simpl; congruence.
Qed.

(** *** Running monadic code *)

Lemma result_bind_ok {A B} (r : result A) (f : A -> result B) (b : B) :
  (r ≫= f) = Ok b -> exists a, r = Ok a /\ f a = Ok b.
Proof. destruct r as [a|e]; simpl; [eauto | discriminate]. Qed.

Lemma bind_run {A B} (m : M A) (f : A -> M B) (w : World) :
  (m ≫= f) w = match m w with
               | (Ok a, w') => f a w'
               | (Raise e, w') => (Raise e, w')
               end.
Proof. reflexivity. Qed.

Lemma bind_ok {A B} (m : M A) (f : A -> M B) w b w2 :
  (m ≫= f) w = (Ok b, w2) ->
  exists a w1, m w = (Ok a, w1) /\ f a w1 = (Ok b, w2).
Proof.
  rewrite bind_run. destruct (m w) as [[a|e] w1]; [eauto | discriminate].
Qed.

Lemma bind_step {A B} (m : M A) (f : A -> M B) w a w1 :
  m w = (Ok a, w1) -> (m ≫= f) w = f a w1.
Proof. intros H. rewrite bind_run, H. reflexivity. Qed.

Lemma bind_raise {A B} (m : M A) (f : A -> M B) w e w1 :
  m w = (Raise e, w1) -> (m ≫= f) w = (Raise e, w1).
Proof. intros H. rewrite bind_run, H. reflexivity. Qed.

(** Either the first part raises, or the rest runs from where it ends. *)
Lemma bind_cases {A B} (m : M A) (f : A -> M B) w r w2 :
  (m ≫= f) w = (r, w2) ->
  (exists e, m w = (Raise e, w2) /\ r = Raise e) \/
  (exists a w1, m w = (Ok a, w1) /\ f a w1 = (r, w2)).
Proof.
  rewrite bind_run. destruct (m w) as [[a|e] w1].
  - right. eauto.
  - intros [= <- <-]. left. eauto.
Qed.

Lemma lift_run {A} (r : result A) w : lift r w = (r, w).
Proof. reflexivity. Qed.

Lemma deref_run (r : ref) (w : World) (df : DataFrame) :
  heap w !! r = Some df -> deref r w = (Ok df, w).
Proof. unfold deref. intros ->. reflexivity. Qed.

Lemma deref_ok (r : ref) (w w' : World) (df : DataFrame) :
  deref r w = (Ok df, w') -> heap w !! r = Some df /\ w' = w.
Proof.
  unfold deref. destruct (heap w !! r); intros [= <- <-]; auto.
Qed.

(** [deref] never changes the world. *)
Lemma deref_world (r : ref) (w w' : World) (x : result DataFrame) :
  deref r w = (x, w') -> w' = w.
Proof. unfold deref. destruct (heap w !! r); intros [= _ <-]; reflexivity. Qed.

Lemma df_copy_run (r : ref) (w : World) (df : DataFrame) :
  heap w !! r = Some df ->
  df_copy r w =
    (Ok (length (heap w)),
     {| heap := (heap w ++ [df])%list; files := files w;
        written := written w;
        log := (log w ++ [EvCopy r (length (heap w))])%list |}).
Proof.
  intros H. unfold df_copy.
  rewrite (bind_step _ _ _ _ _ (deref_run _ _ _ H)). reflexivity.
Qed.

Lemma df_setitem_run (r : ref) (name : string) (col : column) (w : World)
    (df : DataFrame) :
  heap w !! r = Some df ->
  col_length col = nrows df \/ df = [] ->
  df_setitem r name col w =
    (Ok tt,
     {| heap := <[r := set_column name col df]> (heap w); files := files w;
        written := written w; log := (log w ++ [EvSetItem r name])%list |}).
Proof.
  intros H Hlen. unfold df_setitem.
  rewrite (bind_step _ _ _ _ _ (deref_run _ _ _ H)).
  replace (negb (Nat.eqb (col_length col) (nrows df))
           && negb (Nat.eqb (length df) 0)) with false; [reflexivity|].
  symmetry. destruct Hlen as [-> | ->].
  - rewrite Nat.eqb_refl. reflexivity.
  - apply andb_false_r.
Qed.

Lemma get_column_nonempty (name : string) (df : DataFrame) (c : column) :
  get_column name df = Ok c -> df <> [].
Proof. destruct df; [discriminate | discriminate]. Qed.

Lemma lookup_snoc {A} (l : list A) (x : A) : (l ++ [x])%list !! length l = Some x.
Proof. induction l; simpl; auto. Qed.

Lemma lookup_snoc_lt {A} (l : list A) (x : A) (i : nat) (y : A) :
  l !! i = Some y -> (l ++ [x])%list !! i = Some y.
Proof. revert i. induction l; intros [|i]; simpl; try discriminate; auto. Qed.

Lemma insert_snoc {A} (l : list A) (x y : A) :
  <[length l := y]> (l ++ [x])%list = (l ++ [y])%list.
Proof. induction l; simpl; [reflexivity | f_equal; assumption]. Qed.


(** *** Lists, and code mapped over lists *)

Lemma map_lookup {A B} (f : A -> B) (l : list A) (i : nat) (x : A) :
  l !! i = Some x -> map f l !! i = Some (f x).
Proof.
  revert i. induction l as [|y l IH]; intros [|i]; simpl; try discriminate.
  - intros [= ->]. reflexivity.
  - apply IH.
Qed.

Lemma result_map_length {A B} (f : A -> result B) (l : list A) (l' : list B) :
  result_map f l = Ok l' -> length l' = length l.
Proof.
  revert l'. induction l as [|x l IH]; simpl; intros l'.
  - intros [= <-]. reflexivity.
  - destruct (f x) as [y|e]; simpl; [|discriminate].
    destruct (result_map f l) as [ys|e]; simpl; [|discriminate].
    intros [= <-]. simpl. f_equal. apply IH. reflexivity.
Qed.

Lemma result_map_lookup {A B} (f : A -> result B) (l : list A) (l' : list B)
    (i : nat) (x : A) :
  result_map f l = Ok l' -> l !! i = Some x ->
  exists y, f x = Ok y /\ l' !! i = Some y.
Proof.
  revert l' i. induction l as [|x' l IH]; simpl; intros l' i; [discriminate|].
  destruct (f x') as [y|e] eqn:Fx; simpl; [|discriminate].
  destruct (result_map f l) as [ys|e]; simpl; [|discriminate].
  intros [= <-]. destruct i as [|i]; simpl.
  - intros [= <-]. eauto.
  - intros Hi. apply (IH ys i eq_refl Hi).
Qed.

Lemma result_map_In {A B} (f : A -> result B) (l : list A) (l' : list B)
    (y : B) :
  result_map f l = Ok l' -> In y l' -> exists x, In x l /\ f x = Ok y.
Proof.
  revert l'. induction l as [|x' l IH]; simpl; intros l'.
  - intros [= <-] [].
  - destruct (f x') as [y'|e] eqn:Fx; simpl; [|discriminate].
    destruct (result_map f l) as [ys|e]; simpl; [|discriminate].
    intros [= <-] [<- | Hy]; [eauto|].
    destruct (IH ys eq_refl Hy) as (x & Hx & Fx'). eauto.
Qed.

(** Mapping succeeds when the function does on every item. *)
Lemma result_map_total {A B} (f : A -> result B) (l : list A) :
  (forall x, In x l -> exists y, f x = Ok y) -> exists l', result_map f l = Ok l'.
Proof.
  induction l as [|x l IH]; simpl; intros H; [eauto|].
  destruct (H x (or_introl eq_refl)) as [y ->].
  destruct IH as [ys ->]; [auto|]. simpl. eauto.
Qed.

Lemma result_map_ext {A B} (f g : A -> result B) (l : list A) :
  (forall x, In x l -> f x = g x) -> result_map f l = result_map g l.
Proof.
  induction l as [|x l IH]; simpl; intros H; [reflexivity|].
  rewrite (H x (or_introl eq_refl)), IH by auto. reflexivity.
Qed.

Lemma zip3_In {A B C} (a : list A) (b : list B) (c : list C) x y z :
  In (x, y, z) (zip3 a b c) -> In x a.
Proof.
  revert b c. induction a as [|x' a IH]; intros [|y' b] [|z' c]; simpl;
    try contradiction.
  intros [[= -> _ _] | H]; eauto.
Qed.

Lemma zip3_length {A B C} (a : list A) (b : list B) (c : list C) :
  length b = length a -> length c = length a ->
  length (zip3 a b c) = length a.
Proof.
  revert b c. induction a as [|x a IH]; intros [|y b] [|z c]; simpl;
    try discriminate; auto.
Qed.

Lemma combine_lookup {A B} (a : list A) (b : list B) (i : nat) x y :
  a !! i = Some x -> b !! i = Some y -> combine a b !! i = Some (x, y).
Proof.
  revert b i. induction a as [|x' a IH]; intros [|y' b] [|i]; simpl;
    try discriminate.
  - intros [= ->] [= ->]. reflexivity.
  - apply IH.
Qed.

Lemma combine_In_l {A B} (a : list A) (b : list B) x y :
  In (x, y) (combine a b) -> In x a.
Proof. apply in_combine_l. Qed.

Lemma insert_sorted_In (s x : string) (l : list string) :
  In x (insert_sorted s l) <-> x = s \/ In x l.
Proof.
  induction l as [|t l IH]; simpl.
  - intuition congruence.
  - destruct (String.leb s t); simpl; [intuition congruence|].
    rewrite IH. intuition congruence.
Qed.

Lemma existsb_eqb_In (s : string) (l : list string) :
  existsb (String.eqb s) l = true <-> In s l.
Proof.
  rewrite existsb_exists. split.
  - intros (x & Hx & E). apply String.eqb_eq in E. subst. exact Hx.
  - intros H. exists s. split; [exact H | apply String.eqb_refl].
Qed.

(** The fitted levels of a column are the values seen in it. *)
Lemma sorted_unique_In (x : string) (l : list string) :
  In x (sorted_unique l) <-> In x l.
Proof.
  unfold sorted_unique. induction l as [|s l IH]; simpl; [tauto|].
  destruct (existsb (String.eqb s) _) eqn:E.
  - apply existsb_eqb_In in E. rewrite IH. split; [auto|].
    intros [<- | H]; [apply IH; exact E | exact H].
  - rewrite insert_sorted_In, IH. intuition congruence.
Qed.

Lemma insert_sorted_NoDup (s : string) (l : list string) :
  ~ In s l -> List.NoDup l -> List.NoDup (insert_sorted s l).
Proof.
  induction l as [|t l IH]; simpl; intros Hs Hl.
  - constructor; [tauto | constructor].
  - destruct (String.leb s t).
    + constructor; [simpl; tauto | exact Hl].
    + inversion Hl as [|? ? Ht Hl']; subst. constructor.
      * rewrite insert_sorted_In. intuition congruence.
      * apply IH; tauto.
Qed.

(** No level is stored twice. *)
Lemma sorted_unique_NoDup (l : list string) : List.NoDup (sorted_unique l).
Proof.
  unfold sorted_unique. induction l as [|s l IH]; simpl; [constructor|].
  destruct (existsb (String.eqb s) _) eqn:E; [exact IH|].
  apply insert_sorted_NoDup; [|exact IH].
  intros H. apply existsb_eqb_In in H. congruence.
Qed.

(** *** Sorting, dicts and the best item *)

Lemma insert_desc_perm {A} (key : A -> float) (x : A) (l : list A) :
  Permutation (insert_desc key x l) (x :: l).
Proof.
  induction l as [|y l IH]; simpl; [reflexivity|].
  destruct (F64.lt (key x) (key y)); [|reflexivity].
  rewrite IH. apply perm_swap.
Qed.

(** Sorting rearranges. *)
Lemma sorted_desc_perm {A} (key : A -> float) (l : list A) :
  Permutation (sorted_desc key l) l.
Proof.
  unfold sorted_desc. induction l as [|x l IH]; simpl; [reflexivity|].
  rewrite insert_desc_perm, IH. reflexivity.
Qed.

Lemma insert_desc_Sorted {A} (key : A -> float) (x : A) (l : list A) :
  F64.is_nan (key x) = false ->
  Forall (fun y => F64.is_nan (key y) = false) l ->
  Sorted (fun a b => F64.ge (key a) (key b) = true) l ->
  Sorted (fun a b => F64.ge (key a) (key b) = true) (insert_desc key x l).
Proof.
  intros Hx Hl Hs. induction l as [|y l IH]; simpl.
  - repeat constructor.
  - inversion Hl as [|? ? Hy Hl']; subst.
    inversion Hs as [|? ? Hs' Hhd]; subst.
    destruct (F64.lt (key x) (key y)) eqn:E.
    + constructor; [apply IH; assumption|].
      destruct l as [|z l]; simpl.
      * constructor. apply lt_ge. exact E.
      * destruct (F64.lt (key x) (key z)).
        -- constructor. inversion Hhd; subst. assumption.
        -- constructor. apply lt_ge. exact E.
    + constructor; [exact Hs|]. constructor.
      apply lt_false_ge; assumption.
Qed.

Lemma sorted_desc_Sorted {A} (key : A -> float) (l : list A) :
  Forall (fun y => F64.is_nan (key y) = false) l ->
  Sorted (fun a b => F64.ge (key a) (key b) = true) (sorted_desc key l).
Proof.
  unfold sorted_desc. induction l as [|x l IH]; simpl; intros H.
  - constructor.
  - inversion H as [|? ? Hx Hl]; subst.
    apply insert_desc_Sorted; [exact Hx| |apply IH; exact Hl].
    pose proof (sorted_desc_perm key l) as P. unfold sorted_desc in P.
    symmetry in P. exact (Permutation_Forall P Hl).
Qed.

(** In a sorted list every item's key is at least each later one's. *)
Lemma Sorted_ge_all {A} (key : A -> float) (x : A) (l : list A) :
  Sorted (fun a b => F64.ge (key a) (key b) = true) (x :: l) ->
  Forall (fun y => F64.ge (key x) (key y) = true) l.
Proof.
  intros H. apply Sorted_StronglySorted in H.
  - inversion H; subst. assumption.
  - intros a b c. apply ge_trans.
Qed.

Lemma Sorted_firstn {A} (R : A -> A -> Prop) (n : nat) (l : list A) :
  Sorted R l -> Sorted R (firstn n l).
Proof.
  revert n. induction l as [|x l IH]; intros [|n] H; simpl; try constructor.
  - apply IH. inversion H; assumption.
  - inversion H as [|? ? _ Hhd]; subst.
    destruct l as [|y l], n as [|n]; simpl; constructor.
    inversion Hhd; assumption.
Qed.

Lemma Sorted_non_increasing {A} (key : A -> float) (l : list A) :
  Sorted (fun a b => F64.ge (key a) (key b) = true) l ->
  non_increasing key l.
Proof.
  intros H i. revert l H. induction i as [|i IH]; intros l H a b.
  - destruct l as [|x [|y l]]; simpl; try discriminate.
    intros [= <-] [= <-]. inversion H as [|? ? _ Hhd]; subst.
    inversion Hhd; assumption.
  - destruct l as [|x l]; simpl; [discriminate|].
    apply IH. inversion H; assumption.
Qed.

Lemma lookup_In {A} (l : list A) (i : nat) (x : A) : l !! i = Some x -> In x l.
Proof.
  revert i. induction l as [|y l IH]; intros [|i]; simpl; try discriminate.
  - intros [= ->]. auto.
  - eauto.
Qed.

Lemma In_lookup {A} (l : list A) (x : A) : In x l -> exists i, l !! i = Some x.
Proof.
  induction l as [|y l IH]; simpl; [contradiction|].
  intros [-> | H]; [exists O; reflexivity|].
  destruct (IH H) as [i Hi]. exists (S i). exact Hi.
Qed.

Lemma before_cons {A} (a b x : A) (l : list A) :
  before a b l -> before a b (x :: l).
Proof.
  intros (i & j & Hij & Hi & Hj). exists (S i), (S j). simpl.
  repeat split; [lia | assumption | assumption].
Qed.

Lemma before_head {A} (x b : A) (l : list A) : In b l -> before x b (x :: l).
Proof.
  intros H. destruct (In_lookup _ _ H) as [j Hj].
  exists O, (S j). simpl. repeat split; [lia | assumption].
Qed.

Lemma before_cons_inv {A} (a b x : A) (l : list A) :
  before a b (x :: l) -> (a = x /\ In b l) \/ before a b l.
Proof.
  intros (i & j & Hij & Hi & Hj).
  destruct j as [|j]; [lia|]. simpl in Hj.
  destruct i as [|i]; simpl in Hi.
  - injection Hi as <-. left. split; [reflexivity|]. exact (lookup_In _ _ _ Hj).
  - right. exists i, j. repeat split; [lia | assumption | assumption].
Qed.

Lemma insert_desc_before {A} (key : A -> float) (x : A) (l : list A) (a b : A) :
  before a b (insert_desc key x l) ->
  before a b l \/ (a = x /\ In b l) \/ (b = x /\ F64.lt (key x) (key a) = true).
Proof.
  induction l as [|y l IH]; simpl.
  - intros (i & j & Hij & Hi & Hj). destruct j as [|[|j]]; simpl in Hj;
      [lia | discriminate | discriminate].
  - destruct (F64.lt (key x) (key y)) eqn:E.
    + intros H. apply before_cons_inv in H. destruct H as [[-> Hb] | H].
      * apply (Permutation_in _ (insert_desc_perm key x l)) in Hb.
        destruct Hb as [<- | Hb]; [auto|]. left. apply before_head. exact Hb.
      * destruct (IH H) as [H1 | [[-> H2] | [-> H3]]].
        -- left. apply before_cons. exact H1.
        -- right. left. split; [reflexivity|]. right. exact H2.
        -- auto.
    + intros H. apply before_cons_inv in H. destruct H as [[-> Hb] | H]; auto.
Qed.

(** The sort is stable: it puts [a] before [b] only if [a] was before [b]
    or has the greater key. *)
Lemma sorted_desc_stable {A} (key : A -> float) (l : list A) (a b : A) :
  before a b (sorted_desc key l) ->
  before a b l \/ F64.lt (key b) (key a) = true.
Proof.
  unfold sorted_desc. induction l as [|x l IH]; simpl.
  - intros (i & j & _ & Hi & _). destruct i; discriminate.
  - intros H. apply insert_desc_before in H.
    destruct H as [H | [[-> H] | [-> H]]].
    + destruct (IH H) as [H1 | H1]; [|auto]. left. apply before_cons. exact H1.
    + left. apply before_head.
      exact (Permutation_in _ (sorted_desc_perm key l) H).
    + auto.
Qed.

Lemma firstn_lookup {A} (n : nat) (l : list A) (i : nat) (x : A) :
  firstn n l !! i = Some x -> l !! i = Some x.
Proof.
  revert n i. induction l as [|y l IH]; intros [|n] [|i]; simpl;
    try discriminate; auto.
  apply IH.
Qed.

Lemma before_firstn {A} (n : nat) (l : list A) (a b : A) :
  before a b (firstn n l) -> before a b l.
Proof.
  intros (i & j & Hij & Hi & Hj). exists i, j.
  repeat split; [assumption | | ]; eapply firstn_lookup; eassumption.
Qed.

Lemma firstn_In {A} (n : nat) (l : list A) (x : A) : In x (firstn n l) -> In x l.
Proof.
  intros H. destruct (In_lookup _ _ H) as [i Hi].
  exact (lookup_In _ _ _ (firstn_lookup _ _ _ _ Hi)).
Qed.

Lemma firstn_NoDup {A} (n : nat) (l : list A) :
  List.NoDup l -> List.NoDup (firstn n l).
Proof.
  revert n. induction l as [|x l IH]; intros [|n] H; simpl; try constructor.
  - inversion H; subst. intros Hin. apply firstn_In in Hin. contradiction.
  - apply IH. inversion H; assumption.
Qed.

Lemma map_firstn {A B} (f : A -> B) (n : nat) (l : list A) :
  map f (firstn n l) = firstn n (map f l).
Proof.
  revert n. induction l as [|x l IH]; intros [|n]; simpl; try reflexivity.
  f_equal. apply IH.
Qed.

(** Setting a new key appends an item. *)
Lemma dict_set_fresh {V} (k : string) (v : V) (d : dict V) :
  ~ In k (map fst d) -> dict_set k v d = (d ++ [(k, v)])%list.
Proof.
  induction d as [|[k' v'] d IH]; simpl; intros H; [reflexivity|].
  destruct (String.eqb k' k) eqn:E.
  - apply String.eqb_eq in E. tauto.
  - rewrite IH by tauto. reflexivity.
Qed.

Lemma fold_dict_set_fresh {V} (pairs : list (string * V)) (d : dict V) :
  List.NoDup (map fst (d ++ pairs)%list) ->
  fold_left (fun d p => dict_set (fst p) (snd p) d) pairs d = (d ++ pairs)%list.
Proof.
  revert d. induction pairs as [|[k v] pairs IH]; intros d H; simpl.
  - rewrite app_nil_r. reflexivity.
  - rewrite dict_set_fresh.
    + rewrite IH; rewrite <- app_assoc; [reflexivity | exact H].
    + rewrite map_app in H. simpl in H.
      apply NoDup_remove_2 in H. intros Hin. apply H.
      apply in_or_app. left. exact Hin.
Qed.

(** A dict built from pairs with distinct keys is those pairs, in order. *)
Lemma dict_of_pairs_NoDup {V} (pairs : list (string * V)) :
  List.NoDup (map fst pairs) -> dict_of_pairs pairs = pairs.
Proof. intros H. unfold dict_of_pairs. apply (fold_dict_set_fresh pairs []). exact H. Qed.

(** Looking up a key of a dict with distinct keys. *)
Lemma dict_get_In {V} (d : dict V) (k : string) (v : V) :
  List.NoDup (map fst d) -> In (k, v) d -> dict_get k d = Some v.
Proof.
  induction d as [|[k' v'] d IH]; simpl; [contradiction|].
  intros Hnd [[= -> ->] | Hin].
  - rewrite String.eqb_refl. reflexivity.
  - inversion Hnd as [|? ? Hk' Hnd']; subst.
    destruct (String.eqb k' k) eqn:E.
    + apply String.eqb_eq in E. subst. exfalso. apply Hk'.
      apply (in_map fst) in Hin. exact Hin.
    + apply IH; assumption.
Qed.

(** The best item stays when no later item has a greater key. *)
Lemma max_by_head {A} (key : A -> float) (best : A) (l : list A) :
  Forall (fun y => F64.ge (key best) (key y) = true) l ->
  max_by key best l = best.
Proof.
  induction l as [|x l IH]; simpl; intros H; [reflexivity|].
  inversion H as [|? ? Hx Hl]; subst.
  rewrite (ge_gt_false _ _ Hx). apply IH. exact Hl.
Qed.

(** *** The fitted encoders *)

Lemma ct_fit_inv (B : Backend) (spec : PipelineSpec) (x : DataFrame)
    (ct : ColumnTransformer) :
  ct_fit B spec x = Ok ct ->
  exists stats levels,
    result_map (fun name => xs ← numeric_values name x; Ok (scaler_stats B xs))
               (spec_num_features spec) = Ok stats /\
    result_map (fun name => vs ← string_values name x; Ok (sorted_unique vs))
               (spec_cat_features spec) = Ok levels /\
    ct = {| num_columns := spec_num_features spec;
            transformer_num := {| mean_ := map fst stats;
                                  scale_ := map snd stats |};
            cat_columns := spec_cat_features spec;
            transformer_cat :=
              {| ohe_handle_unknown := spec_handle_unknown spec;
                 categories_ := levels |} |}.
Proof.
  unfold ct_fit. intros H.
  apply result_bind_ok in H. destruct H as (stats & Hs & H).
  apply result_bind_ok in H. destruct H as (levels & Hl & H).
  injection H as <-. eauto.
Qed.

(** The fitted levels of the [k]-th categorical field. *)
Lemma ct_fit_levels (B : Backend) (spec : PipelineSpec) (x : DataFrame)
    (ct : ColumnTransformer) (k : nat) (field : string) (vals : list string) :
  ct_fit B spec x = Ok ct ->
  spec_cat_features spec !! k = Some field ->
  string_values field x = Ok vals ->
  categories_ (transformer_cat ct) !! k = Some (sorted_unique vals).
Proof.
  intros H Hk Hv. destruct (ct_fit_inv _ _ _ _ H) as (stats & levels & _ & Hl & ->).
  simpl. destruct (result_map_lookup _ _ _ _ _ Hl Hk) as (y & Hy & ->).
  rewrite Hv in Hy. simpl in Hy. congruence.
Qed.

Lemma onehot_column_lookup (level : string) (vals : list string) (i : nat)
    (v : string) :
  vals !! i = Some v ->
  onehot_column level vals !! i
    = Some (if String.eqb v level then F64.one else F64.zero).
Proof.
  intros H. unfold onehot_column.
  exact (map_lookup
           (fun v => if String.eqb v level then F64.one else F64.zero)
           vals i v H).
Qed.

(** A value outside the levels has a zero in every indicator column. *)
Lemma onehot_unseen_zero (levels vals : list string) (i : nat) (v : string)
    (col : list float) :
  vals !! i = Some v -> ~ In v levels ->
  In col (map (fun l => onehot_column l vals) levels) ->
  col !! i = Some F64.zero.
Proof.
  intros Hv Hn Hc. apply in_map_iff in Hc. destruct Hc as (l & <- & Hl).
  rewrite (onehot_column_lookup l vals i v Hv).
  destruct (String.eqb v l) eqn:E; [|reflexivity].
  apply String.eqb_eq in E. subst. contradiction.
Qed.

Lemma concat_blocks_length {A B C} (g : A -> result (list B)) (h : A -> list C)
    (l : list A) (blocks : list (list B)) :
  result_map g l = Ok blocks ->
  (forall p b, In p l -> g p = Ok b -> length b = length (h p)) ->
  length (concat blocks) = length (concat (map h l)).
Proof.
  revert blocks. induction l as [|p l IH]; simpl; intros blocks.
  - intros [= <-] _. reflexivity.
  - destruct (g p) as [b|e] eqn:Gp; simpl; [|discriminate].
    destruct (result_map g l) as [bs|e]; simpl; [|discriminate].
    intros [= <-] H. simpl. rewrite !length_app.
    rewrite (H p b (or_introl eq_refl) Gp). f_equal.
    apply IH; [reflexivity|]. intros p' b' Hp'. apply H. right. exact Hp'.
Qed.


(** *** Training and scoring, step by step *)

Lemma lift_ok {A} (r : result A) (w w' : World) (a : A) :
  lift r w = (Ok a, w') -> r = Ok a /\ w' = w.
Proof. unfold lift. intros [= -> <-]. auto. Qed.

Lemma emit_ok (ev : event) (w w' : World) (u : unit) :
  emit ev w = (Ok u, w') ->
  w' = {| heap := heap w; files := files w; written := written w;
          log := (log w ++ [ev])%list |}.
Proof. unfold emit. intros [= _ <-]. reflexivity. Qed.

Lemma mret_ok {A} (a b : A) (w w' : World) :
  (mret a : M A) w = (Ok b, w') -> a = b /\ w' = w.
Proof. intros [= <- <-]. auto. Qed.

Lemma pipeline_fit_inv (B : Backend) (spec : PipelineSpec) (x : DataFrame)
    (y : list Z) (p : Pipeline B) :
  pipeline_fit B spec x y = Ok p ->
  exists cols,
    ct_fit B spec x = Ok (named_steps_prep p) /\
    ct_transform (named_steps_prep p) x = Ok cols /\
    rf_fit B (spec_forest spec) (matrix_rows (nrows x) cols) y
      = Ok (named_steps_model p).
Proof.
  unfold pipeline_fit. intros H.
  apply result_bind_ok in H. destruct H as (ct & Hct & H).
  apply result_bind_ok in H. destruct H as (cols & Hcols & H).
  apply result_bind_ok in H. destruct H as (forest & Hf & H).
  injection H as <-. simpl. eauto.
Qed.

(** What a successful [train_model] has computed. *)
Lemma train_model_inv (B : Backend) (r : ref) (w w' : World)
    (res : ModelResult B) :
  train_model B r w = (Ok res, w') ->
  exists df x y proba,
    heap w !! r = Some df /\
    has_column TARGET_COLUMN df = true /\
    select (features_of df) df = Ok x /\
    (get_column TARGET_COLUMN df ≫= astype_int B) = Ok y /\
    pipeline_fit B (_build_pipeline train_cat_features (train_num_features df))
                 x y = Ok (model res) /\
    (pipeline_predict_proba B (model res) x
       ≫= column_1 (length (rf_classes B (named_steps_model (model res)))))
      = Ok proba /\
    roc_auc_score B y proba = Ok (auc res) /\
    feature_importance res
      = _extract_feature_importance B (model res) train_cat_features
          (train_num_features df) /\
    w' = {| heap := heap w; files := files w; written := written w;
            log := (log w ++ [EvFit; EvPredictProba])%list |}.
Proof.
  unfold train_model. intros H.
  apply bind_ok in H. destruct H as (df & w1 & Hd & H).
  apply deref_ok in Hd. destruct Hd as [Hd E]; subst w1.
  destruct (has_column TARGET_COLUMN df) eqn:Ht; simpl in H; [|discriminate].
  apply bind_ok in H. destruct H as (x & w1 & Hx & H).
  apply lift_ok in Hx. destruct Hx as [Hx E]; subst w1.
  apply bind_ok in H. destruct H as (y & w1 & Hy & H).
  apply lift_ok in Hy. destruct Hy as [Hy E]; subst w1.
  apply bind_ok in H. destruct H as (u & w1 & He & H).
  apply emit_ok in He. subst w1.
  apply bind_ok in H. destruct H as (p & w1 & Hp & H).
  apply lift_ok in Hp. destruct Hp as [Hp E]; subst w1.
  apply bind_ok in H. destruct H as (u' & w1 & He & H).
  apply emit_ok in He. subst w1.
  apply bind_ok in H. destruct H as (proba & w1 & Hpr & H).
  apply lift_ok in Hpr. destruct Hpr as [Hpr E]; subst w1.
  apply bind_ok in H. destruct H as (a & w1 & Ha & H).
  apply lift_ok in Ha. destruct Ha as [Ha E]; subst w1.
  apply mret_ok in H. destruct H as [E1 E2]. subst res w'. simpl.
  exists df, x, y, proba. rewrite <- app_assoc. simpl.
  repeat split; assumption.
Qed.

(** What a successful [score] has computed. *)
Lemma score_inv (B : Backend) (p : Pipeline B) (r : ref) (w w' : World)
    (scores : list float) :
  score B p r w = (Ok scores, w') ->
  exists df x,
    heap w !! r = Some df /\
    select (features_of df) df = Ok x /\
    (pipeline_predict_proba B p x
       ≫= column_1 (length (rf_classes B (named_steps_model p)))) = Ok scores /\
    w' = {| heap := heap w; files := files w; written := written w;
            log := (log w ++ [EvPredictProba])%list |}.
Proof.
  unfold score. intros H.
  apply bind_ok in H. destruct H as (df & w1 & Hd & H).
  apply deref_ok in Hd. destruct Hd as [Hd E]; subst w1.
  apply bind_ok in H. destruct H as (x & w1 & Hx & H).
  apply lift_ok in Hx. destruct Hx as [Hx E]; subst w1.
  apply bind_ok in H. destruct H as (u & w1 & He & H).
  apply emit_ok in He. subst w1.
  apply lift_ok in H. destruct H as [H E]; subst w'.
  exists df, x. repeat split; assumption.
Qed.

(** A selected column is the frame's column. *)
Lemma select_get_column (names : list string) (df x : DataFrame) (n : string) :
  select names df = Ok x -> In n names -> get_column n x = get_column n df.
Proof.
  unfold select. revert x. induction names as [|m names IH]; simpl; intros x;
    [contradiction|].
  destruct (get_column m df) as [c|e] eqn:Gm; simpl; [|discriminate].
  destruct (result_map _ names) as [xs|e]; simpl; [|discriminate].
  intros [= <-] Hin. simpl. destruct (String.eqb m n) eqn:E.
  - apply String.eqb_eq in E. subst. symmetry. exact Gm.
  - destruct Hin as [-> | Hin]; [rewrite String.eqb_refl in E; discriminate|].
    apply IH; [reflexivity | exact Hin].
Qed.

Lemma select_columns (names : list string) (df x : DataFrame) :
  select names df = Ok x -> columns x = names.
Proof.
  unfold select, columns. revert x. induction names as [|m names IH]; simpl;
    intros x.
  - intros [= <-]. reflexivity.
  - destruct (get_column m df) as [c|e]; simpl; [|discriminate].
    destruct (result_map _ names) as [xs|e]; simpl; [|discriminate].
    intros [= <-]. simpl. f_equal. apply IH. reflexivity.
Qed.

(** *** The names of the encoded columns *)

Lemma NoDup_append {A} (l k : list A) :
  List.NoDup l -> List.NoDup k -> (forall x, In x l -> ~ In x k) ->
  List.NoDup (l ++ k)%list.
Proof.
  induction l as [|x l IH]; simpl; intros Hl Hk Hd; [exact Hk|].
  inversion Hl as [|? ? Hx Hl']; subst. constructor.
  - rewrite in_app_iff. intros [H | H]; [contradiction|].
    exact (Hd x (or_introl eq_refl) H).
  - apply IH; auto.
Qed.

Lemma NoDup_map_inj {A B} (f : A -> B) (l : list A) :
  (forall x y, f x = f y -> x = y) -> List.NoDup l -> List.NoDup (map f l).
Proof.
  intros Hf. induction 1 as [|x l Hx Hl IH]; simpl; constructor; [|exact IH].
  intros Hin. apply in_map_iff in Hin. destruct Hin as (y & Hy & Hin).
  apply Hf in Hy. subst. contradiction.
Qed.

Lemma REQUIRED_COLUMNS_NoDup : List.NoDup REQUIRED_COLUMNS.
Proof.
  unfold REQUIRED_COLUMNS.
  repeat (constructor; [simpl; intuition discriminate|]). constructor.
Qed.

Lemma filter_NoDup {A} (f : A -> bool) (l : list A) :
  List.NoDup l -> List.NoDup (List.filter f l).
Proof.
  induction 1 as [|x l Hx Hl IH]; simpl; [constructor|].
  destruct (f x); [|exact IH]. constructor; [|exact IH].
  rewrite filter_In. tauto.
Qed.

(** The numeric fields used for training are required numeric fields
    that the frame has. *)
Lemma train_num_features_In (df : DataFrame) (k : string) :
  In k (train_num_features df) ->
  In k [ "tenure_months"; "last_promotion_months"; "manager_span";
         "overtime_hours_month"; "engagement_score";
         "absenteeism_days_month"; "peer_turnover_rate";
         "performance_score"; "internal_mobility" ] /\
  has_column k df = true.
Proof.
  unfold train_num_features, features_of. rewrite !filter_In.
  intros [[Hreq Hhas] Hcond]. split; [|exact Hhas].
  simpl in Hreq.
  repeat (destruct Hreq as [<- | Hreq];
          [first [discriminate Hcond | simpl; tauto]|]).
  contradiction.
Qed.

Lemma train_num_features_NoDup (df : DataFrame) :
  List.NoDup (train_num_features df).
Proof.
  unfold train_num_features, features_of.
  apply filter_NoDup, filter_NoDup, REQUIRED_COLUMNS_NoDup.
Qed.

(** The levels fitted for the two categorical fields. *)
Lemma ct_fit_categories (B : Backend) (num : list string) (x : DataFrame)
    (ct : ColumnTransformer) :
  ct_fit B (_build_pipeline train_cat_features num) x = Ok ct ->
  exists depts bands,
    string_values "dept" x = Ok depts /\
    string_values "salary_band" x = Ok bands /\
    categories_ (transformer_cat ct)
      = [sorted_unique depts; sorted_unique bands] /\
    get_feature_names_out (transformer_cat ct) train_cat_features
      = (map (fun l => ("dept" ++ "_" ++ l)%string) (sorted_unique depts)
         ++ map (fun l => ("salary_band" ++ "_" ++ l)%string) (sorted_unique bands))%list.
Proof.
  intros H. destruct (ct_fit_inv _ _ _ _ H) as (stats & levels & _ & Hl & ->).
  simpl in Hl.
  destruct (string_values "dept" x) as [depts|e]; simpl in Hl; [|discriminate].
  destruct (string_values "salary_band" x) as [bands|e]; simpl in Hl;
    [|discriminate].
  injection Hl as <-. exists depts, bands.
  repeat split. unfold get_feature_names_out. simpl.
  rewrite app_nil_r. reflexivity.
Qed.

(** The encoded columns have distinct names. *)
Lemma encoded_names_NoDup (B : Backend) (df x : DataFrame)
    (ct : ColumnTransformer) :
  ct_fit B (_build_pipeline train_cat_features (train_num_features df)) x
    = Ok ct ->
  List.NoDup (train_num_features df
              ++ get_feature_names_out (transformer_cat ct)
                   train_cat_features)%list.
Proof.
  intros H.
  destruct (ct_fit_categories _ _ _ _ H) as (depts & bands & _ & _ & _ & ->).
  apply NoDup_append.
  - apply train_num_features_NoDup.
  - apply NoDup_append.
    + apply NoDup_map_inj; [|apply sorted_unique_NoDup].
      intros a b E. simpl in E. congruence.
    + apply NoDup_map_inj; [|apply sorted_unique_NoDup].
      intros a b E. simpl in E. congruence.
    + intros k H1 H2. apply in_map_iff in H1, H2.
      destruct H1 as (a & <- & _), H2 as (b & E & _). discriminate.
  - intros k Hk Hin. apply train_num_features_In in Hk. destruct Hk as [Hk _].
    rewrite in_app_iff, !in_map_iff in Hin. simpl in Hk.
    destruct Hin as [(a & <- & _) | (a & <- & _)];
      repeat (destruct Hk as [Hk | Hk]; [discriminate Hk|]); contradiction.
Qed.

(** *** The importance table *)

Lemma map_fst_combine_NoDup {A B} (a : list A) (b : list B) :
  List.NoDup a -> List.NoDup (map fst (combine a b)).
Proof.
  intros H. revert b. induction H as [|x a Hx Ha IH]; intros [|y b]; simpl;
    try constructor; [|apply IH].
  intros Hin. apply in_map_iff in Hin. destruct Hin as ([x' y'] & E & Hin).
  simpl in E. subst. apply in_combine_l in Hin. contradiction.
Qed.

Lemma get_column_In (n : string) (df : DataFrame) (c : column) :
  get_column n df = Ok c -> In n (columns df).
Proof.
  induction df as [|[m c'] df IH]; simpl; [discriminate|].
  destruct (String.eqb m n) eqn:E; [|auto].
  apply String.eqb_eq in E. auto.
Qed.

(** The strings of a categorical field of the training selection are the
    frame's column. *)
Lemma string_values_select (names : list string) (df x : DataFrame)
    (n : string) (vals : list string) :
  select names df = Ok x -> string_values n x = Ok vals ->
  get_column n df = Ok (StrCol vals).
Proof.
  intros Hsel. unfold string_values, ct_column.
  destruct (get_column n x) as [c|e] eqn:G; simpl; [|discriminate].
  pose proof (get_column_In _ _ _ G) as Hin.
  rewrite (select_columns _ _ _ Hsel) in Hin.
  rewrite (select_get_column _ _ _ _ Hsel Hin) in G. rewrite G.
  destruct c; try discriminate. intros [= ->]. reflexivity.
Qed.

(** The table of a trained model is the first eight of the encoded
    columns sorted by weight; their names are distinct. *)
Lemma feature_importance_table (B : Backend) (r : ref) (w w' : World)
    (res : ModelResult B) :
  train_model B r w = (Ok res, w') ->
  exists df x,
    heap w !! r = Some df /\
    select (features_of df) df = Ok x /\
    ct_fit B (_build_pipeline train_cat_features (train_num_features df)) x
      = Ok (named_steps_prep (model res)) /\
    List.NoDup (map fst (encoded_importances B (model res) train_cat_features
                           (train_num_features df))) /\
    feature_importance res
      = firstn 8 (sorted_desc snd
                    (encoded_importances B (model res) train_cat_features
                       (train_num_features df))).
Proof.
  intros H.
  destruct (train_model_inv _ _ _ _ _ H)
    as (df & x & y & proba & Hd & _ & Hx & _ & Hfit & _ & _ & Hfi & _).
  destruct (pipeline_fit_inv _ _ _ _ _ Hfit) as (cols & Hct & _ & _).
  assert (Hnd : List.NoDup
                  (map fst (encoded_importances B (model res)
                              train_cat_features (train_num_features df)))).
  { apply map_fst_combine_NoDup. exact (encoded_names_NoDup _ _ _ _ Hct). }
  exists df, x. repeat split; try assumption.
  rewrite Hfi. unfold _extract_feature_importance.
  apply dict_of_pairs_NoDup.
  rewrite map_firstn. apply firstn_NoDup.
  refine (Permutation_NoDup _ Hnd). symmetry.
  apply Permutation_map. apply sorted_desc_perm.
Qed.

(** With non-negative importances, the table is sorted by weight and its
    keys are distinct. *)
Lemma feature_importance_sorted (B : Backend) (r : ref) (w w' : World)
    (res : ModelResult B) :
  (forall forest,
      Forall (fun x => F64.ge x F64.zero = true)
             (rf_feature_importances B forest)) ->
  train_model B r w = (Ok res, w') ->
  List.NoDup (map fst (feature_importance res)) /\
  Sorted (fun a b => F64.ge (snd a) (snd b) = true) (feature_importance res).
Proof.
  intros Hpos H.
  destruct (feature_importance_table _ _ _ _ _ H)
    as (df & x & _ & _ & _ & Hnd & Htab).
  rewrite Htab. split.
  - rewrite map_firstn. apply firstn_NoDup.
    refine (Permutation_NoDup _ Hnd). symmetry.
    apply Permutation_map. apply sorted_desc_perm.
  - apply Sorted_firstn, sorted_desc_Sorted.
    apply List.Forall_forall. intros [k wk] Hkv. simpl.
    unfold encoded_importances in Hkv. apply in_combine_r in Hkv.
    pose proof (Hpos (named_steps_model (model res))) as Hall.
    rewrite List.Forall_forall in Hall. exact (ge_number _ _ (Hall wk Hkv)).
Qed.

(** *** A run, step by step *)

Lemma alloc_ok (df : DataFrame) (w w' : World) (r : ref) :
  alloc df w = (Ok r, w') ->
  r = length (heap w) /\
  w' = {| heap := (heap w ++ [df])%list; files := files w;
          written := written w; log := log w |}.
Proof. unfold alloc. intros [= <- <-]. auto. Qed.

(** Item assignment on the newest object. *)
Lemma df_setitem_last_ok (name : string) (col : column) (h : list DataFrame)
    (df : DataFrame) fs wr lg (u : unit) (w' : World) :
  df_setitem (length h) name col
    {| heap := (h ++ [df])%list; files := fs; written := wr; log := lg |}
    = (Ok u, w') ->
  (col_length col = nrows df \/ df = []) /\
  w' = {| heap := (h ++ [set_column name col df])%list; files := fs;
          written := wr; log := (lg ++ [EvSetItem (length h) name])%list |}.
Proof.
  unfold df_setitem. erewrite bind_step; [|apply deref_run; simpl; apply lookup_snoc].
  assert (Hstore : forall w1,
             (emit (EvSetItem (length h) name)
                ≫= fun _ => store (length h) (set_column name col df))
               {| heap := (h ++ [df])%list; files := fs; written := wr;
                  log := lg |} = (Ok u, w1) ->
             w1 = {| heap := (h ++ [set_column name col df])%list; files := fs;
                     written := wr;
                     log := (lg ++ [EvSetItem (length h) name])%list |}).
  { intros w1 H. apply bind_ok in H. destruct H as (u' & w2 & He & H).
    apply emit_ok in He. subst w2. unfold store in H.
    injection H as _ <-. cbn [heap files written log].
    rewrite insert_snoc. reflexivity. }
  destruct (Nat.eqb (col_length col) (nrows df)) eqn:E1; simpl.
  - apply Nat.eqb_eq in E1. intros H. split; [auto | exact (Hstore _ H)].
  - destruct (Nat.eqb (length df) 0) eqn:E2; simpl; [|discriminate].
    apply Nat.eqb_eq in E2. destruct df; [|discriminate].
    intros H. split; [auto | exact (Hstore _ H)].
Qed.

Lemma get_set_column (name : string) (col : column) (df : DataFrame) :
  get_column name (set_column name col df) = Ok col.
Proof.
  induction df as [|[n c] df IH]; simpl.
  - rewrite String.eqb_refl. reflexivity.
  - destruct (String.eqb n name) eqn:E; simpl; rewrite E; auto.
Qed.

(** The file at a path after a write there, and the files elsewhere. *)
Lemma assoc_dict_set {V} (k : string) (v : V) (d : dict V) :
  assoc k (dict_set k v d) = Some v.
Proof.
  induction d as [|[k' v'] d IH]; simpl.
  - rewrite String.eqb_refl. reflexivity.
  - destruct (String.eqb k' k) eqn:E; simpl; rewrite E; auto.
Qed.


Lemma to_csv_last_ok (path : string) (h : list DataFrame) (df : DataFrame)
    fs wr lg (u : unit) (w' : World) :
  to_csv (length h) path
    {| heap := (h ++ [df])%list; files := fs; written := wr; log := lg |}
    = (Ok u, w') ->
  w' = {| heap := (h ++ [df])%list; files := dict_set path df fs;
          written := (path, df) :: wr;
          log := (lg ++ [EvToCsv path])%list |}.
Proof.
  unfold to_csv. erewrite bind_step; [|apply deref_run; simpl; apply lookup_snoc].
  intros [= _ <-]. reflexivity.
Qed.

(** What a successful run has done: the input, the training frame, the
    model, the raw scores, and the frame written. *)
Lemma run_pipeline_inv (B : Backend) (input_path : option string)
    (output_path : string) (flag : bool) (rows : Z) (w w' : World)
    (res : ModelResult B) :
  run_pipeline B input_path output_path flag rows w = (Ok res, w') ->
  exists df w1 training_df w2 w3 raw w4 frame selected,
    load_input B input_path flag rows w = (Ok df, w1) /\
    _prepare_training_data df w1 = (Ok training_df, w2) /\
    train_model B training_df w2 = (Ok res, w3) /\
    score B (model res) df w3 = (Ok raw, w4) /\
    heap w4 !! df = Some frame /\
    select output_columns frame = Ok selected /\
    length raw = nrows selected /\
    w' = {| heap := (heap w4
                     ++ [output_frame selected raw (feature_importance res)])%list;
            files := dict_set output_path
                       (output_frame selected raw (feature_importance res))
                       (files w4);
            written := (output_path,
                        output_frame selected raw (feature_importance res))
                         :: written w4;
            log := (log w4
                    ++ [EvSelectCopy df (length (heap w4));
                        EvSetItem (length (heap w4)) "risk_score";
                        EvSetItem (length (heap w4)) "risk_band";
                        EvSetItem (length (heap w4)) "top_driver";
                        EvMkdirParent output_path;
                        EvToCsv output_path])%list |}.
Proof.
  unfold run_pipeline. fold (load_input B input_path flag rows). intros H.
  apply bind_ok in H. destruct H as (df & w1 & Hload & H).
  apply bind_ok in H. destruct H as (tr & w2 & Hprep & H).
  apply bind_ok in H. destruct H as (res' & w3 & Htrain & H).
  apply bind_ok in H. destruct H as (raw & w4 & Hscore & H).
  apply bind_ok in H. destruct H as (frame & w5 & Hd & H).
  apply deref_ok in Hd. destruct Hd as [Hframe E]. subst w5.
  apply bind_ok in H. destruct H as (selected & w5 & Hs & H).
  apply lift_ok in Hs. destruct Hs as [Hsel E]. subst w5.
  apply bind_ok in H. destruct H as (output & w5 & Ha & H).
  apply alloc_ok in Ha. destruct Ha as [E1 E2]. subst output w5.
  apply bind_ok in H. destruct H as (u0 & w5 & He & H).
  apply emit_ok in He. subst w5. cbn [heap files written log] in H.
  apply bind_ok in H. destruct H as (u1 & w5 & Hset & H).
  apply df_setitem_last_ok in Hset. destruct Hset as [Hlen E]. subst w5.
  apply bind_ok in H. destruct H as (out & w5 & Hd & H).
  apply deref_ok in Hd. destruct Hd as [Hout E]. subst w5.
  simpl in Hout. rewrite lookup_snoc in Hout. injection Hout as <-.
  apply bind_ok in H. destruct H as (bands & w5 & Hb & H).
  apply lift_ok in Hb. destruct Hb as [Hb E]. subst w5.
  rewrite get_set_column in Hb. simpl in Hb. injection Hb as <-.
  apply bind_ok in H. destruct H as (u2 & w5 & Hset & H).
  apply df_setitem_last_ok in Hset. destruct Hset as [_ E]. subst w5.
  apply bind_ok in H. destruct H as (out & w5 & Hd & H).
  apply deref_ok in Hd. destruct Hd as [Hout E]. subst w5.
  simpl in Hout. rewrite lookup_snoc in Hout. injection Hout as <-.
  apply bind_ok in H. destruct H as (u3 & w5 & Hset & H).
  apply df_setitem_last_ok in Hset. destruct Hset as [_ E]. subst w5.
  apply bind_ok in H. destruct H as (u4 & w5 & Hmk & H).
  apply emit_ok in Hmk. subst w5. cbn [heap files written log] in H.
  apply bind_ok in H. destruct H as (u5 & w5 & Hcsv & H).
  apply to_csv_last_ok in Hcsv. subst w5.
  apply mret_ok in H. destruct H as [E1 E2]. subst res' w'.
  exists df, w1, tr, w2, w3, raw, w4, frame, selected.
  repeat (split; [assumption|]). split.
  - destruct Hlen as [Hlen | Hnil].
    + simpl in Hlen. rewrite length_map in Hlen. exact Hlen.
    + subst selected. unfold select in Hsel.
      apply result_map_length in Hsel. discriminate Hsel.
  - unfold output_frame. rewrite <- !app_assoc. reflexivity.
Qed.

(** *** The tag and the frame written *)

Lemma prefix_occurs (old s : string) :
  String.prefix old s = true -> exists post, s = old ++ post.
Proof.
  revert s. induction old as [|c old IH]; intros s.
  - intros _. exists s. reflexivity.
  - destruct s as [|d s]; simpl; [discriminate|].
    destruct (Ascii.ascii_dec c d) as [->|]; [|discriminate].
    intros H. destruct (IH s H) as [post ->]. exists post. reflexivity.
Qed.

(** Replacing a text that does not occur changes nothing. *)
Lemma str_replace_absent (s old new : string) :
  ~ occurs old s -> str_replace s old new = s.
Proof.
  unfold str_replace. induction s as [|c s IH]; intros H; [reflexivity|].
  cbn [str_replace_go].
  destruct (String.prefix old (String c s)) eqn:E.
  - exfalso. apply H. destruct (prefix_occurs _ _ E) as [post Hpost].
    exists "", post. exact Hpost.
  - f_equal. apply IH. intros (pre & post & ->). apply H.
    exists (String c pre), post. reflexivity.
Qed.

Lemma strip_prefixes_absent (k : string) :
  ~ occurs "cat__" k -> ~ occurs "num__" k -> strip_prefixes k = k.
Proof.
  intros H1 H2. unfold strip_prefixes.
  rewrite (str_replace_absent k "cat__" "" H1).
  apply str_replace_absent. exact H2.
Qed.

(** On a table sorted by weight with distinct keys, the summary is the
    first key, stripped. *)
Lemma top_driver_summary_first (k : string) (wk : float)
    (rest : list (string * float)) :
  List.NoDup (map fst ((k, wk) :: rest)) ->
  Sorted (fun a b => F64.ge (snd a) (snd b) = true) ((k, wk) :: rest) ->
  _top_driver_summary ((k, wk) :: rest) = strip_prefixes k.
Proof.
  intros Hnd Hs. unfold _top_driver_summary, dict_keys. simpl map.
  cbv iota beta. fold (strip_prefixes
                         (max_by (dict_weight ((k, wk) :: rest)) k
                                 (map fst rest))).
  f_equal. apply max_by_head.
  pose proof (Sorted_ge_all snd _ _ Hs) as Hall. simpl in Hall.
  assert (Hk : dict_weight ((k, wk) :: rest) k = wk).
  { unfold dict_weight. simpl. rewrite String.eqb_refl. reflexivity. }
  rewrite Hk. apply List.Forall_forall. intros k' Hk'.
  apply in_map_iff in Hk'. destruct Hk' as ([k'' w'] & E & Hin).
  simpl in E. subst k''.
  unfold dict_weight.
  rewrite (dict_get_In ((k, wk) :: rest) k' w' Hnd (or_intror Hin)).
  rewrite List.Forall_forall in Hall. exact (Hall (k', w') Hin).
Qed.

(** The frame written has the rows of the selected columns, and its tag
    column holds one tag. *)
Lemma output_frame_top_driver (frame selected : DataFrame) (raw : list float)
    (importances : dict float) :
  select output_columns frame = Ok selected ->
  nrows (output_frame selected raw importances) = nrows selected /\
  get_column "top_driver" (output_frame selected raw importances)
    = Ok (StrCol (replicate (nrows selected)
                            (_top_driver_summary importances))).
Proof.
  intros Hsel. pose proof (select_columns _ _ _ Hsel) as Hc.
  destruct selected as [|[n c] rest]; [discriminate Hc|].
  injection Hc as -> _. unfold output_frame.
  rewrite get_set_column. split; reflexivity.
Qed.

(** *** Reading the input *)

Lemma append_assoc (a b c : string) : (a ++ b) ++ c = a ++ (b ++ c).
Proof. induction a as [|x a IH]; simpl; [reflexivity | f_equal; exact IH]. Qed.

Lemma occurs_refl (c : string) : occurs c c.
Proof.
  exists "", "". simpl. induction c as [|x c IH]; simpl; [reflexivity|].
  f_equal. exact IH.
Qed.

Lemma occurs_app_l (c s t : string) : occurs c s -> occurs c (s ++ t).
Proof.
  intros (pre & post & ->). exists pre, (post ++ t).
  rewrite !append_assoc. reflexivity.
Qed.

Lemma occurs_app_r (c s t : string) : occurs c t -> occurs c (s ++ t).
Proof.
  intros (pre & post & ->). exists (s ++ pre), post.
  rewrite !append_assoc. reflexivity.
Qed.

(** Every item occurs in the joined text. *)
Lemma occurs_join (sep c : string) (l : list string) :
  In c l -> occurs c (str_join sep l).
Proof.
  unfold str_join. induction l as [|x l IH]; simpl; [contradiction|].
  destruct l as [|y l].
  - intros [-> | []]. apply occurs_refl.
  - intros [-> | H].
    + apply occurs_app_l, occurs_refl.
    + apply occurs_app_r, occurs_app_r, IH, H.
Qed.

Lemma read_csv_run (path : string) (w : World) (df : DataFrame) :
  assoc path (files w) = Some df ->
  read_csv path w
    = (Ok (length (heap w)),
       {| heap := (heap w ++ [df])%list; files := files w;
          written := written w; log := (log w ++ [EvReadCsv path])%list |}).
Proof.
  intros H. unfold read_csv, emit, open_file, alloc.
  rewrite !bind_run. simpl. rewrite H. reflexivity.
Qed.

Lemma read_csv_missing (path : string) (w : World) :
  assoc path (files w) = None ->
  read_csv path w
    = (Raise (FileNotFoundError path),
       {| heap := heap w; files := files w; written := written w;
          log := (log w ++ [EvReadCsv path])%list |}).
Proof.
  intros H. unfold read_csv, emit, open_file, alloc.
  rewrite !bind_run. simpl. rewrite H. reflexivity.
Qed.

(** [load_csv] on a file that exists. *)
Lemma load_csv_run (path : string) (w : World) (df : DataFrame) :
  assoc path (files w) = Some df ->
  load_csv path w
    = (match missing_columns df with
       | [] => Ok (length (heap w))
       | _ :: _ =>
           Raise (ValueError ("Missing required columns: "
                              ++ str_join ", " (missing_columns df)))
       end,
       {| heap := (heap w ++ [df])%list; files := files w;
          written := written w; log := (log w ++ [EvReadCsv path])%list |}).
Proof.
  intros H. unfold load_csv.
  rewrite (bind_step _ _ _ _ _ (read_csv_run _ _ _ H)).
  erewrite bind_step; [|apply deref_run; simpl; apply lookup_snoc].
  fold (missing_columns df). destruct (missing_columns df); reflexivity.
Qed.

Lemma filter_nil_Forall {A} (f : A -> bool) (l : list A) :
  List.filter f l = [] <-> Forall (fun x => f x = false) l.
Proof.
  induction l as [|x l IH]; simpl.
  - split; [constructor | reflexivity].
  - destruct (f x) eqn:E.
    + split; [discriminate|]. intros H. inversion H; congruence.
    + rewrite IH. split; [constructor; assumption|].
      intros H. inversion H; assumption.
Qed.

(** *** The risk bander's thresholds *)

Lemma ge_07_ge_04 (s : float) :
  F64.ge s (F64.dec 7 10) = true -> F64.ge s (F64.dec 4 10) = true.
Proof.
  unfold F64.ge, SFleb.
  replace (F64.dec 7 10) with (S754_finite false 6305039478318694 (-53))
    by (vm_compute; reflexivity).
  replace (F64.dec 4 10) with (S754_finite false 7205759403792794 (-54))
    by (vm_compute; reflexivity).
  destruct s as [sg|sg| |sg m e];
    cbn -[Z.compare Pos.compare_cont]; try congruence.
  destruct sg; [congruence|].
  destruct (Z.compare_spec (-53) e) as [E|E|E];
    destruct (Z.compare_spec (-54) e) as [E'|E'|E']; try (exfalso; clear - E E'; lia); congruence.
Qed.

(** C1.  For every score (a float that is a number), the band is "High"
    exactly when the score is >= 0.7, "Medium" exactly when it is >= 0.4
    and < 0.7, and "Low" exactly when it is < 0.4; at the four boundary
    literals 0.7, 0.6999, 0.4 and 0.3999 the band is High, Medium, Medium
    and Low. *)
Theorem infer_risk_band_thresholds (s : float) :
  F64.is_nan s = false ->
  (_infer_risk_band s = "High" <-> F64.ge s (F64.dec 7 10) = true) /\
  (_infer_risk_band s = "Medium" <->
     F64.ge s (F64.dec 4 10) = true /\ F64.lt s (F64.dec 7 10) = true) /\
  (_infer_risk_band s = "Low" <-> F64.lt s (F64.dec 4 10) = true) /\
  _infer_risk_band (F64.dec 7 10) = "High" /\
  _infer_risk_band (F64.dec 6999 10000) = "Medium" /\
  _infer_risk_band (F64.dec 4 10) = "Medium" /\
  _infer_risk_band (F64.dec 3999 10000) = "Low".
Proof.
  intros Hs.
  assert (H7 : F64.is_nan (F64.dec 7 10) = false) by reflexivity.
  assert (H4 : F64.is_nan (F64.dec 4 10) = false) by reflexivity.
  pose proof (ge_07_ge_04 s) as Hmono.
  unfold _infer_risk_band.
  split; [split|split; [split|split; [split|repeat split; vm_compute; exact eq_refl]]].
  - destruct (F64.ge s (F64.dec 7 10)); [reflexivity|].
    destruct (F64.ge s (F64.dec 4 10)); discriminate.
  - intros ->. reflexivity.
  - destruct (F64.ge s (F64.dec 7 10)) eqn:E7; [discriminate|].
    destruct (F64.ge s (F64.dec 4 10)) eqn:E4; [|discriminate].
    intros _. split; [reflexivity|]. apply ge_false_lt; assumption.
  - intros [E4 E7]. rewrite (lt_ge_false _ _ E7), E4. reflexivity.
  - destruct (F64.ge s (F64.dec 7 10)) eqn:E7; [discriminate|].
    destruct (F64.ge s (F64.dec 4 10)) eqn:E4; [discriminate|].
    intros _. apply ge_false_lt; assumption.
  - intros E4. pose proof (lt_ge_false _ _ E4) as G4.
    destruct (F64.ge s (F64.dec 7 10)) eqn:E7.
    + rewrite (Hmono eq_refl) in G4. discriminate.
    + rewrite G4. reflexivity.
Qed.

Lemma infer_risk_band_thresholds_witness :
  F64.is_nan (F64.dec 55 100) = false /\
  _infer_risk_band (F64.dec 55 100) = "Medium".
Proof.
  split; [reflexivity|].
  destruct (infer_risk_band_thresholds (F64.dec 55 100) eq_refl)
    as (_ & [_ HM] & _).
  apply HM. split; vm_compute; exact eq_refl.
Defined.

(** *** The synthesized label *)

Lemma series_add_lookup (a b : list Z) (i : nat) (x y : Z) :
  a !! i = Some x -> b !! i = Some y -> series_add a b !! i = Some (x + y).
Proof.
  revert b i. induction a as [|x' a IH]; intros [|y' b] [|i]; simpl;
    try discriminate.
  - intros [= ->] [= ->]. reflexivity.
  - apply IH.
Qed.

Lemma series_add_length (n : nat) (a b : list Z) :
  length a = n -> length b = n -> length (series_add a b) = n.
Proof.
  revert n b. induction a as [|x a IH]; intros n [|y b]; simpl;
    intros <-; try discriminate.
  - reflexivity.
  - intros [= H]. f_equal. apply IH; auto.
Qed.

Lemma numeric_column_length (n : nat) (name : string) (df : DataFrame) cells :
  rectangular n df -> numeric_column name df cells -> length cells = n.
Proof.
  intros Hrect (c & Hget & Hnums).
  assert (Hc : col_length c = n).
  { clear Hnums. induction Hrect as [|[k c'] df Hk _ IH]; simpl in Hget.
    - discriminate.
    - destruct (String.eqb k name); [injection Hget as <-; exact Hk | auto]. }
  destruct c; simpl in Hnums, Hc; try discriminate;
    injection Hnums as <-; rewrite length_map; exact Hc.
Qed.

Lemma nrows_rectangular (n : nat) (df : DataFrame) :
  rectangular n df -> df <> [] -> nrows df = n.
Proof.
  intros Hrect Hne. destruct Hrect as [|[k c] df Hk _]; [congruence|exact Hk].
Qed.

(** The heuristic column by rows. *)
Lemma heuristic_rows (df : DataFrame) (n : nat) (e o a p : list num) :
  rectangular n df ->
  numeric_column "engagement_score" df e ->
  numeric_column "overtime_hours_month" df o ->
  numeric_column "absenteeism_days_month" df a ->
  numeric_column "last_promotion_months" df p ->
  exists h, heuristic df = Ok h /\ length h = n /\
    forall i ei oi ai pi,
      e !! i = Some ei -> o !! i = Some oi ->
      a !! i = Some ai -> p !! i = Some pi ->
      h !! i = Some ((if num_lt ei 60 then 1 else 0)
                     + (if num_gt oi 12 then 1 else 0)
                     + (if num_gt ai 3 then 1 else 0)
                     + (if num_gt pi 36 then 1 else 0)).
Proof.
  intros Hrect He Ho Ha Hp.
  pose proof (numeric_column_length _ _ _ _ Hrect He) as Le.
  pose proof (numeric_column_length _ _ _ _ Hrect Ho) as Lo.
  pose proof (numeric_column_length _ _ _ _ Hrect Ha) as La.
  pose proof (numeric_column_length _ _ _ _ Hrect Hp) as Lp.
  destruct He as (ce & Ge & Ne), Ho as (co & Go & No),
           Ha as (ca & Ga & Na), Hp as (cp & Gp & Np).
  unfold heuristic. rewrite Ge, Go, Ga, Gp. simpl.
  unfold series_lt, series_gt. rewrite Ne, No, Na, Np. simpl.
  eexists. split; [reflexivity|]. split.
  - unfold bools_astype_int.
    repeat apply series_add_length; rewrite !length_map; assumption.
  - intros i ei oi ai pi Ei Oi Ai Pi.
    unfold bools_astype_int.
    apply series_add_lookup; [apply series_add_lookup;
                                [apply series_add_lookup|]|];
      (erewrite map_lookup; [|erewrite map_lookup; [reflexivity|eassumption]]);
      reflexivity.
Qed.

(** C2.  When the frame has no label column, label preparation returns a
    new frame that is the input with one more column, the label; the
    label of each record is the function of its four signals that the
    specification describes: a counter gets one for each of engagement
    score < 60, monthly overtime > 12, monthly absenteeism > 3 and months
    since promotion > 36, and the label is 1 when the counter is at least
    2, else 0.  Being the value of a function of the record's four cells,
    it is the same for identical records.  The two records of the
    specification's example get labels 1 and 0. *)
Theorem prepare_training_data_synthesizes_label
    (w : World) (r : ref) (df : DataFrame) (n : nat) (e o a p : list num) :
  heap w !! r = Some df ->
  has_column "exit_flag" df = false ->
  rectangular n df ->
  numeric_column "engagement_score" df e ->
  numeric_column "overtime_hours_month" df o ->
  numeric_column "absenteeism_days_month" df a ->
  numeric_column "last_promotion_months" df p ->
  exists labels w',
    _prepare_training_data r w = (Ok (length (heap w)), w') /\
    heap w' !! length (heap w)
      = Some (set_column "exit_flag" (IntCol labels) df) /\
    length labels = n /\
    (forall i ei oi ai pi,
        e !! i = Some ei -> o !! i = Some oi ->
        a !! i = Some ai -> p !! i = Some pi ->
        labels !! i = Some (synthesize_label ei oi ai pi)) /\
    synthesize_label (NInt 50) (NInt 15) (NInt 1) (NInt 10) = 1 /\
    synthesize_label (NInt 80) (NInt 5) (NInt 1) (NInt 10) = 0.
Proof.
  intros Hr Hno Hrect He Ho Ha Hp.
  destruct (heuristic_rows df n e o a p Hrect He Ho Ha Hp)
    as (h & Hh & Lh & Hrows).
  assert (Hne : df <> []).
  { destruct He as (c & G & _). exact (get_column_nonempty _ _ _ G). }
  exists (bools_astype_int (series_ge h 2)). eexists.
  split; [|split; [|split; [|split; [|split; reflexivity]]]].
  - unfold _prepare_training_data.
    rewrite (bind_step _ _ _ _ _ (deref_run _ _ _ Hr)). rewrite Hno.
    rewrite Hh. rewrite (bind_step _ _ _ _ _ (lift_run _ _)).
    rewrite (bind_step _ _ _ _ _ (df_copy_run _ _ _ Hr)).
    erewrite (bind_step _ _ _ _ _ (df_setitem_run _ _ _ _ df _ _)).
    + reflexivity.
  - simpl. rewrite insert_snoc. apply lookup_snoc.
  - unfold bools_astype_int, series_ge. rewrite !length_map. exact Lh.
  - intros i ei oi ai pi Ei Oi Ai Pi.
    unfold bools_astype_int, series_ge.
    erewrite map_lookup; [|erewrite map_lookup; [reflexivity|eauto]].
    reflexivity.
  Unshelve.
  + simpl. apply lookup_snoc.
  + left. simpl. unfold bools_astype_int, series_ge. rewrite !length_map.
    rewrite Lh. symmetry. apply nrows_rectangular; assumption.
Qed.
Lemma prepare_training_data_synthesizes_label_witness :
  (heap Demo.world !! 0%nat = Some Demo.table /\
   has_column "exit_flag" Demo.table = false /\
   rectangular 3 Demo.table) /\
  exists labels w',
    _prepare_training_data 0%nat Demo.world = (Ok 1%nat, w') /\
    heap w' !! 1%nat
      = Some (set_column "exit_flag" (IntCol labels) Demo.table) /\
    length labels = 3%nat /\
    labels !! 2%nat
      = Some (synthesize_label (NFloat (F64.dec 555 10))
                (NFloat (F64.dec 205 10)) (NFloat (F64.of_Z 4)) (NInt 5)).
Proof.
  assert (R : rectangular 3 Demo.table) by (repeat constructor).
  split; [split; [reflexivity|split; [reflexivity|exact R]]|].
  destruct (prepare_training_data_synthesizes_label Demo.world 0%nat Demo.table 3%nat
              (map NFloat [F64.of_Z 50; F64.of_Z 80; F64.dec 555 10])
              (map NFloat [F64.of_Z 15; F64.of_Z 5; F64.dec 205 10])
              (map NFloat [F64.of_Z 1; F64.of_Z 1; F64.of_Z 4])
              (map NInt [10; 40; 5])
              eq_refl eq_refl R)
    as (labels & w' & Hrun & Hheap & Hlen & Hrows & _);
    try (eexists; split; reflexivity).
  exists labels, w'. repeat split; try assumption.
  apply Hrows; reflexivity.
Defined.

(** *** Levels not seen at fit *)

(** C3.  Encoding a collection with the encoder state fitted on a training
    collection: whenever the collection has the numeric and categorical
    fields, the transform does not raise; the number of encoded columns
    is the one fixed at fit (the numeric fields and one indicator column
    per fitted level), whatever levels the collection holds; and for a
    record whose level of a categorical field was not observed at fit,
    every indicator column of that field is zero in that record. *)
Theorem unseen_level_encodes_to_zeros
    (B : Backend) (cat num : list string) (train x : DataFrame)
    (ct : ColumnTransformer) :
  ct_fit B (_build_pipeline cat num) train = Ok ct ->
  (forall name, In name num -> exists xs, numeric_values name x = Ok xs) ->
  (forall name, In name cat -> exists vs, string_values name x = Ok vs) ->
  exists nums blocks,
    ct_transform ct x = Ok (nums ++ concat blocks)%list /\
    length (nums ++ concat blocks)%list
      = length (num ++ get_feature_names_out (transformer_cat ct) cat)%list /\
    forall k field tvals vals i v,
      cat !! k = Some field ->
      string_values field train = Ok tvals ->
      string_values field x = Ok vals ->
      vals !! i = Some v -> ~ In v tvals ->
      exists block,
        blocks !! k = Some block /\
        length block = length (sorted_unique tvals) /\
        forall col, In col block -> col !! i = Some F64.zero.
Proof.
  intros Hfit Hnum Hcat.
  destruct (ct_fit_inv _ _ _ _ Hfit) as (stats & levels & Hs & Hl & ->).
  simpl in Hs, Hl. unfold ct_transform. simpl.
  pose proof (result_map_length _ _ _ Hs) as Ls.
  (* the scaled numeric columns *)
  destruct (result_map_total
              (fun '(name, mean, scale) =>
                 xs ← numeric_values name x; Ok (scale_column mean scale xs))
              (zip3 num (map fst stats) (map snd stats)))
    as [nums Hnums].
  { intros [[name m] s] Hin. apply zip3_In in Hin.
    destruct (Hnum name Hin) as [xs ->]. simpl. eauto. }
  (* the indicator blocks *)
  set (g := fun '(name, lv) =>
              vs ← string_values name x; onehot_block HU_ignore lv vs).
  destruct (result_map_total g (combine cat levels)) as [blocks Hblocks].
  { intros [name lv] Hin. apply in_combine_l in Hin.
    destruct (Hcat name Hin) as [vs Hvs]. unfold g. rewrite Hvs. simpl. eauto. }
  exists nums, blocks. split; [|split].
  - rewrite Hnums. simpl.
    match goal with
    | |- context [result_map ?f (combine cat levels)] => change f with g
    end.
    rewrite Hblocks. reflexivity.
  - rewrite !length_app. f_equal.
    + rewrite (result_map_length _ _ _ Hnums).
      apply zip3_length; rewrite length_map; exact Ls.
    + unfold get_feature_names_out. simpl.
      apply (concat_blocks_length g _ _ _ Hblocks).
      intros [name lv] b _. unfold g.
      destruct (string_values name x); simpl; [|discriminate].
      intros [= <-]. rewrite !length_map. reflexivity.
  - intros k field tvals vals i v Hk Ht Hv Hi Hunseen.
    destruct (result_map_lookup _ _ _ _ _ Hl Hk) as (lv & Hlv & Hlk).
    rewrite Ht in Hlv. simpl in Hlv. injection Hlv as <-.
    pose proof (combine_lookup _ _ _ _ _ Hk Hlk) as Hc.
    destruct (result_map_lookup _ _ _ _ _ Hblocks Hc) as (block & Hb & Hbk).
    unfold g in Hb. rewrite Hv in Hb. simpl in Hb. injection Hb as <-.
    eexists. split; [exact Hbk|]. split; [apply length_map|].
    intros col Hcol.
    apply (onehot_unseen_zero (sorted_unique tvals) vals i v col Hi);
      [|exact Hcol].
    rewrite sorted_unique_In. exact Hunseen.
Qed.
Lemma unseen_level_encodes_to_zeros_witness :
  ct_fit Demo.B (_build_pipeline Demo.cat_features Demo.num_features) Demo.table
    = Ok Demo.fitted /\
  exists nums blocks block,
    ct_transform Demo.fitted Demo.table_unseen = Ok (nums ++ concat blocks)%list /\
    length (nums ++ concat blocks)%list = 13%nat /\
    blocks !! 0%nat = Some block /\ length block = 2%nat /\
    forall col, In col block -> col !! 0%nat = Some F64.zero.
Proof.
  assert (Hfit : ct_fit Demo.B
                   (_build_pipeline Demo.cat_features Demo.num_features)
                   Demo.table = Ok Demo.fitted) by (vm_compute; reflexivity).
  split; [exact Hfit|].
  destruct (unseen_level_encodes_to_zeros Demo.B Demo.cat_features
              Demo.num_features Demo.table Demo.table_unseen Demo.fitted Hfit)
    as (nums & blocks & Hrun & Hlen & Hzero).
  - intros name H. simpl in H.
    repeat (destruct H as [<- | H]; [eexists; vm_compute; reflexivity|]).
    contradiction.
  - intros name H. simpl in H.
    repeat (destruct H as [<- | H]; [eexists; vm_compute; reflexivity|]).
    contradiction.
  - destruct (Hzero 0%nat "dept" ["HR"; "num__ops"; "HR"]
                ["Legal"; "HR"; "Legal"] 0%nat "Legal")
      as (block & Hb & Hbl & Hbz); try reflexivity.
    + simpl. intros [H | [H | [H | []]]]; discriminate.
    + exists nums, blocks, block. repeat split; assumption.
Defined.

(** *** The keys of the importance table *)

(** C4, as the code behaves.  The keys of the importance table of a
    trained model are names of encoded columns: a key is a required
    numeric field of the frame, or the name of a categorical field
    followed by an underscore and one of the levels of that field in the
    frame.  Indicator columns are reported under their own expanded
    names; they are not mapped back to the field they expand. *)
Theorem feature_importance_keys_are_encoded_columns
    (B : Backend) (r : ref) (w w' : World) (res : ModelResult B) :
  train_model B r w = (Ok res, w') ->
  exists df depts bands,
    heap w !! r = Some df /\
    get_column "dept" df = Ok (StrCol depts) /\
    get_column "salary_band" df = Ok (StrCol bands) /\
    forall k, In k (dict_keys (feature_importance res)) ->
      (In k [ "tenure_months"; "last_promotion_months"; "manager_span";
              "overtime_hours_month"; "engagement_score";
              "absenteeism_days_month"; "peer_turnover_rate";
              "performance_score"; "internal_mobility" ]
       /\ has_column k df = true)
      \/ (exists level, In level depts /\ k = "dept" ++ "_" ++ level)
      \/ (exists level, In level bands /\ k = "salary_band" ++ "_" ++ level).
Proof.
  intros H.
  destruct (feature_importance_table _ _ _ _ _ H)
    as (df & x & Hd & Hx & Hct & _ & Htab).
  destruct (ct_fit_categories _ _ _ _ Hct) as (depts & bands & Hde & Hba & _ & Hn).
  exists df, depts, bands.
  split; [exact Hd|]. split; [exact (string_values_select _ _ _ _ _ Hx Hde)|].
  split; [exact (string_values_select _ _ _ _ _ Hx Hba)|].
  intros k Hk. unfold dict_keys in Hk. rewrite Htab in Hk.
  apply in_map_iff in Hk. destruct Hk as ([k' wk] & E & Hk). simpl in E. subst k'.
  apply firstn_In in Hk.
  apply (Permutation_in _ (sorted_desc_perm snd _)) in Hk.
  unfold encoded_importances in Hk. apply in_combine_l in Hk.
  rewrite Hn in Hk. rewrite !in_app_iff in Hk.
  destruct Hk as [Hk | [Hk | Hk]].
  - left. exact (train_num_features_In _ _ Hk).
  - right. left. apply in_map_iff in Hk. destruct Hk as (l & <- & Hl).
    exists l. split; [|reflexivity]. apply sorted_unique_In. exact Hl.
  - right. right. apply in_map_iff in Hk. destruct Hk as (l & <- & Hl).
    exists l. split; [|reflexivity]. apply sorted_unique_In. exact Hl.
Qed.

Lemma feature_importance_keys_are_encoded_columns_witness :
  exists res w',
    train_model Demo.B 0%nat Demo.world_labelled = (Ok res, w') /\
    forall k, In k (dict_keys (feature_importance res)) ->
      (In k Demo.num_features /\ has_column k Demo.table_labelled = true)
      \/ (exists level, In level ["HR"; "num__ops"; "HR"]
                        /\ k = "dept" ++ "_" ++ level)
      \/ (exists level, In level ["A"; "B"; "A"]
                        /\ k = "salary_band" ++ "_" ++ level).
Proof.
  destruct (train_model Demo.B 0%nat Demo.world_labelled) as [[res|e] w'] eqn:E;
    [|vm_compute in E; discriminate E].
  exists res, w'. split; [reflexivity|].
  destruct (feature_importance_keys_are_encoded_columns _ _ _ _ _ E)
    as (df & depts & bands & Hd & Hde & Hba & Hkeys).
  injection Hd as <-. injection Hde as <-. injection Hba as <-.
  exact Hkeys.
Defined.

(** A table with a key that is not a field of the input: the indicator
    column of the department level HR keeps its expanded name. *)
Lemma feature_importance_key_not_a_field :
  exists res w',
    train_model Demo.B 0%nat Demo.world_labelled = (Ok res, w') /\
    In "dept_HR" (dict_keys (feature_importance res)) /\
    ~ In "dept_HR" (columns Demo.table_labelled) /\
    ~ In "dept_HR" REQUIRED_COLUMNS.
Proof.
  destruct (train_model Demo.B 0%nat Demo.world_labelled) as [[res|e] w'] eqn:E;
    [|vm_compute in E; discriminate E].
  exists res, w'. split; [reflexivity|].
  vm_compute in E. injection E as <- <-.
  split; [simpl; tauto|].
  split; simpl; intuition discriminate.
Qed.

(** *** The order of the importance table *)

(** C5.  When the forest's importances are non-negative (as those of a
    random forest are), the importance table of a trained model has at
    most 8 entries; its weights are non-negative; each weight is at least
    the next one; and two entries of equal weight are in the order of
    their encoded columns, numeric fields in their order and then the
    indicator columns in fitted order.  Every entry is an encoded column
    with its weight. *)
Theorem feature_importance_table_ordered
    (B : Backend) (r : ref) (w w' : World) (res : ModelResult B) :
  (forall forest,
      Forall (fun x => F64.ge x F64.zero = true)
             (rf_feature_importances B forest)) ->
  train_model B r w = (Ok res, w') ->
  exists df,
    heap w !! r = Some df /\
    (length (feature_importance res) <= 8)%nat /\
    Forall (fun kv => F64.ge (snd kv) F64.zero = true)
           (feature_importance res) /\
    non_increasing snd (feature_importance res) /\
    (forall kv, In kv (feature_importance res) ->
       In kv (encoded_importances B (model res) train_cat_features
                (train_num_features df))) /\
    (forall a b,
       before a b (feature_importance res) ->
       F64.eqb (snd a) (snd b) = true ->
       before a b (encoded_importances B (model res) train_cat_features
                     (train_num_features df))).
Proof.
  intros Hpos H.
  destruct (feature_importance_table _ _ _ _ _ H)
    as (df & x & Hd & _ & _ & _ & Htab).
  exists df. split; [exact Hd|]. rewrite Htab.
  set (encoded := encoded_importances B (model res) train_cat_features
                    (train_num_features df)).
  assert (Hin : forall kv, In kv (firstn 8 (sorted_desc snd encoded)) ->
                           In kv encoded).
  { intros kv Hkv. apply firstn_In in Hkv.
    exact (Permutation_in _ (sorted_desc_perm snd encoded) Hkv). }
  assert (Hnn : Forall (fun kv : string * float =>
                          F64.ge (snd kv) F64.zero = true) encoded).
  { apply List.Forall_forall. intros [k wk] Hkv. simpl.
    unfold encoded, encoded_importances in Hkv. apply in_combine_r in Hkv.
    pose proof (Hpos (named_steps_model (model res))) as Hall.
    rewrite List.Forall_forall in Hall. exact (Hall wk Hkv). }
  split; [apply firstn_le_length|]. split; [|split; [|split]].
  - apply List.Forall_forall. intros kv Hkv.
    rewrite List.Forall_forall in Hnn. exact (Hnn kv (Hin kv Hkv)).
  - apply Sorted_non_increasing, Sorted_firstn, sorted_desc_Sorted.
    apply List.Forall_forall. intros kv Hkv. rewrite List.Forall_forall in Hnn.
    exact (ge_number _ _ (Hnn kv Hkv)).
  - exact Hin.
  - intros a b Hab Heq. apply before_firstn in Hab.
    destruct (sorted_desc_stable snd encoded a b Hab) as [Hb | Hlt];
      [exact Hb|].
    rewrite (eqb_lt_false _ _ Heq) in Hlt. discriminate.
Qed.

Lemma feature_importance_table_ordered_witness :
  exists res w',
    train_model Demo.B 0%nat Demo.world_labelled = (Ok res, w') /\
    (length (feature_importance res) <= 8)%nat /\
    non_increasing snd (feature_importance res) /\
    forall a b,
      before a b (feature_importance res) ->
      F64.eqb (snd a) (snd b) = true ->
      before a b (combine
                    (Demo.num_features
                     ++ ["dept_HR"; "dept_num__ops";
                         "salary_band_A"; "salary_band_B"])%list
                    Demo.importances).
Proof.
  destruct (train_model Demo.B 0%nat Demo.world_labelled) as [[res|e] w'] eqn:E;
    [|vm_compute in E; discriminate E].
  exists res, w'. split; [reflexivity|].
  destruct (feature_importance_table_ordered Demo.B _ _ _ _
              (fun _ => ltac:(repeat constructor)) E)
    as (df & Hd & Hlen & _ & Hsort & _ & Hties).
  split; [exact Hlen|]. split; [exact Hsort|].
  intros a b Hab Heq. specialize (Hties a b Hab Heq).
  injection Hd as <-.
  assert (Em : model res = Demo.pipeline).
  { vm_compute in E. injection E as <- _. reflexivity. }
  rewrite Em in Hties. exact Hties.
Defined.

(** *** The top driver tag *)

(** C6, what the code writes.  In a run whose importance table is not
    empty (the forest's importances being non-negative), the table's
    first entry has the highest weight, and the tag column of the frame
    written holds one value in every record: the key of that entry after
    [_top_driver_summary] has removed the texts cat__ and num__ from it,
    wherever they occur.  The tag is the key of the top entry, as specified,
    when neither text occurs in the key; a key that holds one of them
    inside a level name is written changed. *)
Theorem top_driver_is_stripped_top_key
    (B : Backend) (input_path : option string) (output_path : string)
    (flag : bool) (rows : Z) (w w' : World) (res : ModelResult B) :
  (forall forest,
      Forall (fun x => F64.ge x F64.zero = true)
             (rf_feature_importances B forest)) ->
  run_pipeline B input_path output_path flag rows w = (Ok res, w') ->
  feature_importance res <> [] ->
  exists k wk out,
    feature_importance res !! 0%nat = Some (k, wk) /\
    (forall kv, In kv (feature_importance res) -> F64.ge wk (snd kv) = true) /\
    head (written w') = Some (output_path, out) /\
    get_column "top_driver" out
      = Ok (StrCol (replicate (nrows out) (strip_prefixes k))) /\
    (~ occurs "cat__" k -> ~ occurs "num__" k -> strip_prefixes k = k).
Proof.
  intros Hpos Hrun Hne.
  destruct (run_pipeline_inv _ _ _ _ _ _ _ _ Hrun)
    as (df & w1 & tr & w2 & w3 & raw & w4 & frame & selected
        & _ & _ & Htrain & _ & _ & Hsel & _ & ->).
  destruct (feature_importance_sorted _ _ _ _ _ Hpos Htrain) as [Hnd Hs].
  destruct (feature_importance res) as [|[k wk] rest] eqn:Ef; [congruence|].
  exists k, wk, (output_frame selected raw ((k, wk) :: rest)).
  split; [reflexivity|]. split; [|split; [reflexivity|split]].
  - intros kv [<- | Hin].
    + simpl. apply ge_refl.
      inversion Hs as [|? ? Hs' Hhd]; subst.
      destruct rest as [|kv' rest]; [|inversion Hhd; subst;
                                      eapply ge_number; eassumption].
      pose proof (feature_importance_table _ _ _ _ _ Htrain)
        as (df' & x & _ & _ & _ & _ & Htab).
      rewrite Ef in Htab.
      assert (Hin : In (k, wk) (firstn 8 (sorted_desc snd
                       (encoded_importances B (model res) train_cat_features
                          (train_num_features df')))))
        by (rewrite <- Htab; left; reflexivity).
      apply firstn_In in Hin.
      apply (Permutation_in _ (sorted_desc_perm snd _)) in Hin.
      unfold encoded_importances in Hin. apply in_combine_r in Hin.
      pose proof (Hpos (named_steps_model (model res))) as Hall.
      rewrite List.Forall_forall in Hall. exact (ge_number _ _ (Hall wk Hin)).
    + pose proof (Sorted_ge_all snd _ _ Hs) as Hall.
      rewrite List.Forall_forall in Hall. exact (Hall kv Hin).
  - destruct (output_frame_top_driver frame selected raw ((k, wk) :: rest) Hsel)
      as [Hn Hg].
    rewrite Hn, Hg. rewrite (top_driver_summary_first k wk rest Hnd Hs).
    reflexivity.
  - apply strip_prefixes_absent.
Qed.

Lemma top_driver_is_stripped_top_key_witness :
  exists res w' k wk out,
    run_pipeline Demo.B (Some "in.csv") "out.csv" false 0 Demo.disk
      = (Ok res, w') /\
    feature_importance res !! 0%nat = Some (k, wk) /\
    head (written w') = Some ("out.csv", out) /\
    get_column "top_driver" out
      = Ok (StrCol (replicate (nrows out) (strip_prefixes k))).
Proof.
  destruct (run_pipeline Demo.B (Some "in.csv") "out.csv" false 0 Demo.disk)
    as [[res|e] w'] eqn:E; [|vm_compute in E; discriminate E].
  assert (Hne : feature_importance res <> []).
  { pose proof E as E'. vm_compute in E'. injection E' as <- _. discriminate. }
  destruct (top_driver_is_stripped_top_key Demo.B _ _ _ _ _ _ _
              (fun _ => ltac:(repeat constructor)) E Hne)
    as (k & wk & out & Hk & _ & Hw & Hg & _).
  exists res, w', k, wk, out. repeat split; assumption.
Defined.

(** C6 does not hold of this run.  The tag written is not the key of the top
    entry, nor any key of the table: the department level num__ops gives
    the column dept_num__ops the highest weight, and the tag written in
    every record is dept_ops. *)
Lemma top_driver_is_not_the_top_key :
  exists res w' out,
    run_pipeline Demo.B (Some "in.csv") "out.csv" false 0 Demo.disk
      = (Ok res, w') /\
    feature_importance res !! 0%nat = Some ("dept_num__ops", F64.dec 25 100) /\
    (forall kv, In kv (feature_importance res) ->
                F64.ge (F64.dec 25 100) (snd kv) = true) /\
    head (written w') = Some ("out.csv", out) /\
    get_column "top_driver" out
      = Ok (StrCol ["dept_ops"; "dept_ops"; "dept_ops"]) /\
    ~ In "dept_ops" (dict_keys (feature_importance res)).
Proof.
  destruct (run_pipeline Demo.B (Some "in.csv") "out.csv" false 0 Demo.disk)
    as [[res|e] w'] eqn:E; [|vm_compute in E; discriminate E].
  vm_compute in E. injection E as <- <-.
  eexists _, _, _. split; [reflexivity|].
  split; [vm_compute; reflexivity|]. split.
  - intros kv Hin. simpl in Hin.
    repeat (destruct Hin as [<- | Hin]; [vm_compute; reflexivity|]).
    contradiction.
  - split; [reflexivity|]. split; [reflexivity|].
    simpl. intuition discriminate.
Qed.

(** *** Validation of the input *)

(** C7.  Loading a file that holds a table: there are twelve required
    fields; loading succeeds exactly when the table has them all;
    otherwise it raises an error whose message lists every required
    field the table lacks, each by name, and the run fails with that
    error having done nothing but read the file: no column was set, no
    model was fitted or applied, nothing was written. *)
Theorem load_csv_requires_every_field
    (B : Backend) (path output_path : string) (rows : Z) (w : World)
    (df : DataFrame) :
  assoc path (files w) = Some df ->
  length REQUIRED_COLUMNS = 12%nat /\
  ((exists r w', load_csv path w = (Ok r, w'))
   <-> Forall (fun c => has_column c df = true) REQUIRED_COLUMNS) /\
  (~ Forall (fun c => has_column c df = true) REQUIRED_COLUMNS ->
   exists msg w',
     load_csv path w = (Raise (ValueError msg), w') /\
     run_pipeline B (Some path) output_path false rows w
       = (Raise (ValueError msg), w') /\
     msg = "Missing required columns: " ++ str_join ", " (missing_columns df) /\
     (forall c, In c REQUIRED_COLUMNS -> has_column c df = false ->
                In c (missing_columns df) /\ occurs c msg) /\
     log w' = (log w ++ [EvReadCsv path])%list /\
     written w' = written w).
Proof.
  intros Hfile. pose proof (load_csv_run path w df Hfile) as Hrun.
  assert (Hall : missing_columns df = []
                 <-> Forall (fun c => has_column c df = true) REQUIRED_COLUMNS).
  { unfold missing_columns. rewrite filter_nil_Forall.
    split; intros H; apply List.Forall_forall; intros c Hc;
      rewrite List.Forall_forall in H; specialize (H c Hc);
      destruct (has_column c df); simpl in *; congruence. }
  split; [reflexivity|]. split; [split|].
  - intros (r & w' & Hok). rewrite Hrun in Hok. apply Hall.
    destruct (missing_columns df); [reflexivity | discriminate Hok].
  - intros H. apply Hall in H. rewrite Hrun, H. eauto.
  - intros Hnot.
    destruct (missing_columns df) as [|m ms] eqn:Em;
      [exfalso; apply Hnot, Hall; reflexivity|].
    eexists _, _. split; [exact Hrun|]. split; [|split; [reflexivity|split]].
    + unfold run_pipeline. apply bind_raise. exact Hrun.
    + intros c Hc Hno.
      assert (Hin : In c (m :: ms)).
      { rewrite <- Em. unfold missing_columns. apply filter_In.
        rewrite Hno. auto. }
      split; [exact Hin|]. apply occurs_app_r, occurs_join. exact Hin.
    + split; reflexivity.
Qed.

Lemma load_csv_requires_every_field_witness :
  assoc "bad.csv" (files Demo.disk) = Some Demo.table_missing /\
  exists w',
    run_pipeline Demo.B (Some "bad.csv") "out.csv" false 0 Demo.disk
      = (Raise (ValueError
           "Missing required columns: engagement_score, performance_score"),
         w') /\
    log w' = [EvReadCsv "bad.csv"] /\ written w' = [].
Proof.
  split; [reflexivity|].
  destruct (load_csv_requires_every_field Demo.B "bad.csv" "out.csv" 0
              Demo.disk Demo.table_missing eq_refl) as (_ & _ & H).
  destruct H as (msg & w' & _ & Hrun & -> & _ & Hlog & Hwr).
  - intros Hall. rewrite List.Forall_forall in Hall.
    specialize (Hall "engagement_score"). simpl in Hall.
    assert (E : false = true) by (apply Hall; tauto). discriminate E.
  - exists w'. repeat split; assumption.
Defined.

(** *** What is left as it was *)

Lemma keeps_heap_below {A} (n : nat) (m : M A) : keeps_heap m -> keeps_below n m.
Proof.
  intros H w x w' Hn Hm. rewrite (H w x w' Hm). auto.
Qed.

Lemma keeps_heap_bind {A B} (m : M A) (f : A -> M B) :
  keeps_heap m -> (forall a, keeps_heap (f a)) -> keeps_heap (m ≫= f).
Proof.
  intros Hm Hf w x w' H. apply bind_cases in H.
  destruct H as [(e & H & _) | (a & w1 & H1 & H2)].
  - exact (Hm _ _ _ H).
  - rewrite (Hf a _ _ _ H2). exact (Hm _ _ _ H1).
Qed.

Lemma keeps_heap_ret {A} (a : A) : keeps_heap (mret a : M A).
Proof. intros w x w' [= _ <-]. reflexivity. Qed.

Lemma keeps_heap_raise {A} (e : exn) : keeps_heap (raise e : M A).
Proof. intros w x w' [= _ <-]. reflexivity. Qed.

Lemma keeps_heap_lift {A} (r : result A) : keeps_heap (lift r).
Proof. intros w x w' [= _ <-]. reflexivity. Qed.

Lemma keeps_heap_emit (ev : event) : keeps_heap (emit ev).
Proof. intros w x w' [= _ <-]. reflexivity. Qed.

Lemma keeps_heap_deref (r : ref) : keeps_heap (deref r).
Proof. intros w x w' H. apply deref_world in H. subst. reflexivity. Qed.

Lemma keeps_heap_write_file (path : string) (df : DataFrame) :
  keeps_heap (write_file path df).
Proof. intros w x w' [= _ <-]. reflexivity. Qed.

(** Training changes no frame. *)
Lemma keeps_heap_train_model (B : Backend) (r : ref) :
  keeps_heap (train_model B r).
Proof.
  unfold train_model.
  apply keeps_heap_bind; [apply keeps_heap_deref|]. intros df.
  destruct (negb (has_column TARGET_COLUMN df)); [apply keeps_heap_raise|].
  repeat (apply keeps_heap_bind;
          [first [apply keeps_heap_lift | apply keeps_heap_emit]|]; intros ?).
  apply keeps_heap_ret.
Qed.

(** Scoring changes no frame. *)
Lemma keeps_heap_score (B : Backend) (p : Pipeline B) (r : ref) :
  keeps_heap (score B p r).
Proof.
  unfold score.
  apply keeps_heap_bind; [apply keeps_heap_deref|]. intros df.
  repeat (apply keeps_heap_bind;
          [first [apply keeps_heap_lift | apply keeps_heap_emit]|]; intros ?).
  apply keeps_heap_lift.
Qed.

Lemma keeps_heap_to_csv (r : ref) (path : string) : keeps_heap (to_csv r path).
Proof.
  unfold to_csv.
  apply keeps_heap_bind; [apply keeps_heap_deref|]. intros df.
  apply keeps_heap_bind; [apply keeps_heap_emit|]. intros _.
  apply keeps_heap_write_file.
Qed.

Lemma keeps_below_bind {A B} (n : nat) (m : M A) (f : A -> M B)
    (P : A -> Prop) :
  keeps_below n m ->
  (forall w a w', (n <= length (heap w))%nat -> m w = (Ok a, w') -> P a) ->
  (forall a, P a -> keeps_below n (f a)) ->
  keeps_below n (m ≫= f).
Proof.
  intros Hm HP Hf w x w' Hn H. apply bind_cases in H.
  destruct H as [(e & H & _) | (a & w1 & H1 & H2)].
  - exact (Hm _ _ _ Hn H).
  - destruct (Hm _ _ _ Hn H1) as [Hn1 Hk1].
    destruct (Hf a (HP _ _ _ Hn H1) _ _ _ Hn1 H2) as [Hn2 Hk2].
    split; [exact Hn2|]. intros r Hr. rewrite (Hk2 r Hr). exact (Hk1 r Hr).
Qed.

Lemma lookup_app_below {A} (l k : list A) (r : nat) :
  (r < length l)%nat -> (l ++ k)%list !! r = l !! r.
Proof.
  revert r. induction l as [|x l IH]; intros [|r]; simpl; try lia; auto.
  intros H. apply IH. lia.
Qed.

Lemma lookup_insert_other {A} (l : list A) (i r : nat) (x : A) :
  i <> r -> <[i := x]> l !! r = l !! r.
Proof.
  revert i r. induction l as [|y l IH]; intros [|i] [|r] H; simpl;
    try reflexivity; try congruence.
  apply IH. congruence.
Qed.

Lemma insert_length_same {A} (l : list A) (i : nat) (x : A) :
  length (<[i := x]> l) = length l.
Proof.
  revert i. induction l as [|y l IH]; intros [|i]; simpl; auto.
Qed.

Lemma keeps_below_alloc (n : nat) (df : DataFrame) : keeps_below n (alloc df).
Proof.
  intros w x w' Hn [= _ <-]. simpl. split.
  - rewrite length_app. lia.
  - intros r Hr. apply lookup_app_below. lia.
Qed.

Lemma alloc_fresh (n : nat) (df : DataFrame) (w w' : World) (a : ref) :
  (n <= length (heap w))%nat -> alloc df w = (Ok a, w') -> (n <= a)%nat.
Proof. intros Hn [= <- _]. exact Hn. Qed.

(** Item assignment on an object at or above [n]. *)
Lemma keeps_below_setitem (n : nat) (r : ref) (name : string) (col : column) :
  (n <= r)%nat -> keeps_below n (df_setitem r name col).
Proof.
  intros Hr. unfold df_setitem.
  apply (keeps_below_bind n _ _ (fun _ => True));
    [apply keeps_heap_below, keeps_heap_deref | auto |]. intros df _.
  destruct (_ && _); [apply keeps_heap_below, keeps_heap_raise|].
  apply (keeps_below_bind n _ _ (fun _ => True));
    [apply keeps_heap_below, keeps_heap_emit | auto |]. intros _ _.
  intros w x w' Hn [= _ <-]. simpl. split.
  - rewrite insert_length_same. exact Hn.
  - intros r0 Hr0. apply lookup_insert_other. lia.
Qed.

Lemma keeps_below_copy (n : nat) (r : ref) : keeps_below n (df_copy r).
Proof.
  unfold df_copy.
  apply (keeps_below_bind n _ _ (fun _ => True));
    [apply keeps_heap_below, keeps_heap_deref | auto |]. intros df _.
  apply (keeps_below_bind n _ _ (fun _ => True));
    [apply keeps_below_alloc | auto |]. intros r' _.
  apply (keeps_below_bind n _ _ (fun _ => True));
    [apply keeps_heap_below, keeps_heap_emit | auto |]. intros _ _.
  apply keeps_heap_below, keeps_heap_ret.
Qed.

Lemma df_copy_fresh (n : nat) (r : ref) (w w' : World) (a : ref) :
  (n <= length (heap w))%nat -> df_copy r w = (Ok a, w') -> (n <= a)%nat.
Proof.
  intros Hn H. unfold df_copy in H.
  apply bind_ok in H. destruct H as (df & w1 & Hd & H).
  apply deref_ok in Hd. destruct Hd as [_ ->].
  apply bind_ok in H. destruct H as (r' & w1 & Ha & H).
  pose proof (alloc_fresh n _ _ _ _ Hn Ha) as Hr'.
  apply bind_ok in H. destruct H as (u & w2 & _ & H).
  apply mret_ok in H. destruct H as [<- _]. exact Hr'.
Qed.

(** Label preparation leaves every existing object as it was. *)
Lemma keeps_below_prepare (n : nat) (r : ref) :
  keeps_below n (_prepare_training_data r).
Proof.
  unfold _prepare_training_data.
  apply (keeps_below_bind n _ _ (fun _ => True));
    [apply keeps_heap_below, keeps_heap_deref | auto |]. intros df _.
  destruct (has_column "exit_flag" df);
    [apply keeps_heap_below, keeps_heap_ret|].
  apply (keeps_below_bind n _ _ (fun _ => True));
    [apply keeps_heap_below, keeps_heap_lift | auto |]. intros h _.
  apply (keeps_below_bind n _ _ (fun r' => (n <= r')%nat));
    [apply keeps_below_copy
    | intros w a w' Hn Hc; exact (df_copy_fresh n r w w' a Hn Hc) |].
  intros r' Hr'.
  apply (keeps_below_bind n _ _ (fun _ => True));
    [apply keeps_below_setitem; exact Hr' | auto |]. intros _ _.
  apply keeps_heap_below, keeps_heap_ret.
Qed.

Lemma lookup_Some_lt {A} (l : list A) (i : nat) (x : A) :
  l !! i = Some x -> (i < length l)%nat.
Proof.
  revert i. induction l as [|y l IH]; intros [|i]; simpl; try discriminate.
  - lia.
  - intros H. apply IH in H. lia.
Qed.

(** A run leaves the frame it loaded as it was, whatever its outcome. *)
Lemma run_keeps_input (B : Backend) (input_path : option string)
    (output_path : string) (flag : bool) (rows : Z) (w w1 w' : World)
    (df : ref) (frame : DataFrame) (x : result (ModelResult B)) :
  load_input B input_path flag rows w = (Ok df, w1) ->
  heap w1 !! df = Some frame ->
  run_pipeline B input_path output_path flag rows w = (x, w') ->
  heap w' !! df = Some frame.
Proof.
  intros Hload Hframe Hrun. unfold run_pipeline in Hrun.
  fold (load_input B input_path flag rows) in Hrun.
  rewrite (bind_step _ _ _ _ _ Hload) in Hrun.
  rewrite <- Hframe.
  assert (Hn : (S df <= length (heap w1))%nat)
    by (apply lookup_Some_lt in Hframe; lia).
  revert Hrun. generalize w1 x w' Hn. clear.
  intros w1 x w' Hn Hrun.
  assert (K : keeps_below (S df)
    (_prepare_training_data df ≫= fun training_df =>
     train_model B training_df ≫= fun result =>
     score B (model result) df ≫= fun risk_scores =>
     deref df ≫= fun frame =>
     lift (select output_columns frame) ≫= fun selected =>
     alloc selected ≫= fun output =>
     emit (EvSelectCopy df output) ≫= fun _ =>
     df_setitem output "risk_score"
       (FloatCol (map (fun x => F64.round x 3) risk_scores)) ≫= fun _ =>
     deref output ≫= fun out =>
     lift (get_column "risk_score" out ≫= apply_risk_band) ≫= fun bands =>
     df_setitem output "risk_band" (StrCol bands) ≫= fun _ =>
     deref output ≫= fun out =>
     df_setitem output "top_driver"
       (StrCol (replicate (nrows out)
                  (_top_driver_summary (feature_importance result)))) ≫= fun _ =>
     mkdir_parent output_path ≫= fun _ =>
     to_csv output output_path ≫= fun _ =>
     mret result)).
  { apply (keeps_below_bind _ _ _ (fun _ => True));
      [apply keeps_below_prepare | auto |]. intros tr _.
    apply (keeps_below_bind _ _ _ (fun _ => True));
      [apply keeps_heap_below, keeps_heap_train_model | auto |]. intros res _.
    apply (keeps_below_bind _ _ _ (fun _ => True));
      [apply keeps_heap_below, keeps_heap_score | auto |]. intros raw _.
    apply (keeps_below_bind _ _ _ (fun _ => True));
      [apply keeps_heap_below, keeps_heap_deref | auto |]. intros fr _.
    apply (keeps_below_bind _ _ _ (fun _ => True));
      [apply keeps_heap_below, keeps_heap_lift | auto |]. intros sel _.
    apply (keeps_below_bind _ _ _ (fun o => (S df <= o)%nat));
      [apply keeps_below_alloc
      | intros w a w0 Hw Ha; exact (alloc_fresh _ _ _ _ _ Hw Ha) |].
    intros output Ho.
    apply (keeps_below_bind _ _ _ (fun _ => True));
      [apply keeps_heap_below, keeps_heap_emit | auto |]. intros _ _.
    apply (keeps_below_bind _ _ _ (fun _ => True));
      [apply keeps_below_setitem; exact Ho | auto |]. intros _ _.
    apply (keeps_below_bind _ _ _ (fun _ => True));
      [apply keeps_heap_below, keeps_heap_deref | auto |]. intros out1 _.
    apply (keeps_below_bind _ _ _ (fun _ => True));
      [apply keeps_heap_below, keeps_heap_lift | auto |]. intros bands _.
    apply (keeps_below_bind _ _ _ (fun _ => True));
      [apply keeps_below_setitem; exact Ho | auto |]. intros _ _.
    apply (keeps_below_bind _ _ _ (fun _ => True));
      [apply keeps_heap_below, keeps_heap_deref | auto |]. intros out2 _.
    apply (keeps_below_bind _ _ _ (fun _ => True));
      [apply keeps_below_setitem; exact Ho | auto |]. intros _ _.
    apply (keeps_below_bind _ _ _ (fun _ => True));
      [apply keeps_heap_below, keeps_heap_emit | auto |]. intros _ _.
    apply (keeps_below_bind _ _ _ (fun _ => True));
      [apply keeps_heap_below, keeps_heap_to_csv | auto |]. intros _ _.
    apply keeps_heap_below, keeps_heap_ret. }
  destruct (K w1 x w' Hn Hrun) as [_ Hk]. apply Hk. lia.
Qed.

Lemma prepare_ok_deref (r r' : ref) (w w' : World) :
  _prepare_training_data r w = (Ok r', w') -> exists df, heap w !! r = Some df.
Proof.
  unfold _prepare_training_data. intros H.
  apply bind_ok in H. destruct H as (df & w1 & Hd & _).
  apply deref_ok in Hd. destruct Hd as [Hd _]. eauto.
Qed.

(** The frame scored in a run is the frame loaded. *)
Lemma run_scores_loaded_frame (B : Backend) (df tr : ref) (w1 w2 w3 w4 : World)
    (res : ModelResult B) (raw : list float) :
  _prepare_training_data df w1 = (Ok tr, w2) ->
  train_model B tr w2 = (Ok res, w3) ->
  score B (model res) df w3 = (Ok raw, w4) ->
  heap w4 !! df = heap w1 !! df.
Proof.
  intros Hprep Htrain Hscore.
  destruct (prepare_ok_deref _ _ _ _ Hprep) as [df0 Hdf0].
  pose proof (lookup_Some_lt _ _ _ Hdf0) as Hlt.
  destruct (keeps_below_prepare (S df) df w1 _ _ ltac:(lia) Hprep) as [_ Hk].
  rewrite (keeps_heap_score _ _ _ _ _ _ Hscore).
  rewrite (keeps_heap_train_model _ _ _ _ _ Htrain).
  apply Hk. lia.
Qed.

(** *** The input is never labelled *)

(** C8.  For a frame object holding the input: when it has the label
    column, label preparation returns the same object and changes
    nothing (no copy is made, no column is set); when it has not,
    whatever the outcome the input object holds the same frame
    afterwards, and the object returned is another one, holding the
    input's columns and the label column; and at the end of any run
    that loaded this object as its input, whatever the outcome, the
    object holds the frame that was loaded. *)
Theorem label_is_attached_to_a_copy (w : World) (r : ref) (df : DataFrame) :
  heap w !! r = Some df ->
  (has_column "exit_flag" df = true ->
     _prepare_training_data r w = (Ok r, w)) /\
  (has_column "exit_flag" df = false ->
     forall x w',
       _prepare_training_data r w = (x, w') ->
       heap w' !! r = Some df /\
       forall r', x = Ok r' ->
         r' <> r /\
         exists labels,
           heap w' !! r' = Some (set_column "exit_flag" (IntCol labels) df)) /\
  (forall B input_path output_path flag rows w0 x w',
     load_input B input_path flag rows w0 = (Ok r, w) ->
     run_pipeline B input_path output_path flag rows w0 = (x, w') ->
     heap w' !! r = Some df).
Proof.
  intros Hr. pose proof (lookup_Some_lt _ _ _ Hr) as Hlt.
  split; [|split].
  - intros Hhas. unfold _prepare_training_data.
    rewrite (bind_step _ _ _ _ _ (deref_run _ _ _ Hr)). rewrite Hhas.
    reflexivity.
  - intros Hno x w' Hrun. split.
    + destruct (keeps_below_prepare (S r) r w x w' ltac:(lia) Hrun) as [_ Hk].
      rewrite Hk by lia. exact Hr.
    + intros r' ->. unfold _prepare_training_data in Hrun.
      rewrite (bind_step _ _ _ _ _ (deref_run _ _ _ Hr)) in Hrun.
      rewrite Hno in Hrun.
      apply bind_ok in Hrun. destruct Hrun as (h & w1 & Hh & Hrun).
      apply lift_ok in Hh. destruct Hh as [_ E]. subst w1.
      rewrite (bind_step _ _ _ _ _ (df_copy_run _ _ _ Hr)) in Hrun.
      apply bind_ok in Hrun. destruct Hrun as (u & w1 & Hset & Hrun).
      apply df_setitem_last_ok in Hset. destruct Hset as [_ E]. subst w1.
      apply mret_ok in Hrun. destruct Hrun as [E1 E2]. subst r' w'.
      split; [lia|]. eexists. simpl. apply lookup_snoc.
  - intros B input_path output_path flag rows w0 x w' Hload Hrun.
    exact (run_keeps_input _ _ _ _ _ _ _ _ _ _ _ Hload Hr Hrun).
Qed.

Lemma label_is_attached_to_a_copy_witness :
  exists w res w',
    load_input Demo.B (Some "in.csv") false 0 Demo.disk = (Ok 0%nat, w) /\
    heap w !! 0%nat = Some Demo.table /\
    has_column "exit_flag" Demo.table = false /\
    run_pipeline Demo.B (Some "in.csv") "out.csv" false 0 Demo.disk
      = (Ok res, w') /\
    heap w' !! 0%nat = Some Demo.table.
Proof.
  destruct (load_input Demo.B (Some "in.csv") false 0 Demo.disk)
    as [x w] eqn:Hload.
  assert (Hx : x = Ok 0%nat /\ heap w !! 0%nat = Some Demo.table).
  { vm_compute in Hload. injection Hload as <- <-. split; reflexivity. }
  destruct Hx as [-> Hr].
  destruct (run_pipeline Demo.B (Some "in.csv") "out.csv" false 0 Demo.disk)
    as [[res|e] w'] eqn:Hrun; [|vm_compute in Hrun; discriminate Hrun].
  exists w, res, w'. repeat split; try assumption; try reflexivity.
  destruct (label_is_attached_to_a_copy w 0%nat Demo.table Hr) as (_ & _ & H).
  exact (H Demo.B (Some "in.csv") "out.csv" false 0 Demo.disk _ _ Hload Hrun).
Defined.

(** *** Scoring twice *)

(** [score] by cases: the scores are computed from the frame the
    reference denotes and from the model; the world only gets one more
    entry in its trace. *)
Lemma score_run (B : Backend) (p : Pipeline B) (r : ref) (w : World) :
  score B p r w =
    match heap w !! r with
    | None => (Raise (ValueError "no such object"), w)
    | Some df =>
        match select (features_of df) df with
        | Raise e => (Raise e, w)
        | Ok x =>
            (pipeline_predict_proba B p x
               ≫= column_1 (length (rf_classes B (named_steps_model p))),
             {| heap := heap w; files := files w; written := written w;
                log := (log w ++ [EvPredictProba])%list |})
        end
    end.
Proof.
  unfold score, deref. rewrite bind_run.
  destruct (heap w !! r) as [df|]; [|reflexivity].
  rewrite bind_run. unfold lift at 1.
  destruct (select (features_of df) df); reflexivity.
Qed.

(** C9.  The outcome of scoring (the scores, or the error) is determined
    by the model and by the frame scored: scoring in two worlds in which
    the references denote the same frame gives the same outcome.  Scoring
    changes no frame.  So scoring a collection again after scoring it,
    with the same model, gives the same scores. *)
Theorem scoring_is_repeatable
    (B : Backend) (p : Pipeline B) (r r2 : ref) (w v : World) :
  heap v !! r2 = heap w !! r ->
  fst (score B p r2 v) = fst (score B p r w) /\
  heap (snd (score B p r w)) = heap w /\
  fst (score B p r (snd (score B p r w))) = fst (score B p r w).
Proof.
  intros Hsame.
  assert (Hdet : forall r1 r2 w1 w2,
             heap w2 !! r2 = heap w1 !! r1 ->
             fst (score B p r2 w2) = fst (score B p r1 w1)).
  { intros r1' r2' w1 w2 H. rewrite !score_run, H.
    destruct (heap w1 !! r1') as [df|]; [|reflexivity].
    destruct (select (features_of df) df); reflexivity. }
  assert (Hheap : heap (snd (score B p r w)) = heap w).
  { destruct (score B p r w) as [x w'] eqn:E.
    exact (keeps_heap_score B p r w x w' E). }
  split; [exact (Hdet _ _ _ _ Hsame)|]. split; [exact Hheap|].
  apply Hdet. rewrite Hheap. reflexivity.
Qed.

Lemma scoring_is_repeatable_witness :
  exists scores w1 w2,
    score Demo.B Demo.pipeline 0%nat Demo.world = (Ok scores, w1) /\
    score Demo.B Demo.pipeline 0%nat w1 = (Ok scores, w2) /\
    length scores = 3%nat.
Proof.
  destruct (score Demo.B Demo.pipeline 0%nat Demo.world) as [x w1] eqn:E1.
  destruct (score Demo.B Demo.pipeline 0%nat w1) as [y w2] eqn:E2.
  destruct (scoring_is_repeatable Demo.B Demo.pipeline 0%nat 0%nat
              Demo.world Demo.world eq_refl) as (_ & _ & H).
  rewrite E1 in H. simpl in H. rewrite E2 in H. simpl in H. subst y.
  assert (Hx : exists scores, x = Ok scores /\ length scores = 3%nat).
  { vm_compute in E1. injection E1 as <- _. eexists. split; reflexivity. }
  destruct Hx as (scores & -> & Hlen).
  exists scores, w1, w2. repeat split; assumption || reflexivity.
Defined.

(** *** The band of the rounded score *)

Lemma get_set_column_other (n name : string) (col : column) (df : DataFrame) :
  n <> name -> get_column n (set_column name col df) = get_column n df.
Proof.
  intros Hn. induction df as [|[m c] df IH]; simpl.
  - destruct (String.eqb name n) eqn:E; [|reflexivity].
    apply String.eqb_eq in E. congruence.
  - destruct (String.eqb m name) eqn:E; simpl.
    + apply String.eqb_eq in E. subst m.
      destruct (String.eqb name n) eqn:E'; [|reflexivity].
      apply String.eqb_eq in E'. congruence.
    + destruct (String.eqb m n); [reflexivity | exact IH].
Qed.

(** The score and band columns of the frame written. *)
Lemma output_frame_score_band (selected : DataFrame) (raw : list float)
    (importances : dict float) :
  get_column "risk_score" (output_frame selected raw importances)
    = Ok (FloatCol (map (fun p => F64.round p 3) raw)) /\
  get_column "risk_band" (output_frame selected raw importances)
    = Ok (StrCol (map (fun p => _infer_risk_band (F64.round p 3)) raw)).
Proof.
  unfold output_frame. split.
  - rewrite !get_set_column_other by discriminate. apply get_set_column.
  - rewrite get_set_column_other by discriminate.
    rewrite get_set_column, map_map. reflexivity.
Qed.

(** C10.  A run that succeeds loads a frame, prepares the training frame
    from it, trains, and scores the loaded frame with the model it
    returns: the raw scores are that model's probabilities of class 1 for
    the feature columns of the loaded frame, one per record.  The frame the
    run writes holds the loaded frame's output columns, the score column
    holds these raw probabilities rounded to 3 decimals, in the order of
    the records, and the band column holds the band of each rounded value.
    Every raw probability p with 0.6995 <= p < 0.7 rounds to 0.7 and so is
    banded High, while the band of p itself is Medium; every p with
    0.3995 <= p < 0.4 rounds to 0.4 and so is banded Medium, while the
    band of p itself is Low. *)
Theorem band_is_computed_from_rounded_score
    (B : Backend) (input_path : option string) (output_path : string)
    (flag : bool) (rows : Z) (w w' : World) (res : ModelResult B) :
  run_pipeline B input_path output_path flag rows w = (Ok res, w') ->
  (exists df w1 frame training_df w2 w3 x raw w4 out,
     load_input B input_path flag rows w = (Ok df, w1) /\
     heap w1 !! df = Some frame /\
     _prepare_training_data df w1 = (Ok training_df, w2) /\
     train_model B training_df w2 = (Ok res, w3) /\
     score B (model res) df w3 = (Ok raw, w4) /\
     select (features_of frame) frame = Ok x /\
     (pipeline_predict_proba B (model res) x
        ≫= column_1 (length (rf_classes B (named_steps_model (model res)))))
       = Ok raw /\
     head (written w') = Some (output_path, out) /\
     assoc output_path (files w') = Some out /\
     (forall c, In c output_columns -> get_column c out = get_column c frame) /\
     length raw = nrows out /\
     get_column "risk_score" out
       = Ok (FloatCol (map (fun p => F64.round p 3) raw)) /\
     get_column "risk_band" out
       = Ok (StrCol (map (fun p => _infer_risk_band (F64.round p 3)) raw))) /\
  (forall p,
     F64.ge p (F64.dec 6995 10000) = true -> F64.lt p (F64.dec 7 10) = true ->
     F64.round p 3 = F64.dec 7 10 /\
     _infer_risk_band (F64.round p 3) = "High" /\
     _infer_risk_band p = "Medium") /\
  (forall p,
     F64.ge p (F64.dec 3995 10000) = true -> F64.lt p (F64.dec 4 10) = true ->
     F64.round p 3 = F64.dec 4 10 /\
     _infer_risk_band (F64.round p 3) = "Medium" /\
     _infer_risk_band p = "Low").
Proof.
  intros Hrun. split; [|split].
  - destruct (run_pipeline_inv _ _ _ _ _ _ _ _ Hrun)
      as (df & w1 & tr & w2 & w3 & raw & w4 & frame & selected
          & Hload & Hprep & Htrain & Hscore & Hframe & Hsel & Hlen & ->).
    assert (Hloaded : heap w1 !! df = Some frame).
    { rewrite <- (run_scores_loaded_frame _ _ _ _ _ _ _ _ _ Hprep Htrain Hscore).
      exact Hframe. }
    destruct (score_inv _ _ _ _ _ _ Hscore)
      as (frame' & x & Hd & Hx & Hraw & Hw4).
    assert (frame' = frame).
    { subst w4. simpl in Hframe. congruence. }
    subst frame'.
    destruct (output_frame_score_band selected raw (feature_importance res))
      as [Hs Hb].
    destruct (output_frame_top_driver frame selected raw
                (feature_importance res) Hsel) as [Hrows _].
    exists df, w1, frame, tr, w2, w3, x, raw, w4,
      (output_frame selected raw (feature_importance res)).
    split; [exact Hload|]. split; [exact Hloaded|]. split; [exact Hprep|].
    split; [exact Htrain|]. split; [exact Hscore|]. split; [exact Hx|].
    split; [exact Hraw|]. split; [reflexivity|].
    split; [apply assoc_dict_set|]. split; [|split; [|split]].
    + intros c Hc. unfold output_frame.
      rewrite !get_set_column_other.
      * exact (select_get_column _ _ _ _ Hsel Hc).
      * intros ->. simpl in Hc. intuition discriminate.
      * intros ->. simpl in Hc. intuition discriminate.
      * intros ->. simpl in Hc. intuition discriminate.
    + rewrite Hrows. exact Hlen.
    + exact Hs.
    + exact Hb.
  - intros p Hlo Hhi. rewrite (round3_upper_band p Hlo Hhi).
    split; [reflexivity|]. split; [vm_compute; reflexivity|].
    unfold _infer_risk_band. rewrite (lt_ge_false _ _ Hhi).
    assert (H4 : F64.ge p (F64.dec 4 10) = true).
    { apply (ge_trans _ _ _ Hlo). vm_compute. reflexivity. }
    rewrite H4. reflexivity.
  - intros p Hlo Hhi. rewrite (round3_middle_band p Hlo Hhi).
    split; [reflexivity|]. split; [vm_compute; reflexivity|].
    unfold _infer_risk_band.
    pose proof (lt_ge_false _ _ Hhi) as H4.
    destruct (F64.ge p (F64.dec 7 10)) eqn:H7.
    + rewrite (ge_07_ge_04 p H7) in H4. discriminate H4.
    + rewrite H4. reflexivity.
Qed.

Lemma band_is_computed_from_rounded_score_witness :
  exists res w' raw out,
    run_pipeline Demo.B (Some "in.csv") "out.csv" false 0 Demo.disk
      = (Ok res, w') /\
    (pipeline_predict_proba Demo.B (model res) Demo.table
       ≫= column_1 (length (rf_classes Demo.B
                              (named_steps_model (model res)))))
      = Ok raw /\
    raw = replicate 3 (F64.dec 6996 10000) /\
    head (written w') = Some ("out.csv", out) /\
    get_column "employee_id" out = Ok (StrCol ["E1"; "E2"; "E3"]) /\
    get_column "risk_score" out
      = Ok (FloatCol (replicate 3 (F64.dec 7 10))) /\
    get_column "risk_band" out = Ok (StrCol ["High"; "High"; "High"]) /\
    _infer_risk_band (F64.dec 6996 10000) = "Medium".
Proof.
  destruct (run_pipeline Demo.B (Some "in.csv") "out.csv" false 0 Demo.disk)
    as [[res|e] w'] eqn:E; [|vm_compute in E; discriminate E].
  destruct (band_is_computed_from_rounded_score _ _ _ _ _ _ _ _ E)
    as ((df & w1 & frame & tr & w2 & w3 & x & raw & w4 & out
         & Hload & Hframe & _ & _ & _ & Hx & Hraw & Hw & _ & Hcols & _
         & Hs & Hb) & Hup & _).
  destruct (Hup (F64.dec 6996 10000)) as (_ & _ & Hm);
    [vm_compute; reflexivity | vm_compute; reflexivity |].
  assert (Hf : frame = Demo.table).
  { vm_compute in Hload. injection Hload as <- <-. simpl in Hframe.
    injection Hframe as <-. reflexivity. }
  subst frame.
  assert (Hxt : x = Demo.table).
  { vm_compute in Hx. injection Hx as <-. reflexivity. }
  subst x.
  assert (Hr : raw = replicate 3 (F64.dec 6996 10000)).
  { vm_compute in E. injection E as <- _. vm_compute in Hraw.
    injection Hraw as <-. vm_compute. reflexivity. }
  exists res, w', raw, out.
  split; [reflexivity|]. split; [exact Hraw|]. split; [exact Hr|].
  split; [exact Hw|]. split; [|split; [|split]].
  - rewrite (Hcols "employee_id"); [reflexivity | simpl; tauto].
  - rewrite Hs, Hr. vm_compute. reflexivity.
  - rewrite Hb, Hr. vm_compute. reflexivity.
  - exact Hm.
Defined.

(** ** Part III.  Further properties of the code *)

(** *** The bander *)

(** X1.  The band never goes down when the score goes up: for scores
    s1 <= s2 the band of s2 is the band of s1 or a higher one.  A score
    that is not a number is banded Low. *)
Theorem infer_risk_band_monotone (s1 s2 : float) :
  F64.le s1 s2 = true ->
  (band_rank (_infer_risk_band s1) <= band_rank (_infer_risk_band s2))%nat /\
  _infer_risk_band S754_nan = "Low".
Proof.
  intros Hle. split; [|reflexivity]. unfold _infer_risk_band, F64.le in *.
  destruct (F64.ge s1 (F64.dec 7 10)) eqn:H1.
  - unfold F64.ge in *. rewrite (SFleb_trans _ _ _ H1 Hle). reflexivity.
  - destruct (F64.ge s1 (F64.dec 4 10)) eqn:H2.
    + unfold F64.ge in *. rewrite (SFleb_trans _ _ _ H2 Hle).
      destruct (SFleb (F64.dec 7 10) s2); vm_compute; lia.
    + destruct (F64.ge s2 (F64.dec 7 10)), (F64.ge s2 (F64.dec 4 10));
        vm_compute; lia.
Qed.

Lemma infer_risk_band_monotone_witness :
  F64.le (F64.dec 39 100) (F64.dec 71 100) = true /\
  (band_rank (_infer_risk_band (F64.dec 39 100))
   <= band_rank (_infer_risk_band (F64.dec 71 100)))%nat.
Proof.
  split; [vm_compute; reflexivity|].
  apply (infer_risk_band_monotone (F64.dec 39 100) (F64.dec 71 100)).
  vm_compute. reflexivity.
Defined.

(** *** The best key of a dict *)

Lemma SFltb_leb_trans (x y z : float) :
  SFltb x y = true -> SFleb y z = true -> SFltb x z = true.
Proof.
  unfold SFleb, SFltb.
  destruct x as [sx|sx| |sx mx ex], y as [sy|sy| |sy my ey],
           z as [sz|sz| |sz mz ez];
    cbn -[Z.compare Pos.compare_cont]; try discriminate; try reflexivity;
    try (destruct sx; try discriminate; try reflexivity;
         destruct sy; try discriminate; try reflexivity;
         destruct sz; try discriminate; reflexivity);
    try (destruct sx, sy; try discriminate; try reflexivity;
         destruct sz; try discriminate; reflexivity);
    try (destruct sx, sz; try discriminate; try reflexivity;
         destruct sy; try discriminate; reflexivity);
    try (destruct sy, sz; try discriminate; try reflexivity;
         destruct sx; try discriminate; reflexivity).
  all: destruct sx, sy, sz; try discriminate; try reflexivity.
  all: change (Pos.compare_cont Eq mx my) with (Pos.compare mx my);
       change (Pos.compare_cont Eq my mz) with (Pos.compare my mz);
       change (Pos.compare_cont Eq mx mz) with (Pos.compare mx mz).
  all: destruct (Z.compare_spec ex ey); destruct (Z.compare_spec ey ez);
       destruct (Z.compare_spec ex ez); try discriminate; try reflexivity;
       try (exfalso; lia); subst.
  all: destruct (Pos.compare_spec mx my); destruct (Pos.compare_spec my mz);
       destruct (Pos.compare_spec mx mz); try discriminate; try reflexivity;
       try (exfalso; lia).
Qed.

Lemma SFleb_ltb_trans (x y z : float) :
  SFleb x y = true -> SFltb y z = true -> SFltb x z = true.
Proof.
  unfold SFleb, SFltb.
  destruct x as [sx|sx| |sx mx ex], y as [sy|sy| |sy my ey],
           z as [sz|sz| |sz mz ez];
    cbn -[Z.compare Pos.compare_cont]; try discriminate; try reflexivity;
    try (destruct sx; try discriminate; try reflexivity;
         destruct sy; try discriminate; try reflexivity;
         destruct sz; try discriminate; reflexivity);
    try (destruct sx, sy; try discriminate; try reflexivity;
         destruct sz; try discriminate; reflexivity);
    try (destruct sx, sz; try discriminate; try reflexivity;
         destruct sy; try discriminate; reflexivity);
    try (destruct sy, sz; try discriminate; try reflexivity;
         destruct sx; try discriminate; reflexivity).
  all: destruct sx, sy, sz; try discriminate; try reflexivity.
  all: change (Pos.compare_cont Eq mx my) with (Pos.compare mx my);
       change (Pos.compare_cont Eq my mz) with (Pos.compare my mz);
       change (Pos.compare_cont Eq mx mz) with (Pos.compare mx mz).
  all: destruct (Z.compare_spec ex ey); destruct (Z.compare_spec ey ez);
       destruct (Z.compare_spec ex ez); try discriminate; try reflexivity;
       try (exfalso; lia); subst.
  all: destruct (Pos.compare_spec mx my); destruct (Pos.compare_spec my mz);
       destruct (Pos.compare_spec mx mz); try discriminate; try reflexivity;
       try (exfalso; lia).
Qed.

(** [max] returns the first of the items with the greatest key: the items
    before it have smaller keys, the items after it have keys that are
    not greater. *)
Lemma max_by_first {A} (key : A -> float) (best : A) (l : list A) :
  Forall (fun y => F64.is_nan (key y) = false) (best :: l) ->
  exists l1 l2,
    (best :: l) = (l1 ++ max_by key best l :: l2)%list /\
    Forall (fun y => F64.lt (key y) (key (max_by key best l)) = true) l1 /\
    Forall (fun y => F64.ge (key (max_by key best l)) (key y) = true) l2.
Proof.
  revert best. induction l as [|x l IH]; intros best Hn; simpl.
  - exists [], []. repeat split; constructor.
  - inversion Hn as [|? ? Hb Hn']; subst.
    inversion Hn' as [|? ? Hx Hl]; subst.
    destruct (F64.gt (key x) (key best)) eqn:E.
    + destruct (IH x Hn') as (l1 & l2 & Hd & H1 & H2).
      exists (best :: l1), l2. split; [simpl; f_equal; exact Hd|].
      split; [|exact H2]. constructor; [|exact H1].
      unfold F64.gt in E. destruct l1 as [|y l1].
      * injection Hd as Hr _. rewrite <- Hr. exact E.
      * injection Hd as <- _. inversion H1; subst.
        unfold F64.lt in *.
        apply (SFleb_ltb_trans _ (key x)); [|assumption].
        apply (lt_ge (key best) (key x)). exact E.
    + assert (Hge : F64.ge (key best) (key x) = true)
        by (apply lt_false_ge; assumption).
      assert (Hbl : Forall (fun y => F64.is_nan (key y) = false) (best :: l))
        by (constructor; assumption).
      destruct (IH best Hbl) as (l1 & l2 & Hd & H1 & H2).
      destruct l1 as [|y l1].
      * injection Hd as Hr Hl2. exists [], (x :: l2).
        split; [simpl; f_equal; [exact Hr | f_equal; exact Hl2]|].
        split; [constructor|]. constructor; [|exact H2].
        rewrite <- Hr. exact Hge.
      * injection Hd as <- Hl2. exists (best :: x :: l1), l2.
        split; [simpl; do 2 f_equal; exact Hl2|]. split; [|exact H2].
        inversion H1 as [|? ? Hbr H1']; subst.
        constructor; [exact Hbr|]. constructor; [|exact H1'].
        unfold F64.lt, F64.ge in *.
        exact (SFleb_ltb_trans _ _ _ Hge Hbr).
Qed.

Lemma dict_weight_In (d : dict float) (k : string) (w : float) :
  List.NoDup (dict_keys d) -> In (k, w) d -> dict_weight d k = w.
Proof.
  intros Hnd Hin. unfold dict_weight.
  rewrite (dict_get_In d k w Hnd Hin). reflexivity.
Qed.

(** X2.  The summary of an empty table is the text insufficient data.
    For a table with distinct keys whose weights are numbers, the summary
    is the key, with the texts cat__ and num__ removed, of the first
    entry of greatest weight: the entries before it weigh less, the
    entries after it do not weigh more. *)
Theorem top_driver_summary_is_first_maximum (d : dict float) :
  List.NoDup (dict_keys d) ->
  Forall (fun kv => F64.is_nan (snd kv) = false) d ->
  d <> [] ->
  _top_driver_summary [] = "insufficient data" /\
  exists d1 k wk d2,
    d = (d1 ++ (k, wk) :: d2)%list /\
    Forall (fun kv => F64.lt (snd kv) wk = true) d1 /\
    Forall (fun kv => F64.ge wk (snd kv) = true) d2 /\
    _top_driver_summary d = strip_prefixes k.
Proof.
  intros Hnd Hnum Hne. split; [reflexivity|].
  destruct d as [|[k0 w0] rest]; [congruence|]. clear Hne.
  set (d := (k0, w0) :: rest) in *.
  assert (Hw : forall kv, In kv d -> dict_weight d (fst kv) = snd kv).
  { intros [k w] Hin. exact (dict_weight_In d k w Hnd Hin). }
  assert (Hkeys : Forall (fun k => F64.is_nan (dict_weight d k) = false)
                         (k0 :: map fst rest)).
  { change (k0 :: map fst rest) with (map fst d).
    apply List.Forall_forall. intros k Hk. apply in_map_iff in Hk.
    destruct Hk as (kv & <- & Hin). rewrite (Hw kv Hin).
    rewrite List.Forall_forall in Hnum. exact (Hnum kv Hin). }
  destruct (max_by_first (dict_weight d) k0 (map fst rest) Hkeys)
    as (l1 & l2 & Hd & H1 & H2).
  set (top := max_by (dict_weight d) k0 (map fst rest)) in *.
  change (k0 :: map fst rest) with (map fst d) in Hd.
  apply map_eq_app in Hd. destruct Hd as (d1 & d2' & Ed & E1 & E2).
  apply map_eq_cons in E2. destruct E2 as ([k wk] & d2 & -> & Ek & E2).
  simpl in Ek. exists d1, k, wk, d2.
  assert (Hin : In (k, wk) d) by (rewrite Ed; apply in_elt).
  assert (Htop : dict_weight d top = wk).
  { rewrite <- Ek. exact (Hw (k, wk) Hin). }
  split; [exact Ed|]. split; [|split].
  - apply List.Forall_forall. intros kv Hkv.
    assert (Hkv' : In kv d) by (rewrite Ed; apply in_or_app; auto).
    rewrite <- Htop, <- (Hw kv Hkv').
    rewrite List.Forall_forall in H1. apply H1. rewrite <- E1.
    apply in_map. exact Hkv.
  - apply List.Forall_forall. intros kv Hkv.
    assert (Hkv' : In kv d)
      by (rewrite Ed; apply in_or_app; right; right; exact Hkv).
    rewrite <- Htop, <- (Hw kv Hkv').
    rewrite List.Forall_forall in H2. apply H2. rewrite <- E2.
    apply in_map. exact Hkv.
  - rewrite Ek. reflexivity.
Qed.

Lemma top_driver_summary_is_first_maximum_witness :
  exists d1 d2,
    [("tenure_months", F64.dec 1 10);
     ("cat__dept_num__Sales", F64.dec 4 10);
     ("engagement_score", F64.dec 4 10)]
      = (d1 ++ ("cat__dept_num__Sales", F64.dec 4 10) :: d2)%list /\
    _top_driver_summary
      [("tenure_months", F64.dec 1 10);
       ("cat__dept_num__Sales", F64.dec 4 10);
       ("engagement_score", F64.dec 4 10)] = "dept_Sales".
Proof.
  destruct (top_driver_summary_is_first_maximum
              [("tenure_months", F64.dec 1 10);
               ("cat__dept_num__Sales", F64.dec 4 10);
               ("engagement_score", F64.dec 4 10)])
    as (_ & d1 & k & wk & d2 & Hd & _ & _ & Hs).
  - repeat (constructor; [simpl; intuition discriminate|]). constructor.
  - repeat constructor.
  - discriminate.
  - exists [("tenure_months", F64.dec 1 10)],
           [("engagement_score", F64.dec 4 10)].
    split; reflexivity.
Defined.

(** *** Label preparation: errors and result *)

Lemma get_column_missing (name : string) (df : DataFrame) :
  has_column name df = false -> get_column name df = Raise (KeyError name).
Proof.
  unfold has_column, columns. induction df as [|[n c] df IH]; simpl;
    [reflexivity|].
  rewrite (String.eqb_sym name n).
  destruct (String.eqb n name); simpl; [discriminate | exact IH].
Qed.

Lemma has_column_get (name : string) (df : DataFrame) (c : column) :
  get_column name df = Ok c -> has_column name df = true.
Proof.
  intros H. destruct (has_column name df) eqn:E; [reflexivity|].
  rewrite (get_column_missing _ _ E) in H. discriminate.
Qed.

Lemma has_column_set_column (name : string) (col : column) (df : DataFrame) :
  has_column name (set_column name col df) = true.
Proof. exact (has_column_get _ _ _ (get_set_column name col df)). Qed.

Lemma columns_set_column_new (name : string) (col : column) (df : DataFrame) :
  has_column name df = false ->
  columns (set_column name col df) = (columns df ++ [name])%list.
Proof.
  unfold has_column, columns. induction df as [|[n c] df IH]; simpl;
    [reflexivity|].
  rewrite (String.eqb_sym name n).
  destruct (String.eqb n name); simpl; [discriminate|].
  intros H. f_equal. exact (IH H).
Qed.

(** X3.  When the frame has no label column and lacks one of the four
    signal columns, the ones read before it being numeric, label
    preparation raises a KeyError for that column and changes nothing:
    no copy has been made. *)
Theorem prepare_training_data_missing_signal
    (w : World) (r : ref) (df : DataFrame) (i : nat) (name : string) :
  heap w !! r = Some df ->
  has_column "exit_flag" df = false ->
  signal_columns !! i = Some name ->
  (forall j earlier, (j < i)%nat -> signal_columns !! j = Some earlier ->
                     exists cells, numeric_column earlier df cells) ->
  has_column name df = false ->
  _prepare_training_data r w = (Raise (KeyError name), w).
Proof.
  intros Hr Hno Hi Hearlier Hmiss.
  unfold _prepare_training_data.
  rewrite (bind_step _ _ _ _ _ (deref_run _ _ _ Hr)), Hno.
  apply bind_raise. unfold lift. f_equal. unfold heuristic.
  pose proof (get_column_missing _ _ Hmiss) as Hget.
  assert (Hnum : forall j earlier,
             (j < i)%nat -> signal_columns !! j = Some earlier ->
             exists c cells, get_column earlier df = Ok c
                             /\ col_nums c = Some cells).
  { intros j e Hj He. destruct (Hearlier j e Hj He) as (cells & c & G & N).
    eauto. }
  destruct i as [|[|[|[|i]]]]; simpl in Hi; try discriminate;
    injection Hi as <-.
  - rewrite Hget. reflexivity.
  - destruct (Hnum 0%nat _ ltac:(lia) eq_refl) as (c0 & n0 & G0 & N0).
    rewrite G0, Hget. simpl. unfold series_lt. rewrite N0. reflexivity.
  - destruct (Hnum 0%nat _ ltac:(lia) eq_refl) as (c0 & n0 & G0 & N0).
    destruct (Hnum 1%nat _ ltac:(lia) eq_refl) as (c1 & n1 & G1 & N1).
    rewrite G0, G1, Hget. simpl. unfold series_lt, series_gt.
    rewrite N0, N1. reflexivity.
  - destruct (Hnum 0%nat _ ltac:(lia) eq_refl) as (c0 & n0 & G0 & N0).
    destruct (Hnum 1%nat _ ltac:(lia) eq_refl) as (c1 & n1 & G1 & N1).
    destruct (Hnum 2%nat _ ltac:(lia) eq_refl) as (c2 & n2 & G2 & N2).
    rewrite G0, G1, G2, Hget. simpl. unfold series_lt, series_gt.
    rewrite N0, N1, N2. reflexivity.
Qed.

Lemma prepare_training_data_missing_signal_witness :
  _prepare_training_data 0%nat
    {| heap := [Demo.table_missing]; files := []; written := []; log := [] |}
  = (Raise (KeyError "engagement_score"),
     {| heap := [Demo.table_missing]; files := []; written := []; log := [] |}).
Proof.
  apply (prepare_training_data_missing_signal _ 0%nat Demo.table_missing
           0%nat "engagement_score"); try reflexivity.
  intros j earlier Hj. lia.
Defined.

(** X4.  The frame that label preparation returns always has the label
    column, and its other columns are those of the input.  When the
    input had no label column, the labels are one per record, each 0 or
    1, in a new last column. *)
Theorem prepare_training_data_result_has_label
    (w w' : World) (r r' : ref) :
  _prepare_training_data r w = (Ok r', w') ->
  exists df training_df,
    heap w !! r = Some df /\
    heap w' !! r' = Some training_df /\
    has_column "exit_flag" training_df = true /\
    (forall c, c <> "exit_flag" ->
               get_column c training_df = get_column c df) /\
    (has_column "exit_flag" df = false ->
     exists labels,
       get_column "exit_flag" training_df = Ok (IntCol labels) /\
       Forall (fun z => z = 0 \/ z = 1) labels /\
       length labels = nrows df /\
       columns training_df = (columns df ++ ["exit_flag"])%list).
Proof.
  unfold _prepare_training_data. intros H.
  apply bind_ok in H. destruct H as (df & w1 & Hd & H).
  apply deref_ok in Hd. destruct Hd as [Hr E]. subst w1.
  destruct (has_column "exit_flag" df) eqn:Hhas.
  - apply mret_ok in H. destruct H as [<- <-].
    exists df, df. split; [exact Hr|]. split; [exact Hr|].
    split; [exact Hhas|]. split; [reflexivity|].
    rewrite Hhas. discriminate.
  - apply bind_ok in H. destruct H as (h & w1 & Hh & H).
    apply lift_ok in Hh. destruct Hh as [Hh E]. subst w1.
    rewrite (bind_step _ _ _ _ _ (df_copy_run _ _ _ Hr)) in H.
    apply bind_ok in H. destruct H as (u & w1 & Hset & H).
    apply df_setitem_last_ok in Hset. destruct Hset as [Hlen E]. subst w1.
    apply mret_ok in H. destruct H as [E1 E2]. subst r' w'.
    exists df, (set_column "exit_flag"
                  (IntCol (bools_astype_int (series_ge h 2))) df).
    split; [exact Hr|]. split; [simpl; apply lookup_snoc|].
    split; [apply has_column_set_column|]. split.
    + intros c Hc. apply get_set_column_other. exact Hc.
    + intros _. exists (bools_astype_int (series_ge h 2)).
      split; [apply get_set_column|]. split; [|split].
      * unfold bools_astype_int. apply List.Forall_forall. intros z Hz.
        apply in_map_iff in Hz. destruct Hz as ([|] & <- & _); auto.
      * destruct Hlen as [Hlen | ->]; [exact Hlen|].
        unfold heuristic in Hh. discriminate Hh.
      * apply columns_set_column_new. exact Hhas.
Qed.

Lemma prepare_training_data_result_has_label_witness :
  exists w' training_df,
    _prepare_training_data 0%nat Demo.world = (Ok 1%nat, w') /\
    heap w' !! 1%nat = Some training_df /\
    has_column "exit_flag" training_df = true /\
    get_column "exit_flag" training_df = Ok (IntCol [1; 0; 1]).
Proof.
  destruct (_prepare_training_data 0%nat Demo.world) as [x w'] eqn:E.
  assert (Hx : x = Ok 1%nat) by (vm_compute in E; congruence).
  subst x.
  destruct (prepare_training_data_result_has_label _ _ _ _ E)
    as (df & tdf & Hdf & Htdf & Hhas & _ & _).
  exists w', tdf. repeat split; try assumption.
  vm_compute in E. injection E as <-. simpl in Htdf.
  injection Htdf as <-. reflexivity.
Defined.

(** *** Training needs the label *)

(** X5.  Training a frame without the label column raises the error
    that says so and does nothing else: no fit is attempted.  When
    training succeeds the frame has the label column; the estimator has
    been fitted once and applied once, and no frame or file has
    changed. *)
Theorem train_model_requires_label
    (B : Backend) (r : ref) (w : World) (df : DataFrame) :
  heap w !! r = Some df ->
  (has_column "exit_flag" df = false ->
   train_model B r w
     = (Raise (ValueError "Training data must include exit_flag column."), w))
  /\
  (forall res w',
     train_model B r w = (Ok res, w') ->
     has_column "exit_flag" df = true /\
     heap w' = heap w /\ files w' = files w /\ written w' = written w /\
     log w' = (log w ++ [EvFit; EvPredictProba])%list).
Proof.
  intros Hr. split.
  - intros Hno. unfold train_model.
    rewrite (bind_step _ _ _ _ _ (deref_run _ _ _ Hr)).
    unfold TARGET_COLUMN. rewrite Hno. reflexivity.
  - intros res w' H.
    destruct (train_model_inv _ _ _ _ _ H)
      as (df' & x & y & proba & Hd & Hhas & _ & _ & _ & _ & _ & _ & ->).
    rewrite Hr in Hd. injection Hd as <-.
    repeat split. exact Hhas.
Qed.

Lemma train_model_requires_label_witness :
  train_model Demo.B 0%nat Demo.world
    = (Raise (ValueError "Training data must include exit_flag column."),
       Demo.world) /\
  exists res w',
    train_model Demo.B 0%nat Demo.world_labelled = (Ok res, w') /\
    log w' = [EvFit; EvPredictProba].
Proof.
  split.
  - destruct (train_model_requires_label Demo.B 0%nat Demo.world Demo.table
                eq_refl) as [H _].
    exact (H eq_refl).
  - destruct (train_model Demo.B 0%nat Demo.world_labelled)
      as [[res|e] w'] eqn:E; [|vm_compute in E; discriminate E].
    exists res, w'. split; [reflexivity|].
    destruct (train_model_requires_label Demo.B 0%nat Demo.world_labelled
                Demo.table_labelled eq_refl) as [_ H].
    destruct (H res w' E) as (_ & _ & _ & _ & Hlog). exact Hlog.
Defined.

(** *** What a run writes *)



























(** *** The frame written *)

Lemma get_column_rectangular (n : nat) (name : string) (df : DataFrame)
    (c : column) :
  rectangular n df -> get_column name df = Ok c -> col_length c = n.
Proof.
  intros Hrect. induction Hrect as [|[k c'] df Hk _ IH]; simpl;
    [discriminate|].
  destruct (String.eqb k name); [intros [= <-]; exact Hk | exact IH].
Qed.

Lemma select_rectangular (n : nat) (names : list string) (df sel : DataFrame) :
  rectangular n df -> select names df = Ok sel -> rectangular n sel.
Proof.
  intros Hrect Hsel. apply List.Forall_forall. intros [k c] Hin.
  unfold select in Hsel.
  destruct (result_map_In _ _ _ _ Hsel Hin) as (name & _ & Hname).
  destruct (get_column name df) as [c'|e] eqn:G; simpl in Hname;
    [|discriminate].
  injection Hname as _ <-. simpl.
  exact (get_column_rectangular _ _ _ _ Hrect G).
Qed.

Lemma set_column_rectangular (n : nat) (name : string) (col : column)
    (df : DataFrame) :
  rectangular n df -> col_length col = n ->
  rectangular n (set_column name col df).
Proof.
  intros Hrect Hcol. induction Hrect as [|[k c] df Hk Hdf IH]; simpl.
  - repeat constructor. exact Hcol.
  - destruct (String.eqb k name); constructor; assumption.
Qed.

Lemma has_column_columns (name : string) (df df' : DataFrame) :
  columns df = columns df' -> has_column name df = has_column name df'.
Proof. unfold has_column. intros ->. reflexivity. Qed.

(** X7.  The frame a successful run writes has the ten output columns
    followed by the score, the band and the tag, in this order; the ten
    output columns hold what the loaded input holds; and when the input
    has n records in every column, so has the frame written. *)
Theorem run_output_frame
    (B : Backend) (input_path : option string) (output_path : string)
    (flag : bool) (rows : Z) (w w' : World) (res : ModelResult B) :
  run_pipeline B input_path output_path flag rows w = (Ok res, w') ->
  exists df w1 frame out,
    load_input B input_path flag rows w = (Ok df, w1) /\
    heap w1 !! df = Some frame /\
    head (written w') = Some (output_path, out) /\
    columns out
      = (output_columns ++ ["risk_score"; "risk_band"; "top_driver"])%list /\
    (forall c, In c output_columns -> get_column c out = get_column c frame) /\
    (forall n, rectangular n frame -> rectangular n out /\ nrows out = n).
Proof.
  intros Hrun.
  destruct (run_pipeline_inv _ _ _ _ _ _ _ _ Hrun)
    as (df & w1 & tr & w2 & w3 & raw & w4 & frame & selected
        & Hload & Hprep & Htrain & Hscore & Hframe & Hsel & Hlen & Hw').
  assert (Hloaded : heap w1 !! df = Some frame).
  { rewrite <- (run_scores_loaded_frame _ _ _ _ _ _ _ _ _ Hprep Htrain Hscore).
    exact Hframe. }
  subst w'.
  exists df, w1, frame, (output_frame selected raw (feature_importance res)).
  split; [exact Hload|]. split; [exact Hloaded|]. split; [reflexivity|].
  pose proof (select_columns _ _ _ Hsel) as Hcols.
  set (rounded := map (fun x => F64.round x 3) raw).
  set (scored := set_column "risk_score" (FloatCol rounded) selected).
  set (banded := set_column "risk_band"
                   (StrCol (map _infer_risk_band rounded)) scored).
  assert (Hc1 : columns scored = (output_columns ++ ["risk_score"])%list).
  { unfold scored. rewrite columns_set_column_new, Hcols; [reflexivity|].
    unfold has_column. rewrite Hcols. reflexivity. }
  assert (Hc2 : columns banded
                = (output_columns ++ ["risk_score"; "risk_band"])%list).
  { unfold banded. rewrite columns_set_column_new, Hc1.
    - rewrite <- app_assoc. reflexivity.
    - unfold has_column. rewrite Hc1. reflexivity. }
  split; [|split].
  - unfold output_frame. fold rounded. fold scored. fold banded.
    rewrite columns_set_column_new, Hc2.
    + rewrite <- app_assoc. reflexivity.
    + unfold has_column. rewrite Hc2. reflexivity.
  - intros c Hc. unfold output_frame.
    rewrite !get_set_column_other.
    + exact (select_get_column _ _ _ _ Hsel Hc).
    + intros ->. simpl in Hc. intuition discriminate.
    + intros ->. simpl in Hc. intuition discriminate.
    + intros ->. simpl in Hc. intuition discriminate.
  - intros n Hrect.
    pose proof (select_rectangular _ _ _ _ Hrect Hsel) as Hrs.
    assert (Hn : nrows selected = n).
    { apply nrows_rectangular; [exact Hrs|]. intros ->. discriminate Hcols. }
    destruct (output_frame_top_driver frame selected raw
                (feature_importance res) Hsel) as [Hrows _].
    split; [|rewrite Hrows; exact Hn].
    unfold output_frame. fold rounded. fold scored. fold banded.
    assert (Hr1 : rectangular n scored).
    { apply set_column_rectangular; [exact Hrs|]. simpl. unfold rounded.
      rewrite length_map. congruence. }
    assert (Hr2 : rectangular n banded).
    { apply set_column_rectangular; [exact Hr1|]. simpl. unfold rounded.
      rewrite !length_map. congruence. }
    apply set_column_rectangular; [exact Hr2|]. simpl.
    rewrite length_replicate.
    apply nrows_rectangular; [exact Hr2|]. intros E.
    rewrite E in Hc2. discriminate Hc2.
Qed.

Lemma run_output_frame_witness :
  exists res w' out,
    run_pipeline Demo.B (Some "in.csv") "out.csv" false 0 Demo.disk
      = (Ok res, w') /\
    head (written w') = Some ("out.csv", out) /\
    columns out
      = (output_columns ++ ["risk_score"; "risk_band"; "top_driver"])%list /\
    get_column "dept" out = get_column "dept" Demo.table /\
    rectangular 3 out.
Proof.
  destruct (run_pipeline Demo.B (Some "in.csv") "out.csv" false 0 Demo.disk)
    as [[res|e] w'] eqn:E; [|vm_compute in E; discriminate E].
  destruct (run_output_frame _ _ _ _ _ _ _ _ E)
    as (df & w1 & frame & out & Hload & Hframe & Hw & Hcols & Hvals & Hrect).
  assert (Hf : frame = Demo.table).
  { vm_compute in Hload. injection Hload as <- <-. simpl in Hframe.
    injection Hframe as <-. reflexivity. }
  subst frame.
  exists res, w', out. split; [reflexivity|]. split; [exact Hw|].
  split; [exact Hcols|]. split.
  - apply Hvals. simpl. tauto.
  - apply Hrect. repeat constructor.
Defined.

(** *** The table holds the heaviest columns *)

Lemma StronglySorted_app_rel {A} (R : A -> A -> Prop) (a b : list A) (x y : A) :
  StronglySorted R (a ++ b)%list -> In x a -> In y b -> R x y.
Proof.
  induction a as [|z a IH]; simpl; [contradiction|].
  intros H [-> | Hx] Hy; inversion H as [|? ? Hs Hall]; subst.
  - rewrite List.Forall_forall in Hall. apply Hall.
    apply in_or_app. right. exact Hy.
  - exact (IH Hs Hx Hy).
Qed.

(** X9.  With non-negative importances, the importance table of a
    trained model holds the heaviest encoded columns: it has eight
    entries, or all the encoded columns when there are fewer; its keys
    are distinct; and every encoded column left out weighs no more than
    any entry of the table. *)
Theorem feature_importance_table_is_top_8
    (B : Backend) (r : ref) (w w' : World) (res : ModelResult B) :
  (forall forest,
      Forall (fun x => F64.ge x F64.zero = true)
             (rf_feature_importances B forest)) ->
  train_model B r w = (Ok res, w') ->
  exists df,
    heap w !! r = Some df /\
    List.NoDup (dict_keys (feature_importance res)) /\
    length (feature_importance res)
      = Nat.min 8 (length (encoded_importances B (model res)
                             train_cat_features (train_num_features df))) /\
    (forall kept left_out,
       In kept (feature_importance res) ->
       In left_out (encoded_importances B (model res) train_cat_features
                      (train_num_features df)) ->
       ~ In left_out (feature_importance res) ->
       F64.ge (snd kept) (snd left_out) = true).
Proof.
  intros Hpos H.
  destruct (feature_importance_sorted _ _ _ _ _ Hpos H) as [Hnd _].
  destruct (feature_importance_table _ _ _ _ _ H)
    as (df & x & Hd & _ & _ & _ & Htab).
  exists df. split; [exact Hd|]. split; [exact Hnd|].
  set (encoded := encoded_importances B (model res) train_cat_features
                    (train_num_features df)) in *.
  assert (Hnum : Forall (fun kv : string * float =>
                           F64.is_nan (snd kv) = false) encoded).
  { apply List.Forall_forall. intros [k wk] Hkv. simpl.
    unfold encoded, encoded_importances in Hkv. apply in_combine_r in Hkv.
    pose proof (Hpos (named_steps_model (model res))) as Hall.
    rewrite List.Forall_forall in Hall. exact (ge_number _ _ (Hall wk Hkv)). }
  pose proof (sorted_desc_Sorted snd encoded Hnum) as Hs.
  apply Sorted_StronglySorted in Hs; [|intros a b c; apply ge_trans].
  rewrite Htab. split.
  - rewrite length_firstn.
    rewrite (Permutation_length (sorted_desc_perm snd encoded)). reflexivity.
  - intros kept left_out Hk Hl Hnot.
    rewrite <- (firstn_skipn 8 (sorted_desc snd encoded)) in Hs.
    apply (StronglySorted_app_rel _ _ _ _ _ Hs Hk).
    apply (Permutation_in _ (Permutation_sym (sorted_desc_perm snd encoded)))
      in Hl.
    rewrite <- (firstn_skipn 8 (sorted_desc snd encoded)) in Hl.
    apply in_app_or in Hl. destruct Hl as [Hl | Hl]; [contradiction|exact Hl].
Qed.

Lemma feature_importance_table_is_top_8_witness :
  exists res w',
    train_model Demo.B 0%nat Demo.world_labelled = (Ok res, w') /\
    length (feature_importance res) = 8%nat /\
    F64.ge (F64.dec 5 100) (F64.dec 3 100) = true.
Proof.
  destruct (train_model Demo.B 0%nat Demo.world_labelled) as [[res|e] w'] eqn:E;
    [|vm_compute in E; discriminate E].
  exists res, w'. split; [reflexivity|].
  destruct (feature_importance_table_is_top_8 Demo.B _ _ _ _
              (fun _ => ltac:(repeat constructor)) E)
    as (df & Hd & _ & Hlen & Htop).
  injection Hd as <-.
  assert (Em : model res = Demo.pipeline).
  { pose proof E as E'. vm_compute in E'. injection E' as <- _. reflexivity. }
  rewrite Em in Hlen, Htop. split; [exact Hlen|].
  apply (Htop ("performance_score", F64.dec 5 100)
              ("absenteeism_days_month", F64.dec 3 100)).
  - pose proof E as E'. vm_compute in E'. injection E' as <- _.
    simpl. do 7 right. left. vm_compute. reflexivity.
  - vm_compute. do 5 right. left. reflexivity.
  - pose proof E as E'. vm_compute in E'. injection E' as <- _.
    simpl. intuition discriminate.
Defined.

(** *** The sample *)

Lemma map_fst_combine {A B} (a : list A) (b : list B) :
  length b = length a -> map fst (combine a b) = a.
Proof.
  revert b. induction a as [|x a IH]; intros [|y b]; simpl; try discriminate;
    [reflexivity|].
  intros [= H]. f_equal. exact (IH b H).
Qed.

(** [str] of distinct positive ints gives distinct texts. *)
Lemma str_of_Z_inj (a b : Z) :
  0 < a -> 0 < b -> str_of_Z a = str_of_Z b -> a = b.
Proof.
  intros Ha Hb H. unfold str_of_Z in H.
  assert (Hnil : forall z, 0 < z ->
             Z.to_int z <> Decimal.Pos Decimal.Nil
             /\ Z.to_int z <> Decimal.Neg Decimal.Nil).
  { intros z Hz. split; intros E; apply (f_equal Z.of_int) in E;
      rewrite DecimalZ.of_to in E;
      [change (Z.of_int (Decimal.Pos Decimal.Nil)) with 0 in E
      |change (Z.of_int (Decimal.Neg Decimal.Nil)) with 0 in E]; lia. }
  destruct (Hnil a Ha) as [A1 A2], (Hnil b Hb) as [B1 B2].
  apply (f_equal NilZero.int_of_string) in H.
  rewrite (NilZero.isi _ A1 A2), (NilZero.isi _ B1 B2) in H.
  injection H as H. apply (f_equal Z.of_int) in H.
  rewrite !DecimalZ.of_to in H. exact H.
Qed.

(** X11.  When the generator draws the eleven random columns, the sample
    of a non-negative number of rows is a new frame with exactly the
    twelve required columns in their order: it passes validation and has
    no label column, so that a sample run always synthesizes its labels.
    The employee ids are E1000, E1001, ... one per row, all distinct. *)
Theorem generate_sample_frame (B : Backend) (config : SampleConfig) (w : World) :
  0 <= rows config ->
  length (rng_sample B (seed config) (rows config)) = 11%nat ->
  exists frame ids,
    generate_sample B (Some config) w
      = (Ok (length (heap w)),
         {| heap := (heap w ++ [frame])%list; files := files w;
            written := written w;
            log := (log w ++ [EvGenerateSample (rows config)])%list |}) /\
    columns frame = REQUIRED_COLUMNS /\
    missing_columns frame = [] /\
    has_column "exit_flag" frame = false /\
    get_column "employee_id" frame = Ok (StrCol ids) /\
    length ids = Z.to_nat (rows config) /\
    (forall idx, (idx < Z.to_nat (rows config))%nat ->
       ids !! idx = Some ("E" ++ str_of_Z (1000 + Z.of_nat idx))) /\
    List.NoDup ids.
Proof.
  intros Hrows Hrng.
  set (ids := map (fun idx => "E" ++ str_of_Z (1000 + Z.of_nat idx))
                  (seq 0 (Z.to_nat (rows config)))).
  set (frame := combine REQUIRED_COLUMNS
                  (StrCol ids :: rng_sample B (seed config) (rows config))).
  assert (Hcols : columns frame = REQUIRED_COLUMNS).
  { unfold columns, frame. apply map_fst_combine. simpl. rewrite Hrng.
    reflexivity. }
  exists frame, ids. split; [|split; [exact Hcols|split; [|split; [|split]]]].
  - unfold generate_sample. rewrite bind_run. simpl.
    destruct (rows config <? 0)%Z eqn:E; [apply Z.ltb_lt in E; lia|].
    reflexivity.
  - unfold missing_columns, has_column. rewrite Hcols. reflexivity.
  - unfold has_column. rewrite Hcols. reflexivity.
  - reflexivity.
  - split; [unfold ids; rewrite length_map, length_seq; reflexivity|]. split.
    + intros idx Hidx. unfold ids.
      apply (map_lookup (fun idx => "E" ++ str_of_Z (1000 + Z.of_nat idx))).
      rewrite lookup_seq_lt by exact Hidx. reflexivity.
    + unfold ids. apply NoDup_map_inj; [|apply seq_NoDup].
      intros a b E. injection E as E. apply str_of_Z_inj in E; lia.
Qed.

Lemma generate_sample_frame_witness :
  exists frame w',
    generate_sample Demo.B (Some {| rows := 2; seed := 42 |})
      {| heap := []; files := []; written := []; log := [] |}
      = (Ok 0%nat, w') /\
    heap w' = [frame] /\
    columns frame = REQUIRED_COLUMNS /\
    get_column "employee_id" frame = Ok (StrCol ["E1000"; "E1001"]).
Proof.
  destruct (generate_sample_frame Demo.B {| rows := 2; seed := 42 |}
              {| heap := []; files := []; written := []; log := [] |})
    as (frame & ids & Hrun & Hcols & _ & _ & Hid & _ & Hids & _);
    [simpl; lia | reflexivity |].
  exists frame. eexists. split; [exact Hrun|]. split; [reflexivity|].
  split; [exact Hcols|]. rewrite Hid.
  pose proof Hrun as Hr. vm_compute in Hr. injection Hr as Hf.
  rewrite <- Hf in Hid. vm_compute in Hid. injection Hid as <-. reflexivity.
Defined.

(** *** The calls of a run *)

Lemma prepare_ok_world (r r' : ref) (w w' : World) (df : DataFrame) :
  heap w !! r = Some df ->
  _prepare_training_data r w = (Ok r', w') ->
  (has_column "exit_flag" df = true -> r' = r /\ w' = w) /\
  (has_column "exit_flag" df = false ->
   r' = length (heap w) /\
   length (heap w') = S (length (heap w)) /\
   log w' = (log w ++ [EvCopy r (length (heap w));
                       EvSetItem (length (heap w)) "exit_flag"])%list).
Proof.
  intros Hr H. unfold _prepare_training_data in H.
  rewrite (bind_step _ _ _ _ _ (deref_run _ _ _ Hr)) in H.
  destruct (has_column "exit_flag" df) eqn:Hhas.
  - apply mret_ok in H. destruct H as [<- <-]. split; [auto | discriminate].
  - split; [discriminate|]. intros _.
    apply bind_ok in H. destruct H as (h & w1 & Hh & H).
    apply lift_ok in Hh. destruct Hh as [_ E]. subst w1.
    rewrite (bind_step _ _ _ _ _ (df_copy_run _ _ _ Hr)) in H.
    apply bind_ok in H. destruct H as (u & w1 & Hset & H).
    apply df_setitem_last_ok in Hset. destruct Hset as [_ E]. subst w1.
    apply mret_ok in H. destruct H as [E1 E2]. subst r' w'. simpl.
    rewrite length_app, <- app_assoc. simpl. repeat split. lia.
Qed.

(** What loading the input has done when it succeeds. *)
Lemma load_input_ok (B : Backend) (input_path : option string) (flag : bool)
    (rows : Z) (w w1 : World) (df : ref) :
  load_input B input_path flag rows w = (Ok df, w1) ->
  df = length (heap w) /\
  length (heap w1) = S (length (heap w)) /\
  exists ev,
    log w1 = (log w ++ [ev])%list /\
    (flag = true -> ev = EvGenerateSample rows) /\
    (flag = false -> exists path, input_path = Some path /\ ev = EvReadCsv path).
Proof.
  unfold load_input. destruct flag.
  - unfold generate_sample. intros H.
    apply bind_ok in H. destruct H as (u & w0 & He & H).
    apply emit_ok in He. subst w0. simpl in H.
    destruct (rows <? 0); [discriminate H|].
    apply alloc_ok in H. destruct H as [-> ->]. simpl.
    rewrite length_app. simpl. split; [reflexivity|]. split; [lia|].
    exists (EvGenerateSample rows). split; [reflexivity|].
    split; [reflexivity | discriminate].
  - destruct input_path as [path|]; [|discriminate].
    destruct (assoc path (files w)) as [frame|] eqn:Hfile.
    + rewrite (load_csv_run _ _ _ Hfile).
      destruct (missing_columns frame); [|discriminate].
      intros [= <- <-]. simpl. rewrite length_app. simpl.
      split; [reflexivity|]. split; [lia|].
      exists (EvReadCsv path). split; [reflexivity|].
      split; [discriminate | eauto].
    + unfold load_csv. intros H. apply bind_ok in H.
      destruct H as (r & w0 & Hr & _).
      rewrite (read_csv_missing _ _ Hfile) in Hr. discriminate Hr.
Qed.

(** X6.  The recorded calls of a run that succeeds, in order: the input
    is read or generated, as a new frame; when that frame has no label
    column, it is copied and the label is set on the copy; the estimator
    is fitted once and applied once, in training; it is applied once
    more, to score the input; the output columns of the input are copied
    to a new frame, on which the score, the band and the tag are set;
    the directory of the output path is made; that frame is saved at the
    output path.  The record holds the calls that make or change a frame
    object, that fit or apply the estimator, and that touch the file
    system; the run makes no other call of these kinds, and it ends with
    the frames named and no other.  Temporaries that are only read, such
    as the feature selections of training and scoring, are not frame
    objects and are not in the record. *)
Theorem run_calls_in_order
    (B : Backend) (input_path : option string) (output_path : string)
    (flag : bool) (rows : Z) (w w' : World) (res : ModelResult B) :
  run_pipeline B input_path output_path flag rows w = (Ok res, w') ->
  exists w1 frame load_call prepare_calls out,
    let df := length (heap w) in
    load_input B input_path flag rows w = (Ok df, w1) /\
    heap w1 !! df = Some frame /\
    (flag = true -> load_call = EvGenerateSample rows) /\
    (flag = false ->
     exists path, input_path = Some path /\ load_call = EvReadCsv path) /\
    (has_column "exit_flag" frame = true ->
     prepare_calls = [] /\ out = S df) /\
    (has_column "exit_flag" frame = false ->
     prepare_calls = [EvCopy df (S df); EvSetItem (S df) "exit_flag"] /\
     out = S (S df)) /\
    length (heap w') = S out /\
    log w' = (log w ++ [load_call] ++ prepare_calls
              ++ [EvFit; EvPredictProba; EvPredictProba;
                  EvSelectCopy df out;
                  EvSetItem out "risk_score"; EvSetItem out "risk_band";
                  EvSetItem out "top_driver";
                  EvMkdirParent output_path; EvToCsv output_path])%list.
Proof.
  intros Hrun.
  destruct (run_pipeline_inv _ _ _ _ _ _ _ _ Hrun)
    as (df & w1 & tr & w2 & w3 & raw & w4 & frame & selected
        & Hload & Hprep & Htrain & Hscore & Hframe & _ & _ & ->).
  assert (Hloaded : heap w1 !! df = Some frame).
  { rewrite <- (run_scores_loaded_frame _ _ _ _ _ _ _ _ _ Hprep Htrain Hscore).
    exact Hframe. }
  destruct (load_input_ok _ _ _ _ _ _ _ Hload)
    as (Hdf & Hlen1 & ev & Hlog1 & Hgen & Hread).
  subst df.
  destruct (prepare_ok_world _ _ _ _ _ Hloaded Hprep) as [Hyes Hno].
  destruct (train_model_inv _ _ _ _ _ Htrain)
    as (? & ? & ? & ? & _ & _ & _ & _ & _ & _ & _ & _ & E3).
  destruct (score_inv _ _ _ _ _ _ Hscore) as (? & ? & _ & _ & _ & E4).
  assert (Hheap : heap w4 = heap w2) by (subst w4 w3; reflexivity).
  assert (Hlog : log w4 = (log w2 ++ [EvFit; EvPredictProba; EvPredictProba])%list).
  { subst w4 w3. simpl. rewrite <- app_assoc. reflexivity. }
  cbn [heap log]. rewrite Hheap, Hlog, length_app. cbn [length].
  destruct (has_column "exit_flag" frame) eqn:Hhas.
  - destruct (Hyes eq_refl) as [_ ->].
    exists w1, frame, ev, [], (S (length (heap w))).
    cbv zeta.
    split; [exact Hload|]. split; [exact Hloaded|].
    split; [exact Hgen|]. split; [exact Hread|].
    split; [auto|]. split; [congruence|].
    rewrite Hlen1, Hlog1. split; [lia|].
    rewrite <- !app_assoc. reflexivity.
  - destruct (Hno eq_refl) as (_ & Hlen & Hl).
    exists w1, frame, ev,
      [EvCopy (length (heap w)) (S (length (heap w)));
       EvSetItem (S (length (heap w))) "exit_flag"],
      (S (S (length (heap w)))).
    cbv zeta.
    split; [exact Hload|]. split; [exact Hloaded|].
    split; [exact Hgen|]. split; [exact Hread|].
    split; [congruence|]. split; [auto|].
    rewrite Hlen, Hl, Hlen1, Hlog1. split; [lia|].
    rewrite <- !app_assoc. reflexivity.
Qed.

Lemma run_calls_in_order_witness :
  exists res w',
    run_pipeline Demo.B (Some "in.csv") "out.csv" false 0 Demo.disk
      = (Ok res, w') /\
    length (heap w') = 3%nat /\
    log w' = [EvReadCsv "in.csv"; EvCopy 0%nat 1%nat;
              EvSetItem 1%nat "exit_flag"; EvFit; EvPredictProba;
              EvPredictProba; EvSelectCopy 0%nat 2%nat;
              EvSetItem 2%nat "risk_score";
              EvSetItem 2%nat "risk_band"; EvSetItem 2%nat "top_driver";
              EvMkdirParent "out.csv"; EvToCsv "out.csv"].
Proof.
  destruct (run_pipeline Demo.B (Some "in.csv") "out.csv" false 0 Demo.disk)
    as [[res|e] w'] eqn:E; [|vm_compute in E; discriminate E].
  exists res, w'. split; [reflexivity|].
  destruct (run_calls_in_order _ _ _ _ _ _ _ _ E)
    as (w1 & frame & ev & calls & out & Hload & Hframe & _ & Hread & _ & Hno
        & Hlen & Hlog).
  destruct (Hread eq_refl) as (path & [= <-] & ->).
  vm_compute in Hload. injection Hload as <-.
  simpl in Hframe. injection Hframe as <-.
  destruct (Hno eq_refl) as [-> ->]. split; [exact Hlen | exact Hlog].
Defined.

(** *** What training does not look at *)

Lemma has_column_get_column (name : string) (df : DataFrame) :
  has_column name df
    = match get_column name df with Ok _ => true | Raise _ => false end.
Proof.
  destruct (get_column name df) as [c|e] eqn:G.
  - exact (has_column_get _ _ _ G).
  - destruct (has_column name df) eqn:E; [|reflexivity].
    exfalso. revert G. clear -E. unfold has_column, columns in E.
    induction df as [|[n c] df IH]; simpl in *; [discriminate|].
    rewrite (String.eqb_sym name n) in E.
    destruct (String.eqb n name); [discriminate | auto].
Qed.

Lemma same_training_data_has_column (df1 df2 : DataFrame) (c : string) :
  same_training_data df1 df2 ->
  In c REQUIRED_COLUMNS \/ c = "exit_flag" ->
  has_column c df1 = has_column c df2.
Proof.
  intros (Hreq & Hlab & Hid) Hc. rewrite !has_column_get_column.
  destruct (String.eqb c "employee_id") eqn:E.
  - apply String.eqb_eq in E. subst c.
    destruct (get_column "employee_id" df1), (get_column "employee_id" df2);
      tauto.
  - apply String.eqb_neq in E. destruct Hc as [Hc | ->].
    + rewrite (Hreq c Hc E). reflexivity.
    + rewrite Hlab. reflexivity.
Qed.

Lemma same_training_data_features (df1 df2 : DataFrame) :
  same_training_data df1 df2 -> features_of df1 = features_of df2.
Proof.
  intros H. unfold features_of. apply filter_ext_in. intros c Hc.
  apply same_training_data_has_column; auto.
Qed.

(** Selecting the features of a frame succeeds. *)
Lemma select_features (df : DataFrame) :
  exists x, select (features_of df) df = Ok x.
Proof.
  unfold select. apply result_map_total. intros n Hn.
  unfold features_of in Hn. apply filter_In in Hn. destruct Hn as [_ Hn].
  rewrite has_column_get_column in Hn.
  destruct (get_column n df); [simpl; eauto | discriminate].
Qed.

Lemma select_get_column_absent (names : list string) (df x : DataFrame)
    (n : string) :
  select names df = Ok x -> ~ In n names ->
  get_column n x = Raise (KeyError n).
Proof.
  intros Hsel Hn. apply get_column_missing.
  rewrite has_column_get_column.
  destruct (get_column n x) as [c|e] eqn:G; [|reflexivity].
  apply get_column_In in G. rewrite (select_columns _ _ _ Hsel) in G.
  contradiction.
Qed.

(** The selections of two frames with the same training data give the
    column transformer the same columns. *)
Lemma same_training_data_ct_column (df1 df2 x1 x2 : DataFrame) (name : string) :
  same_training_data df1 df2 ->
  select (features_of df1) df1 = Ok x1 ->
  select (features_of df2) df2 = Ok x2 ->
  name <> "employee_id" ->
  ct_column name x1 = ct_column name x2.
Proof.
  intros Hsame H1 H2 Hname. pose proof (same_training_data_features _ _ Hsame) as Hf.
  unfold ct_column.
  destruct (in_dec String.string_dec name (features_of df1)) as [Hin | Hout].
  - rewrite (select_get_column _ _ _ _ H1 Hin).
    rewrite Hf in Hin. rewrite (select_get_column _ _ _ _ H2 Hin).
    destruct Hsame as (Hreq & _ & _). rewrite (Hreq name); [reflexivity| |exact Hname].
    unfold features_of in Hin. apply filter_In in Hin. tauto.
  - rewrite (select_get_column_absent _ _ _ _ H1 Hout).
    rewrite Hf in Hout. rewrite (select_get_column_absent _ _ _ _ H2 Hout).
    reflexivity.
Qed.

Lemma same_training_data_nrows (df1 df2 x1 x2 : DataFrame) :
  same_training_data df1 df2 ->
  select (features_of df1) df1 = Ok x1 ->
  select (features_of df2) df2 = Ok x2 ->
  nrows x1 = nrows x2.
Proof.
  intros Hsame H1 H2. pose proof (same_training_data_features _ _ Hsame) as Hf.
  pose proof (select_columns _ _ _ H1) as C1.
  pose proof (select_columns _ _ _ H2) as C2.
  destruct x1 as [|[n1 c1] x1], x2 as [|[n2 c2] x2]; simpl in *;
    try reflexivity; try congruence.
  assert (Hn : n1 = n2) by congruence. subst n2.
  assert (Hin : In n1 (features_of df1)) by (rewrite <- C1; left; reflexivity).
  assert (G1 : get_column n1 df1 = Ok c1).
  { rewrite <- (select_get_column _ _ _ _ H1 Hin). simpl.
    rewrite String.eqb_refl. reflexivity. }
  assert (G2 : get_column n1 df2 = Ok c2).
  { rewrite Hf in Hin. rewrite <- (select_get_column _ _ _ _ H2 Hin). simpl.
    rewrite String.eqb_refl. reflexivity. }
  destruct Hsame as (Hreq & _ & Hid).
  destruct (String.eqb n1 "employee_id") eqn:E.
  - apply String.eqb_eq in E. subst n1. rewrite G1, G2 in Hid. exact Hid.
  - apply String.eqb_neq in E.
    assert (Hr : In n1 REQUIRED_COLUMNS).
    { unfold features_of in Hin. apply filter_In in Hin. tauto. }
    rewrite (Hreq n1 Hr E), G2 in G1. congruence.
Qed.

Lemma bind_ext {A B} (m : M A) (f g : A -> M B) (w : World) :
  (forall a w', m w = (Ok a, w') -> f a w' = g a w') ->
  (m ≫= f) w = (m ≫= g) w.
Proof.
  intros H. rewrite !bind_run. destruct (m w) as [[a|e] w']; auto.
Qed.

Lemma ct_fit_ext (B : Backend) (spec : PipelineSpec) (x1 x2 : DataFrame) :
  (forall name, In name (spec_num_features spec ++ spec_cat_features spec)%list ->
                ct_column name x1 = ct_column name x2) ->
  ct_fit B spec x1 = ct_fit B spec x2.
Proof.
  intros H. unfold ct_fit.
  rewrite (result_map_ext
             (fun name => xs ← numeric_values name x1; Ok (scaler_stats B xs))
             (fun name => xs ← numeric_values name x2; Ok (scaler_stats B xs))).
  - rewrite (result_map_ext
               (fun name => vs ← string_values name x1; Ok (sorted_unique vs))
               (fun name => vs ← string_values name x2; Ok (sorted_unique vs)));
      [reflexivity|].
    intros name Hn. unfold string_values. rewrite H; [reflexivity|].
    apply in_or_app. auto.
  - intros name Hn. unfold numeric_values. rewrite H; [reflexivity|].
    apply in_or_app. auto.
Qed.

Lemma ct_transform_ext (ct : ColumnTransformer) (x1 x2 : DataFrame) :
  (forall name, In name (num_columns ct ++ cat_columns ct)%list ->
                ct_column name x1 = ct_column name x2) ->
  ct_transform ct x1 = ct_transform ct x2.
Proof.
  intros H. unfold ct_transform.
  rewrite (result_map_ext
             (fun '(name, mean, scale) =>
                xs ← numeric_values name x1; Ok (scale_column mean scale xs))
             (fun '(name, mean, scale) =>
                xs ← numeric_values name x2; Ok (scale_column mean scale xs))).
  - rewrite (result_map_ext
               (fun '(name, levels) =>
                  vs ← string_values name x1;
                  onehot_block (ohe_handle_unknown (transformer_cat ct)) levels vs)
               (fun '(name, levels) =>
                  vs ← string_values name x2;
                  onehot_block (ohe_handle_unknown (transformer_cat ct)) levels vs));
      [reflexivity|].
    intros [name levels] Hn. apply in_combine_l in Hn.
    unfold string_values. rewrite H; [reflexivity|]. apply in_or_app. auto.
  - intros [[name m] s] Hn. apply zip3_In in Hn.
    unfold numeric_values. rewrite H; [reflexivity|]. apply in_or_app. auto.
Qed.

Lemma ct_fit_columns (B : Backend) (spec : PipelineSpec) (x : DataFrame)
    (ct : ColumnTransformer) :
  ct_fit B spec x = Ok ct ->
  num_columns ct = spec_num_features spec /\
  cat_columns ct = spec_cat_features spec.
Proof.
  intros H. destruct (ct_fit_inv _ _ _ _ H) as (? & ? & _ & _ & ->). auto.
Qed.

(** X10.  Training does not look at the employee ids, nor at any column
    that is not a required field or the label: on two frames that hold
    the same training data, it has the same outcome, be it a model with
    its AUC and importance table or an error. *)
Theorem training_ignores_employee_ids
    (B : Backend) (w : World) (r1 r2 : ref) (df1 df2 : DataFrame) :
  heap w !! r1 = Some df1 ->
  heap w !! r2 = Some df2 ->
  same_training_data df1 df2 ->
  train_model B r1 w = train_model B r2 w.
Proof.
  intros Hr1 Hr2 Hsame. unfold train_model.
  rewrite (bind_step _ _ _ _ _ (deref_run _ _ _ Hr1)).
  rewrite (bind_step _ _ _ _ _ (deref_run _ _ _ Hr2)).
  rewrite (same_training_data_has_column df1 df2 TARGET_COLUMN Hsame)
    by (right; reflexivity).
  destruct (negb (has_column TARGET_COLUMN df2)); [reflexivity|].
  pose proof (same_training_data_features _ _ Hsame) as Hf.
  destruct (select_features df1) as [x1 Hx1], (select_features df2) as [x2 Hx2].
  assert (Hct : forall name, name <> "employee_id" ->
                             ct_column name x1 = ct_column name x2).
  { intros name Hn.
    exact (same_training_data_ct_column _ _ _ _ _ Hsame Hx1 Hx2 Hn). }
  pose proof (same_training_data_nrows _ _ _ _ Hsame Hx1 Hx2) as Hrows.
  assert (Hnum : train_num_features df1 = train_num_features df2)
    by (unfold train_num_features; rewrite Hf; reflexivity).
  cbv zeta.
  repeat match goal with
  | |- context [List.filter ?f (features_of df1)] =>
      change (List.filter f (features_of df1)) with (train_num_features df1)
  | |- context [List.filter ?f (features_of df2)] =>
      change (List.filter f (features_of df2)) with (train_num_features df2)
  end.
  rewrite <- Hnum.
  assert (Hnames : forall name,
             In name (train_num_features df1 ++ ["dept"; "salary_band"])%list ->
             name <> "employee_id").
  { intros name Hn. apply in_app_or in Hn. destruct Hn as [Hn | Hn].
    - apply train_num_features_In in Hn. destruct Hn as [Hn _].
      simpl in Hn. intros ->. intuition discriminate.
    - simpl in Hn. intros ->. intuition discriminate. }
  rewrite Hx1, Hx2.
  rewrite !(bind_step _ _ _ _ _ (lift_run _ _)).
  destruct Hsame as (_ & Hlab & _). unfold TARGET_COLUMN. rewrite Hlab.
  apply bind_ext. intros y w1 _.
  apply bind_ext. intros u w2 _.
  assert (Hfit : pipeline_fit B
                   (_build_pipeline ["dept"; "salary_band"]
                                    (train_num_features df1)) x1 y
                 = pipeline_fit B
                     (_build_pipeline ["dept"; "salary_band"]
                                      (train_num_features df1)) x2 y).
  { unfold pipeline_fit.
    rewrite (ct_fit_ext B _ x1 x2) by (intros name Hn; apply Hct, Hnames, Hn).
    destruct (ct_fit B _ x2) as [ct|e] eqn:Ect; [|reflexivity]. simpl.
    destruct (ct_fit_columns _ _ _ _ Ect) as [Cn Cc].
    rewrite (ct_transform_ext ct x1 x2), Hrows; [reflexivity|].
    intros name Hn. rewrite Cn, Cc in Hn. apply Hct, Hnames, Hn. }
  rewrite Hfit. apply bind_ext. intros p w3 Hp.
  apply lift_ok in Hp. destruct Hp as [Hp _].
  apply bind_ext. intros u' w4 _.
  assert (Hpred : pipeline_predict_proba B p x1 = pipeline_predict_proba B p x2).
  { destruct (pipeline_fit_inv _ _ _ _ _ Hp) as (cols & Ect & _ & _).
    destruct (ct_fit_columns _ _ _ _ Ect) as [Cn Cc].
    unfold pipeline_predict_proba.
    rewrite (ct_transform_ext _ x1 x2), Hrows; [reflexivity|].
    intros name Hn. rewrite Cn, Cc in Hn. apply Hct, Hnames, Hn. }
  rewrite Hpred. reflexivity.
Qed.

Lemma training_ignores_employee_ids_witness :
  train_model Demo.B 0%nat
    {| heap := [Demo.table_labelled; Demo.table_renamed]; files := [];
       written := []; log := [] |}
  = train_model Demo.B 1%nat
      {| heap := [Demo.table_labelled; Demo.table_renamed]; files := [];
         written := []; log := [] |}.
Proof.
  apply (training_ignores_employee_ids Demo.B _ 0%nat 1%nat
           Demo.table_labelled Demo.table_renamed);
    [reflexivity | reflexivity |].
  split; [|split].
  - intros c Hc Hne. simpl in Hc.
    repeat (destruct Hc as [<- | Hc]; [first [congruence | reflexivity]|]).
    contradiction.
  - reflexivity.
  - vm_compute. reflexivity.
Defined.

(** *** The scores are the training probabilities *)

Lemma has_column_set_column_other (c name : string) (col : column)
    (df : DataFrame) :
  c <> name -> has_column c (set_column name col df) = has_column c df.
Proof.
  intros H. rewrite !has_column_get_column.
  rewrite (get_set_column_other c name col df H). reflexivity.
Qed.

Lemma features_of_set_label (col : column) (df : DataFrame) :
  features_of (set_column "exit_flag" col df) = features_of df.
Proof.
  unfold features_of. apply filter_ext_in. intros c Hc.
  apply has_column_set_column_other. intros ->.
  simpl in Hc. intuition discriminate.
Qed.

Lemma select_set_label (col : column) (df : DataFrame) :
  select (features_of df) (set_column "exit_flag" col df)
    = select (features_of df) df.
Proof.
  unfold select. apply result_map_ext. intros n Hn.
  rewrite get_set_column_other; [reflexivity|]. intros ->.
  unfold features_of in Hn. apply filter_In in Hn. destruct Hn as [Hn _].
  simpl in Hn. intuition discriminate.
Qed.

(** The frame label preparation returns is the input, or the input with
    the label column set. *)
Lemma prepare_ok_frame (r r' : ref) (w w' : World) :
  _prepare_training_data r w = (Ok r', w') ->
  exists df,
    heap w !! r = Some df /\
    (heap w' !! r' = Some df \/
     exists labels,
       heap w' !! r' = Some (set_column "exit_flag" (IntCol labels) df)).
Proof.
  intros H. destruct (prepare_ok_deref _ _ _ _ H) as [df Hr].
  exists df. split; [exact Hr|].
  destruct (prepare_ok_world _ _ _ _ _ Hr H) as [Hyes Hno].
  destruct (has_column "exit_flag" df) eqn:Hhas.
  - destruct (Hyes eq_refl) as [-> ->]. left. exact Hr.
  - right. unfold _prepare_training_data in H.
    rewrite (bind_step _ _ _ _ _ (deref_run _ _ _ Hr)), Hhas in H.
    apply bind_ok in H. destruct H as (h & w1 & Hh & H).
    apply lift_ok in Hh. destruct Hh as [_ E]. subst w1.
    rewrite (bind_step _ _ _ _ _ (df_copy_run _ _ _ Hr)) in H.
    apply bind_ok in H. destruct H as (u & w1 & Hset & H).
    apply df_setitem_last_ok in Hset. destruct Hset as [_ E]. subst w1.
    apply mret_ok in H. destruct H as [E1 E2]. subst r' w'.
    eexists. simpl. apply lookup_snoc.
Qed.

(** X12.  In a run that succeeds the model scores the very records it
    was trained on.  The feature columns selected from the training frame
    and those selected from the loaded frame are the same table; the
    model of the result is the pipeline fitted on that table and on the
    labels of the training frame; the raw scores, which the written
    scores round, are the probabilities this model gives that same table;
    and the AUC of the result is the AUC of these raw scores against the
    training labels. *)
Theorem run_scores_are_training_probabilities
    (B : Backend) (input_path : option string) (output_path : string)
    (flag : bool) (rows : Z) (w w' : World) (res : ModelResult B) :
  run_pipeline B input_path output_path flag rows w = (Ok res, w') ->
  exists df w1 frame training_df w2 training_frame w3 x labels raw w4 out,
    load_input B input_path flag rows w = (Ok df, w1) /\
    heap w1 !! df = Some frame /\
    _prepare_training_data df w1 = (Ok training_df, w2) /\
    heap w2 !! training_df = Some training_frame /\
    train_model B training_df w2 = (Ok res, w3) /\
    score B (model res) df w3 = (Ok raw, w4) /\
    select (features_of training_frame) training_frame = Ok x /\
    select (features_of frame) frame = Ok x /\
    (get_column "exit_flag" training_frame ≫= astype_int B) = Ok labels /\
    pipeline_fit B (_build_pipeline train_cat_features
                      (train_num_features training_frame)) x labels
      = Ok (model res) /\
    (pipeline_predict_proba B (model res) x
       ≫= column_1 (length (rf_classes B (named_steps_model (model res)))))
      = Ok raw /\
    roc_auc_score B labels raw = Ok (auc res) /\
    head (written w') = Some (output_path, out) /\
    get_column "risk_score" out
      = Ok (FloatCol (map (fun p => F64.round p 3) raw)).
Proof.
  intros Hrun.
  destruct (run_pipeline_inv _ _ _ _ _ _ _ _ Hrun)
    as (df & w1 & tr & w2 & w3 & raw & w4 & frame & selected
        & Hload & Hprep & Htrain & Hscore & Hframe & _ & _ & ->).
  destruct (train_model_inv _ _ _ _ _ Htrain)
    as (tdf & xt & y & proba & Htdf & _ & Hxt & Hy & Hfit & Hproba & Hauc
        & _ & E3).
  destruct (score_inv _ _ _ _ _ _ Hscore)
    as (sdf & xs & Hsdf & Hxs & Hraw & E4).
  assert (Hloaded : heap w1 !! df = Some frame).
  { rewrite <- (run_scores_loaded_frame _ _ _ _ _ _ _ _ _ Hprep Htrain Hscore).
    exact Hframe. }
  assert (Hs : sdf = frame).
  { subst w4. simpl in Hframe. congruence. }
  subst sdf.
  assert (Hx : xt = xs).
  { destruct (prepare_ok_frame _ _ _ _ Hprep) as (df0 & Hdf0 & Hcase).
    rewrite Hloaded in Hdf0. injection Hdf0 as <-.
    destruct Hcase as [Hsame | (labels & Hset)].
    - rewrite Htdf in Hsame. injection Hsame as ->. congruence.
    - rewrite Htdf in Hset. injection Hset as ->.
      rewrite features_of_set_label, select_set_label in Hxt. congruence. }
  subst xt. rewrite Hraw in Hproba. injection Hproba as <-.
  destruct (output_frame_score_band selected raw (feature_importance res))
    as [Hout _].
  exists df, w1, frame, tr, w2, tdf, w3, xs, y, raw, w4,
    (output_frame selected raw (feature_importance res)).
  unfold TARGET_COLUMN in Hy.
  split; [exact Hload|]. split; [exact Hloaded|]. split; [exact Hprep|].
  split; [exact Htdf|]. split; [exact Htrain|]. split; [exact Hscore|].
  split; [exact Hxt|]. split; [exact Hxs|]. split; [exact Hy|].
  split; [exact Hfit|]. split; [exact Hraw|]. split; [exact Hauc|].
  split; [reflexivity | exact Hout].
Qed.

Lemma run_scores_are_training_probabilities_witness :
  exists res w' labels raw,
    run_pipeline Demo.B_tenure (Some "in.csv") "out.csv" false 0 Demo.disk
      = (Ok res, w') /\
    labels = [1; 0; 1] /\
    raw = [F64.dec 2 10; F64.dec 9 10; F64.dec 2 10] /\
    pipeline_fit Demo.B_tenure
      (_build_pipeline Demo.cat_features Demo.num_features)
      Demo.table labels = Ok (model res) /\
    (pipeline_predict_proba Demo.B_tenure (model res) Demo.table
       ≫= column_1 2) = Ok raw /\
    roc_auc_score Demo.B_tenure labels raw = Ok (auc res) /\
    auc res = F64.zero /\
    roc_auc_score Demo.B_tenure [0; 1; 0] raw = Ok F64.one.
Proof.
  assert (Hok : Demo.succeeds
                  (run_pipeline Demo.B_tenure (Some "in.csv") "out.csv" false 0
                     Demo.disk) = true) by (vm_compute; reflexivity).
  destruct (run_pipeline Demo.B_tenure (Some "in.csv") "out.csv" false 0
              Demo.disk)
    as [[res|e] w'] eqn:E; [clear Hok | discriminate Hok].
  destruct (run_scores_are_training_probabilities _ _ _ _ _ _ _ _ E)
    as (df & w1 & frame & tr & w2 & tdf & w3 & x & labels & raw & w4 & out
        & Hload & Hframe & Hprep & Htdf & _ & _ & _ & Hx & Hlab & Hfit
        & Hraw & Hauc & _ & _).
  vm_compute in Hload. injection Hload as <- <-.
  simpl in Hframe. injection Hframe as <-.
  vm_compute in Hx. injection Hx as <-.
  vm_compute in Hprep. injection Hprep as <- <-.
  simpl in Htdf. injection Htdf as <-.
  assert (Hl : labels = [1; 0; 1]).
  { vm_compute in Hlab. injection Hlab as <-. reflexivity. }
  subst labels.
  assert (Hp : Demo.fitted = named_steps_prep (model res)).
  { destruct (pipeline_fit_inv _ _ _ _ _ Hfit) as (cols & Hct & _ & _).
    assert (Hct' : ct_fit Demo.B_tenure
                     (_build_pipeline Demo.cat_features Demo.num_features)
                     Demo.table = Ok Demo.fitted) by (vm_compute; reflexivity).
    change (ct_fit Demo.B_tenure
              (_build_pipeline Demo.cat_features Demo.num_features)
              Demo.table = Ok (named_steps_prep (model res))) in Hct.
    rewrite Hct' in Hct. injection Hct as Hct. exact Hct. }
  assert (Hr : raw = [F64.dec 2 10; F64.dec 9 10; F64.dec 2 10]).
  { pose proof Hraw as Hraw'. unfold pipeline_predict_proba in Hraw'.
    rewrite <- Hp in Hraw'. vm_compute in Hraw'. injection Hraw' as <-.
    vm_compute. reflexivity. }
  assert (Ha : roc_auc_score Demo.B_tenure [1; 0; 1]
                 [F64.dec 2 10; F64.dec 9 10; F64.dec 2 10] = Ok F64.zero)
    by (vm_compute; reflexivity).
  exists res, w', [1; 0; 1], raw.
  split; [reflexivity|]. split; [reflexivity|]. split; [exact Hr|].
  split; [exact Hfit|]. split; [exact Hraw|]. split; [exact Hauc|].
  subst raw. split.
  - rewrite Ha in Hauc. injection Hauc as <-. reflexivity.
  - vm_compute. reflexivity.
Defined.
